(** * CR-Data: the battle-log aggregation engine of the dashboard

    A shallow embedding of the aggregation code of
    [viz-dashboard/src/components/player/PlayerUsageStats.tsx],
    [viz-dashboard/src/components/player/BattleLogAnalytics.tsx]
    (component [PlayerMatchupStats]) and [lib/royale-utils] ([getArchetype]),
    followed by the properties the specification states about them.

    Modelling conventions.
    - JS strings are [string]; a character stands for one code unit.
    - Counters and crowns are JS numbers that only ever hold integers:
      they are [Z].  A quotient [wins / count] is a rational ([Q]); for
      counters below 2^26 two such quotients compare in IEEE double
      arithmetic as they do exactly.
    - A plain object used as a dictionary is a property list in creation
      order ([Obj]); [Object_values] enumerates it as the language does
      (array-index keys first, ascending, then the others in creation
      order).  Keys are assumed not to name members inherited from
      [Object.prototype].
    - A [Map] is a list of entries in insertion order.
    - Reading a property of [undefined] throws: the bodies that can do so
      live in the [Completion] monad.
    - [String.prototype.localeCompare] is a collation supplied by the
      platform; it is a parameter, assumed to be a consistent comparator
      (any two names compare one way or the other, transitively).  It may
      rank two different names as equal, as collations do. *)

From Stdlib Require Import List String Ascii Bool Arith ZArith NArith QArith.
From Stdlib Require Import Reals Lra Lia Permutation Sorted.
Import ListNotations.

Set Implicit Arguments.

Local Open Scope string_scope.
Local Open Scope Z_scope.
Local Open Scope list_scope.

(** ** A small JavaScript prelude *)

Module JS.

(** *** Completions: a value, or a thrown error *)

Inductive Error : Type :=
| TypeError.

Inductive Completion (A : Type) : Type :=
| Normal (a : A)
| Throw (e : Error).

Arguments Normal {A} a.
Arguments Throw {A} e.

Definition bind {A B : Type} (c : Completion A) (k : A -> Completion B)
  : Completion B :=
  match c with
  | Normal a => k a
  | Throw e => Throw e
  end.

(** [arr.forEach(body)] where the body updates a state and may throw: the
    first throw aborts the loop. *)
Fixpoint forEachM {A S : Type} (body : S -> A -> Completion S)
         (l : list A) (s : S) : Completion S :=
  match l with
  | [] => Normal s
  | x :: l' => bind (body s x) (forEachM body l')
  end.

(** [arr.forEach(body)] for a body that cannot throw. *)
Definition forEach {A S : Type} (body : S -> A -> S) (l : list A) (s : S) : S :=
  fold_left body l s.

(** *** Strings *)

(** [s.includes(sub)] *)
Fixpoint includes (sub s : string) : bool :=
  if String.prefix sub s then true
  else match s with
       | EmptyString => false
       | String _ s' => includes sub s'
       end.

(** [arr.join(sep)] on an array of strings *)
Definition join (sep : string) (l : list string) : string :=
  String.concat sep l.

(** *** Array.prototype.sort

    The sort is stable.  [nonpos a b] tells whether the comparator
    returns a number [<= 0] on [(a, b)]: then [a] stays before [b].  For a
    consistent comparator every stable sort returns the same array; it
    is written here as an insertion sort. *)

Section Sort.
Context {A : Type} (nonpos : A -> A -> bool).

Fixpoint insert (x : A) (l : list A) : list A :=
  match l with
  | [] => [x]
  | y :: l' => if nonpos x y then x :: l else y :: insert x l'
  end.

Definition Array_sort (l : list A) : list A :=
  fold_right insert [] l.
End Sort.

(** [arr.slice(0, n)] *)
Definition slice0 {A : Type} (n : nat) (l : list A) : list A := firstn n l.

(** *** Map: entries in insertion order *)

Section MapModel.
Context {V : Type}.

Definition JsMap := list (string * V).

(** [m.set(k, v)]: an existing key keeps its place and takes the new
    value, a new key goes last. *)
Fixpoint Map_set (k : string) (v : V) (m : JsMap) : JsMap :=
  match m with
  | [] => [(k, v)]
  | (k', v') :: m' =>
      if String.eqb k' k then (k', v) :: m' else (k', v') :: Map_set k v m'
  end.

(** [Array.from(m.values())] *)
Definition Map_values (m : JsMap) : list V := map snd m.
End MapModel.

(** *** Plain objects used as dictionaries *)

Section ObjModel.
Context {V : Type}.

Definition Obj := list (string * V).

(** [o[k]] *)
Fixpoint get (k : string) (o : Obj) : option V :=
  match o with
  | [] => None
  | (k', v) :: o' => if String.eqb k' k then Some v else get k o'
  end.

(** [o[k] = v] *)
Fixpoint set (k : string) (v : V) (o : Obj) : Obj :=
  match o with
  | [] => [(k, v)]
  | (k', v') :: o' =>
      if String.eqb k' k then (k', v) :: o' else (k', v') :: set k v o'
  end.

(** In-place mutation of the record stored under an existing key, as in
    [o[k].count++]. *)
Fixpoint update (k : string) (f : V -> V) (o : Obj) : Obj :=
  match o with
  | [] => []
  | (k', v) :: o' =>
      if String.eqb k' k then (k', f v) :: o' else (k', v) :: update k f o'
  end.

(** [if (!o[k]) o[k] = init;] for values that are objects. *)
Definition ensure (k : string) (init : V) (o : Obj) : Obj :=
  match get k o with
  | Some _ => o
  | None => set k init o
  end.
End ObjModel.

Arguments JsMap : clear implicits.
Arguments Obj : clear implicits.

(** An array index is a canonical numeric string below 2^32 - 1. *)
Definition digit_of (a : ascii) : option N :=
  let n := N_of_ascii a in
  if ((48 <=? n) && (n <=? 57))%N then Some (n - 48)%N else None.

Fixpoint digits_value (s : string) (acc : N) : option N :=
  match s with
  | EmptyString => Some acc
  | String a s' =>
    match digit_of a with
    | Some d => digits_value s' (10 * acc + d)%N
    | None => None
    end
  end.

Definition arrayIndex (k : string) : option N :=
  match k with
  | EmptyString => None
  | String a rest =>
    if Ascii.eqb a "0"%char
    then match rest with EmptyString => Some 0%N | _ => None end
    else match digits_value k 0 with
         | Some n => if (n <? 4294967295)%N then Some n else None
         | None => None
         end
  end.

Section ObjEnum.
Context {V : Type}.

Definition isIndexKey (e : string * V) : bool :=
  match arrayIndex (fst e) with Some _ => true | None => false end.

Definition indexOf (e : string * V) : N :=
  match arrayIndex (fst e) with Some n => n | None => 0%N end.

(** [Object.entries(o)]: own keys in the order of the language. *)
Definition Object_entries (o : Obj V) : list (string * V) :=
  Array_sort (fun a b => (indexOf a <=? indexOf b)%N) (filter isIndexKey o)
  ++ filter (fun e => negb (isIndexKey e)) o.

(** [Object.values(o)] *)
Definition Object_values (o : Obj V) : list V :=
  map snd (Object_entries o).
End ObjEnum.

End JS.

Import JS.

Notation "x <- c ;; k" := (JS.bind c (fun x => k))
  (at level 61, c at next level, right associativity).

(** ** Data model: the battle log as the components read it *)

Record IconUrls : Type := {
  medium : string;
  evolutionMedium : option string;
  heroMedium : option string
}.

Record Card : Type := {
  name : string;
  id : Z;
  iconUrls : IconUrls;
  evolutionLevel : option Z
}.

(** One side of a battle.  A field is optional where an interface marks it
    so or where the code tests for its absence. *)
Record Player : Type := {
  tag : string;
  crowns : option Z;
  startingTrophies : option Z;
  cards : option (list Card);
  supportCards : option (list Card)
}.

Record Battle : Type := {
  type : string;
  team : list Player;
  opponent : list Player
}.

(** [b.type === 'PvP' || b.type === 'pathOfLegend'] *)
Definition isLadderOrPoL (b : Battle) : bool :=
  String.eqb (type b) "PvP" || String.eqb (type b) "pathOfLegend".

(** [battle.team.find(t => t.tag === playerTag) || battle.team[0]] *)
Definition findPlayer (battle : Battle) (playerTag : string) : option Player :=
  match find (fun t => String.eqb (tag t) playerTag) (team battle) with
  | Some p => Some p
  | None => hd_error (team battle)
  end.

(** [x || 0] on an optional number *)
Definition orZero (x : option Z) : Z :=
  match x with
  | Some z => z
  | None => 0
  end.

(** [wins / count] *)
Definition rate (wins count : Z) : Q := (inject_Z wins / inject_Z count)%Q.

(** [a > b] on rationals *)
Definition Qgtb (a b : Q) : bool := negb (Qle_bool a b).

(** ** lib/royale-utils *)

Module Royale.

Definition WIN_CONDITIONS : Obj (list string) :=
  [ ("Beatdown", ["Golem"; "Lava Hound"; "Giant"; "Electro Giant";
                  "Goblin Giant"; "Royal Giant"; "Elixir Golem"]);
    ("Siege", ["X-Bow"; "Mortar"]);
    ("Control", ["Miner"; "Graveyard"; "Goblin Barrel"; "Wall Breakers";
                 "Skeleton Barrel"]);
    ("Cycle", ["Hog Rider"; "Royal Hogs"; "Ram Rider"; "Battle Ram"]);
    ("Bridge Spam", ["P.E.K.K.A"; "Mega Knight"; "Elite Barbarians";
                     "Royal Recruits"]);
    ("Air", ["Balloon"]);
    ("Three Musketeers", ["Three Musketeers"]) ].

(** [cardNames.includes(wc)] *)
Definition Array_includes (cardNames : list string) (wc : string) : bool :=
  existsb (String.eqb wc) cardNames.

(** [conditions.some(wc => cardNames.includes(wc))] *)
Definition triggered (cardNames conditions : list string) : bool :=
  existsb (Array_includes cardNames) conditions.

(** The [for ... of Object.entries(...)] loop with its early [return]. *)
Fixpoint classify (entries : list (string * list string))
         (cardNames : list string) : string :=
  match entries with
  | [] => "Unknown"
  | (archetype, conditions) :: rest =>
      if triggered cardNames conditions then archetype
      else classify rest cardNames
  end.

Definition getArchetype (cards : list Card) : string :=
  let cardNames := map name cards in
  classify (Object_entries WIN_CONDITIONS) cardNames.

End Royale.

(** ** Buckets: every aggregation record carries a total and a win count *)

Class Tally (A : Type) : Type := {
  totalOf : A -> Z;
  winsOf : A -> Z
}.

(** ** components/player/PlayerUsageStats.tsx *)

Module Usage.

Module CardCount.
Record t : Type := { count : Z; wins : Z; card : Card }.
Definition incrCount (v : t) : t :=
  {| count := count v + 1; wins := wins v; card := card v |}.
Definition incrWins (v : t) : t :=
  {| count := count v; wins := wins v + 1; card := card v |}.
End CardCount.

Module VariantCount.
Record t : Type := { count : Z; wins : Z; cards : list Card }.
Definition incrCount (v : t) : t :=
  {| count := count v + 1; wins := wins v; cards := cards v |}.
Definition incrWins (v : t) : t :=
  {| count := count v; wins := wins v + 1; cards := cards v |}.
End VariantCount.

Module DeckCount.
Record t : Type := { count : Z; wins : Z; variants : Obj VariantCount.t }.
Definition incrCount (v : t) : t :=
  {| count := count v + 1; wins := wins v; variants := variants v |}.
Definition incrWins (v : t) : t :=
  {| count := count v; wins := wins v + 1; variants := variants v |}.
Definition onVariants (f : Obj VariantCount.t -> Obj VariantCount.t) (v : t) : t :=
  {| count := count v; wins := wins v; variants := f (variants v) |}.
End DeckCount.

Module TowerCount.
Record t : Type := { count : Z; card : Card }.
Definition incrCount (v : t) : t :=
  {| count := count v + 1; card := card v |}.
End TowerCount.

#[global] Instance CardCount_Tally : Tally CardCount.t :=
  {| totalOf := CardCount.count; winsOf := CardCount.wins |}.
#[global] Instance VariantCount_Tally : Tally VariantCount.t :=
  {| totalOf := VariantCount.count; winsOf := VariantCount.wins |}.
#[global] Instance DeckCount_Tally : Tally DeckCount.t :=
  {| totalOf := DeckCount.count; winsOf := DeckCount.wins |}.

(** The two dictionaries filled by the loop over the valid battles. *)
Record Tables : Type := {
  cardCounts : Obj CardCount.t;
  deckCounts : Obj DeckCount.t
}.

Definition emptyTables : Tables := {| cardCounts := []; deckCounts := [] |}.

(** *** Counting one card of the self side (lines 77-83) *)

Definition countCard (isWin : bool) (cardCounts : Obj CardCount.t) (c : Card)
  : Obj CardCount.t :=
  let o1 := ensure (name c)
              {| CardCount.count := 0; CardCount.wins := 0; CardCount.card := c |}
              cardCounts in
  let o2 := update (name c) CardCount.incrCount o1 in
  if isWin then update (name c) CardCount.incrWins o2 else o2.

(** *** Evolution and hero detection (lines 112-137) *)

Definition variantFlags (c : Card) : bool * bool :=
  let level := orZero (evolutionLevel c) in
  let isEvo := level =? 1 in
  let isHero := negb (level =? 1) && (level =? 2) in
  if level =? 0 then
    if includes "evo" (medium (iconUrls c)) then (true, isHero)
    else if includes "hero" (medium (iconUrls c)) then (isEvo, true)
    else (isEvo, isHero)
  else (isEvo, isHero).

Definition variantParts (c : Card) : list string :=
  let '(isEvo, isHero) := variantFlags c in
  (if isEvo then [String.append (name c) ":EVO"] else [])
  ++ (if isHero then [String.append (name c) ":HERO"] else []).

(** A present, non-empty string is truthy. *)
Definition truthy (s : option string) : option string :=
  match s with
  | Some EmptyString => None
  | _ => s
  end.

Definition processCard (c : Card) : Card :=
  let '(isEvo, isHero) := variantFlags c in
  let iconUrl0 := medium (iconUrls c) in
  let iconUrl1 :=
    match truthy (evolutionMedium (iconUrls c)) with
    | Some u => if isEvo then u else iconUrl0
    | None => iconUrl0
    end in
  let iconUrl2 :=
    match truthy (heroMedium (iconUrls c)) with
    | Some u => if isHero then u else iconUrl1
    | None => iconUrl1
    end in
  {| name := name c; id := id c;
     iconUrls := {| medium := iconUrl2;
                    evolutionMedium := evolutionMedium (iconUrls c);
                    heroMedium := heroMedium (iconUrls c) |};
     evolutionLevel := evolutionLevel c |}.

(** [variantKeyParts.sort().join('|') || 'BASE']; the default sort orders
    strings by code units. *)
Definition variantKey (sortedCards : list Card) : string :=
  let variantKeyParts := flat_map variantParts sortedCards in
  let joined := join "|" (Array_sort String.leb variantKeyParts) in
  if String.eqb joined "" then "BASE" else joined.

Section WithCollation.

(** [a.localeCompare(b)] *)
Variable localeCompare : string -> string -> Z.

(** *** Deck canonicalisation (lines 88-107) *)

Definition uniqueCardsMap (cs : list Card) : JsMap Card :=
  forEach (fun m c => Map_set (name c) c m) cs [].

Definition sortedCards (cs : list Card) : list Card :=
  let sorted :=
    Array_sort (fun a b => localeCompare (name a) (name b) <=? 0)
               (Map_values (uniqueCardsMap cs)) in
  if (8 <? List.length sorted)%nat then slice0 8 sorted else sorted.

(** The names that make up the key. *)
Definition deckNames (cs : list Card) : list string :=
  map name (sortedCards cs).

(** The key of a battle, or none when the loop body returns before
    building one. *)
Definition deckKey (cs : list Card) : option string :=
  if (List.length (sortedCards cs) =? 0)%nat then None
  else Some (join "," (deckNames cs)).

(** *** Counting one deck (lines 141-151) *)

Definition countDeck (isWin : bool) (key vKey : string)
           (processedCards : list Card) (deckCounts : Obj DeckCount.t)
  : Obj DeckCount.t :=
  let d1 := ensure key
              {| DeckCount.count := 0; DeckCount.wins := 0;
                 DeckCount.variants := [] |} deckCounts in
  let d2 := update key DeckCount.incrCount d1 in
  let d3 := if isWin then update key DeckCount.incrWins d2 else d2 in
  let d4 := update key
              (DeckCount.onVariants
                 (ensure vKey {| VariantCount.count := 0;
                                 VariantCount.wins := 0;
                                 VariantCount.cards := processedCards |}))
              d3 in
  let d5 := update key
              (DeckCount.onVariants (update vKey VariantCount.incrCount)) d4 in
  if isWin
  then update key (DeckCount.onVariants (update vKey VariantCount.incrWins)) d5
  else d5.

(** *** The body of [validBattles.forEach] (lines 67-152) *)

Definition battleStep (playerTag : string) (st : Tables) (battle : Battle)
  : Completion Tables :=
  match findPlayer battle playerTag with
  | None => Throw TypeError (* [playerTeam.crowns] on [undefined] *)
  | Some playerTeam =>
      let playerCrowns := orZero (crowns playerTeam) in
      match hd_error (opponent battle) with
      | None => Throw TypeError (* [battle.opponent[0].crowns] on [undefined] *)
      | Some opponent0 =>
          let opponentCrowns := orZero (crowns opponent0) in
          let isWin := opponentCrowns <? playerCrowns in
          match cards playerTeam with
          | None => Normal st
          | Some cs =>
              let cardCounts' := forEach (countCard isWin) cs (cardCounts st) in
              match deckKey cs with
              | None =>
                  Normal {| cardCounts := cardCounts';
                            deckCounts := deckCounts st |}
              | Some key =>
                  let sorted := sortedCards cs in
                  Normal {| cardCounts := cardCounts';
                            deckCounts :=
                              countDeck isWin key (variantKey sorted)
                                        (map processCard sorted)
                                        (deckCounts st) |}
              end
          end
      end
  end.

Definition aggregate (playerTag : string) (validBattles : list Battle)
  : Completion Tables :=
  forEachM (battleStep playerTag) validBattles emptyTables.

End WithCollation.

(** *** Best win-rate card (lines 154-168) *)

Record BestCard : Type := {
  bestCard : option Card;
  bestCardWinRate : Q;
  bestCardCount : Z
}.

Definition bestCardInit : BestCard :=
  {| bestCard := None; bestCardWinRate := (-1)%Q; bestCardCount := 0 |}.

Definition bestCardStep (st : BestCard) (item : CardCount.t) : BestCard :=
  if 5 <=? CardCount.count item then
    let winRate := rate (CardCount.wins item) (CardCount.count item) in
    if Qgtb winRate (bestCardWinRate st)
    then {| bestCard := Some (CardCount.card item);
            bestCardWinRate := winRate;
            bestCardCount := CardCount.count item |}
    else st
  else st.

Definition bestByRate (items : list CardCount.t) : BestCard :=
  forEach bestCardStep items bestCardInit.

(** *** Most used card (lines 170-178) *)

Definition mostUsedStep (st : option Card * Z) (item : CardCount.t)
  : option Card * Z :=
  if snd st <? CardCount.count item
  then (Some (CardCount.card item), CardCount.count item)
  else st.

Definition mostUsed (items : list CardCount.t) : option Card * Z :=
  forEach mostUsedStep items (None, 0).

(** *** Fallback when no card has 5 battles (lines 180-192) *)

Definition fallbackStep (st : Z * BestCard) (item : CardCount.t) : Z * BestCard :=
  if fst st <? CardCount.count item
  then (CardCount.count item,
        {| bestCard := Some (CardCount.card item);
           bestCardWinRate := rate (CardCount.wins item) (CardCount.count item);
           bestCardCount := CardCount.count item |})
  else st.

Definition findBestCard (items : list CardCount.t) : BestCard :=
  let best := bestByRate items in
  match bestCard best with
  | Some _ => best
  | None => snd (forEach fallbackStep items (0, best))
  end.

(** *** Most used deck and its dominant variant (lines 194-220) *)

Definition variantStep (st : option (list Card) * Z * Z) (v : VariantCount.t)
  : option (list Card) * Z * Z :=
  let '(_, maxVariantCount, maxVariantWins) := st in
  if (maxVariantCount <? VariantCount.count v)
     || ((VariantCount.count v =? maxVariantCount)
         && (maxVariantWins <? VariantCount.wins v))
  then (Some (VariantCount.cards v), VariantCount.count v, VariantCount.wins v)
  else st.

Definition bestVariant (vs : list VariantCount.t) : option (list Card) :=
  fst (fst (forEach variantStep vs (None, -1, -1))).

Record MostUsedDeck : Type := {
  mostUsedDeck : option (list Card);
  maxDeckCount : Z;
  mostUsedDeckWins : Z
}.

Definition deckStep (st : MostUsedDeck) (item : DeckCount.t) : MostUsedDeck :=
  if (maxDeckCount st <? DeckCount.count item)
     || ((DeckCount.count item =? maxDeckCount st)
         && (mostUsedDeckWins st <? DeckCount.wins item))
  then {| mostUsedDeck := bestVariant (Object_values (DeckCount.variants item));
          maxDeckCount := DeckCount.count item;
          mostUsedDeckWins := DeckCount.wins item |}
  else st.

Definition findMostUsedDeck (items : list DeckCount.t) : MostUsedDeck :=
  forEach deckStep items
          {| mostUsedDeck := None; maxDeckCount := 0; mostUsedDeckWins := 0 |}.

(** *** Tower troops (lines 240-267): a loop over ALL the battles *)

Definition countTower (towerCounts : Obj TowerCount.t) (c : Card)
  : Obj TowerCount.t :=
  update (name c) TowerCount.incrCount
         (ensure (name c) {| TowerCount.count := 0; TowerCount.card := c |}
                 towerCounts).

Definition towerStep (playerTag : string) (st : Obj TowerCount.t * Z)
           (battle : Battle) : Obj TowerCount.t * Z :=
  match findPlayer battle playerTag with
  | Some playerTeam =>
      match supportCards playerTeam with
      | Some sc =>
          if (0 <? List.length sc)%nat
          then (forEach countTower sc (fst st), snd st + 1)
          else st
      | None => st
      end
  | None => st
  end.

Definition towerAggregate (playerTag : string) (battles : list Battle)
  : Obj TowerCount.t * Z :=
  forEach (towerStep playerTag) battles ([], 0).

Definition mostUsedTowerStep (st : option Card * Z) (item : TowerCount.t)
  : option Card * Z :=
  if snd st <? TowerCount.count item
  then (Some (TowerCount.card item), TowerCount.count item)
  else st.

Definition findMostUsedTower (items : list TowerCount.t) : option Card * Z :=
  forEach mostUsedTowerStep items (None, 0).

(** *** The memoised computation (lines 39-298) *)

Record Stats : Type := {
  best : BestCard;
  mostUsedCard : option Card;
  mostUsedCardCount : Z;
  deck : MostUsedDeck;
  mostUsedTower : option Card;
  mostUsedTowerCount : Z;
  totalTowerBattles : Z;
  totalBattles : Z
}.

Definition usageStats (localeCompare : string -> string -> Z)
           (battles : list Battle) (playerTag : string)
  : Completion (option Stats) :=
  if (List.length battles =? 0)%nat then Normal None
  else
    let validBattles := filter isLadderOrPoL battles in
    if (List.length validBattles =? 0)%nat then Normal None
    else
      t <- aggregate localeCompare playerTag validBattles ;;
      let cardItems := Object_values (cardCounts t) in
      let towers := towerAggregate playerTag battles in
      let tower := findMostUsedTower (Object_values (fst towers)) in
      Normal (Some {| best := findBestCard cardItems;
                      mostUsedCard := fst (mostUsed cardItems);
                      mostUsedCardCount := snd (mostUsed cardItems);
                      deck := findMostUsedDeck (Object_values (deckCounts t));
                      mostUsedTower := fst tower;
                      mostUsedTowerCount := snd tower;
                      totalTowerBattles := snd towers;
                      totalBattles := Z.of_nat (List.length battles) |}).

End Usage.

(** ** components/player/BattleLogAnalytics.tsx, [PlayerMatchupStats] *)

Module Matchup.

Module CardStat.
Record t : Type := { faced : Z; wins : Z; card : Card }.
Definition incrFaced (v : t) : t :=
  {| faced := faced v + 1; wins := wins v; card := card v |}.
Definition incrWins (v : t) : t :=
  {| faced := faced v; wins := wins v + 1; card := card v |}.
End CardStat.

Module DeckStat.
Record t : Type := { faced : Z; wins : Z; cards : list Card }.
Definition incrFaced (v : t) : t :=
  {| faced := faced v + 1; wins := wins v; cards := cards v |}.
Definition incrWins (v : t) : t :=
  {| faced := faced v; wins := wins v + 1; cards := cards v |}.
End DeckStat.

Module ArchetypeStat.
Record t : Type := { faced : Z; wins : Z }.
Definition incrFaced (v : t) : t := {| faced := faced v + 1; wins := wins v |}.
Definition incrWins (v : t) : t := {| faced := faced v; wins := wins v + 1 |}.
End ArchetypeStat.

#[global] Instance CardStat_Tally : Tally CardStat.t :=
  {| totalOf := CardStat.faced; winsOf := CardStat.wins |}.
#[global] Instance DeckStat_Tally : Tally DeckStat.t :=
  {| totalOf := DeckStat.faced; winsOf := DeckStat.wins |}.
#[global] Instance ArchetypeStat_Tally : Tally ArchetypeStat.t :=
  {| totalOf := ArchetypeStat.faced; winsOf := ArchetypeStat.wins |}.

(** The containers of lines 326-337. *)
Record Tables : Type := {
  cardStats : Obj CardStat.t;
  deckStats : Obj DeckStat.t;
  archetypeStats : Obj ArchetypeStat.t;
  higherTrophiesFaced : Z;
  higherTrophiesWins : Z;
  lowerTrophiesFaced : Z;
  lowerTrophiesWins : Z;
  totalBattles : Z
}.

Definition emptyTables : Tables :=
  {| cardStats := []; deckStats := []; archetypeStats := [];
     higherTrophiesFaced := 0; higherTrophiesWins := 0;
     lowerTrophiesFaced := 0; lowerTrophiesWins := 0; totalBattles := 0 |}.

(** [a > b] on numbers that may be [undefined]: a comparison with
    [undefined] is false. *)
Definition gtNum (a b : option Z) : bool :=
  match a, b with
  | Some x, Some y => y <? x
  | _, _ => false
  end.

(** A number is truthy when it is present and not zero. *)
Definition truthyNum (a : option Z) : bool :=
  match a with
  | Some x => negb (x =? 0)
  | None => false
  end.

Definition countFaced (isWin : bool) (cardStats : Obj CardStat.t) (c : Card)
  : Obj CardStat.t :=
  let o1 := ensure (name c)
              {| CardStat.faced := 0; CardStat.wins := 0; CardStat.card := c |}
              cardStats in
  let o2 := update (name c) CardStat.incrFaced o1 in
  if isWin then update (name c) CardStat.incrWins o2 else o2.

(** [opponent.cards.map(c => c.name).sort().join(',')] *)
Definition deckKey (cs : list Card) : string :=
  join "," (Array_sort String.leb (map name cs)).

Definition countDeck (isWin : bool) (cs : list Card) (deckStats : Obj DeckStat.t)
  : Obj DeckStat.t :=
  let key := deckKey cs in
  let o1 := ensure key
              {| DeckStat.faced := 0; DeckStat.wins := 0; DeckStat.cards := cs |}
              deckStats in
  let o2 := update key DeckStat.incrFaced o1 in
  if isWin then update key DeckStat.incrWins o2 else o2.

Definition countArchetype (isWin : bool) (cs : list Card)
           (archetypeStats : Obj ArchetypeStat.t) : Obj ArchetypeStat.t :=
  let archetype := Royale.getArchetype cs in
  let o1 := ensure archetype
              {| ArchetypeStat.faced := 0; ArchetypeStat.wins := 0 |}
              archetypeStats in
  let o2 := update archetype ArchetypeStat.incrFaced o1 in
  if isWin then update archetype ArchetypeStat.incrWins o2 else o2.

(** The body of [battles.forEach] (lines 339-391). *)
Definition battleStep (playerTag : string) (st : Tables) (battle : Battle)
  : Completion Tables :=
  if negb (isLadderOrPoL battle) then Normal st
  else
    match findPlayer battle playerTag, hd_error (opponent battle) with
    | Some player, Some opponent0 =>
        let isWin := gtNum (crowns player) (crowns opponent0) in
        match cards opponent0 with
        | None => Throw TypeError (* [opponent.cards.forEach] on [undefined] *)
        | Some cs =>
            let bump (b : bool) (x : Z) := if b then x + 1 else x in
            let higher :=
              truthyNum (startingTrophies player)
              && truthyNum (startingTrophies opponent0)
              && gtNum (startingTrophies opponent0) (startingTrophies player) in
            let lower :=
              truthyNum (startingTrophies player)
              && truthyNum (startingTrophies opponent0)
              && negb higher
              && gtNum (startingTrophies player) (startingTrophies opponent0) in
            Normal
              {| cardStats := forEach (countFaced isWin) cs (cardStats st);
                 deckStats := countDeck isWin cs (deckStats st);
                 archetypeStats := countArchetype isWin cs (archetypeStats st);
                 higherTrophiesFaced := bump higher (higherTrophiesFaced st);
                 higherTrophiesWins :=
                   bump (higher && isWin) (higherTrophiesWins st);
                 lowerTrophiesFaced := bump lower (lowerTrophiesFaced st);
                 lowerTrophiesWins :=
                   bump (lower && isWin) (lowerTrophiesWins st);
                 totalBattles := totalBattles st + 1 |}
        end
    | _, _ => Normal st
    end.

Definition aggregate (playerTag : string) (battles : list Battle)
  : Completion Tables :=
  forEachM (battleStep playerTag) battles emptyTables.

(** *** Derived views (lines 395-416) *)

Definition winRate (s : CardStat.t) : Q :=
  rate (CardStat.wins s) (CardStat.faced s).

(** [s.faced >= 3 && (s.wins / s.faced) < 0.5] *)
Definition struggling (s : CardStat.t) : bool :=
  (3 <=? CardStat.faced s) && Qgtb (1 # 2) (winRate s).

(** [s.faced >= 3 && (s.wins / s.faced) >= 0.5] *)
Definition easy (s : CardStat.t) : bool :=
  (3 <=? CardStat.faced s) && Qle_bool (1 # 2) (winRate s).

(** The comparator [(a, b) => a.wins / a.faced - b.wins / b.faced] returns
    a number [<= 0]. *)
Definition lowestFirst (a b : CardStat.t) : bool :=
  Qle_bool (winRate a - winRate b) 0.

Definition highestFirst (a b : CardStat.t) : bool :=
  Qle_bool (winRate b - winRate a) 0.

Definition strugglingCards (cardsArray : list CardStat.t) : list CardStat.t :=
  slice0 6 (Array_sort lowestFirst (filter struggling cardsArray)).

Definition easyCards (cardsArray : list CardStat.t) : list CardStat.t :=
  slice0 6 (Array_sort highestFirst (filter easy cardsArray)).

Definition mostFacedCards (cardsArray : list CardStat.t) : list CardStat.t :=
  slice0 8
    (Array_sort (fun a b => CardStat.faced b - CardStat.faced a <=? 0) cardsArray).

Definition mostFacedDecks (decks : list DeckStat.t) : list DeckStat.t :=
  slice0 5
    (Array_sort (fun a b => DeckStat.faced b - DeckStat.faced a <=? 0) decks).

Record Stats : Type := {
  statsTotalBattles : Z;
  statsStrugglingCards : list CardStat.t;
  statsEasyCards : list CardStat.t;
  statsMostFacedCards : list CardStat.t;
  statsMostFacedDecks : list DeckStat.t;
  statsArchetypes : Obj ArchetypeStat.t;
  higher : Z * Z;
  lower : Z * Z
}.

(** The memoised computation (lines 323-440); the chart rows derived from
    [archetypeStats] round a percentage in floating point and are not
    part of the model, the table itself is returned instead. *)
Definition matchupStats (battles : list Battle) (playerTag : string)
  : Completion (option Stats) :=
  if (List.length battles =? 0)%nat then Normal None
  else
    t <- aggregate playerTag battles ;;
    let cardsArray := Object_values (cardStats t) in
    Normal (Some {| statsTotalBattles := totalBattles t;
                    statsStrugglingCards := strugglingCards cardsArray;
                    statsEasyCards := easyCards cardsArray;
                    statsMostFacedCards := mostFacedCards cardsArray;
                    statsMostFacedDecks :=
                      mostFacedDecks (Object_values (deckStats t));
                    statsArchetypes := archetypeStats t;
                    higher := (higherTrophiesFaced t, higherTrophiesWins t);
                    lower := (lowerTrophiesFaced t, lowerTrophiesWins t) |}).

End Matchup.

(** ** The matchup significance engine *)

Module Significance.

(** The threshold of a two-tailed test at the 95% level. *)
Definition SIGNIFICANCE_THRESHOLD : R := (196 / 100)%R.

(** Modelled from the spec: the z-statistic of a one-sample proportion
    test against [p0 = 0.5] (section 4.6).  The code that fills the fields
    [z_score] and [significant] of a matchup row is not under [src/]; only
    the interface [MatchupData] of its consumer is. *)
Definition zScore (p : R) (n : nat) : R :=
  ((p - 5 / 10) / sqrt (25 / 100 / INR n))%R.

(** Modelled from the spec: a cell is significant when [|z|] exceeds the
    threshold (section 4.6). *)
Definition significant (p : R) (n : nat) : bool :=
  if Rlt_dec SIGNIFICANCE_THRESHOLD (Rabs (zScore p n)) then true else false.

End Significance.

(** ** A concrete collation: code-unit order *)

Definition codeUnitCompare (a b : string) : Z :=
  match String.compare a b with
  | Lt => -1
  | Eq => 0
  | Gt => 1
  end.

(** ** A collation with ties: punctuation ignored

    A collation may rank two different strings as equal.  Here names are
    compared by code units once spaces and ASCII punctuation are removed,
    as a collation that ignores punctuation does. *)




(** ** Sample battle logs *)

Module Sample.

Definition plainCard (n : string) : Card :=
  {| name := n; id := 26000000;
     iconUrls := {| medium := "https://api-assets.clashroyale.com/cards/300/c.png";
                    evolutionMedium := None; heroMedium := None |};
     evolutionLevel := None |}.

(** A deck with triggers of two archetypes: "Air" and "Control". *)
Definition balloonMiner : list Card :=
  map plainCard ["Balloon"; "Miner"; "Zap"; "Ice Spirit"].

(** A self side reporting 13 cards, 12 of them distinct. *)
Definition megaDeck : list Card :=
  map plainCard ["Knight"; "Witch"; "Archers"; "Goblins"; "Giant"; "P.E.K.K.A";
                 "Minions"; "Balloon"; "Knight"; "Barbarians"; "Golem";
                 "Skeleton Army"; "Valkyrie"].

Definition megaDeckSorted : list string :=
  ["Archers"; "Balloon"; "Barbarians"; "Giant"; "Goblins"; "Golem"; "Knight";
   "Minions"; "P.E.K.K.A"; "Skeleton Army"; "Valkyrie"; "Witch"].


Definition side (t : string) (c : Z) (trophies : option Z) (cs : list Card)
           (support : option (list Card)) : Player :=
  {| tag := t; crowns := Some c; startingTrophies := trophies;
     cards := Some cs; supportCards := support |}.

Definition hogCycle : list Card :=
  map plainCard ["Hog Rider"; "Musketeer"; "Ice Golem"; "Ice Spirit";
                 "Skeletons"; "Cannon"; "Fireball"; "The Log"].

Definition lavaLoon : list Card :=
  map plainCard ["Lava Hound"; "Balloon"; "Mega Minion"; "Tombstone";
                 "Arrows"; "Fireball"; "Minions"; "Guards"].

Definition princess : list Card := [plainCard "Tower Princess"].

(** A ladder win, a ladder loss, and a friendly game with a tower troop. *)
Definition ladderWin : Battle :=
  {| type := "PvP";
     team := [side "#P0" 3 (Some 5000) hogCycle (Some princess)];
     opponent := [side "#Q1" 1 (Some 5100) lavaLoon None] |}.

Definition ladderLoss : Battle :=
  {| type := "PvP";
     team := [side "#P0" 0 (Some 5030) hogCycle None];
     opponent := [side "#Q2" 1 (Some 4990) lavaLoon None] |}.

Definition friendly : Battle :=
  {| type := "friendly";
     team := [side "#P0" 2 None hogCycle (Some princess)];
     opponent := [side "#Q3" 2 None lavaLoon None] |}.

(** The bucket of a card faced 3 times with 1 win. *)
Definition princessStat : Matchup.CardStat.t :=
  {| Matchup.CardStat.faced := 3; Matchup.CardStat.wins := 1;
     Matchup.CardStat.card := plainCard "Princess" |}.

(** Card buckets around the threshold of 5 battles. *)
Definition bucket (n : string) (c w : Z) : Usage.CardCount.t :=
  {| Usage.CardCount.count := c; Usage.CardCount.wins := w;
     Usage.CardCount.card := plainCard n |}.

Definition aroundThreshold : list Usage.CardCount.t :=
  [bucket "Knight" 4 1; bucket "Archers" 5 1; bucket "Giant" 3 3].

Definition belowThreshold : list Usage.CardCount.t :=
  [bucket "Giant" 3 3; bucket "Knight" 4 1].

(** Deck buckets with one variant each, to watch ties being broken. *)
Definition deckBucket (n : string) (c w : Z) : Usage.DeckCount.t :=
  {| Usage.DeckCount.count := c; Usage.DeckCount.wins := w;
     Usage.DeckCount.variants :=
       [("BASE", {| Usage.VariantCount.count := c;
                    Usage.VariantCount.wins := w;
                    Usage.VariantCount.cards := [plainCard n] |})] |}.

Definition tiedDecks : list Usage.DeckCount.t :=
  [deckBucket "Giant" 2 1; deckBucket "Miner" 3 1; deckBucket "Golem" 3 2;
   deckBucket "X-Bow" 3 2; deckBucket "Balloon" 1 1].

(** A ladder battle whose opponent side is missing. *)
Definition noOpponent : Battle :=
  {| type := "PvP";
     team := [side "#P0" 1 None hogCycle None];
     opponent := [] |}.

Definition log : list Battle := [ladderWin; friendly; ladderLoss].

Definition logBait : list Card :=
  map plainCard ["Goblin Barrel"; "Princess"; "Knight"; "Rocket";
                 "Goblin Gang"; "Ice Spirit"; "Inferno Tower"; "The Log"].

Definition versus (selfCrowns oppCrowns : Z) (oppDeck : list Card) : Battle :=
  {| type := "PvP";
     team := [side "#P0" selfCrowns None hogCycle None];
     opponent := [side "#Q4" oppCrowns None oppDeck None] |}.

(** Three losses to one deck, then a win and two losses to another: the
    eight cards of the first deck stand at 0 wins out of 3, those of the
    second at 1 win out of 3. *)
Definition capLog : list Battle :=
  [versus 0 1 lavaLoon; versus 1 2 lavaLoon; versus 0 3 lavaLoon;
   versus 3 0 logBait; versus 0 1 logBait; versus 1 3 logBait].

End Sample.

(** Two spellings of one card that differ by punctuation only, listed in
    either order. *)
Module TieSample.



End TieSample.

(** ** Specification vocabulary *)

(** Two name lists share a name. *)
Definition intersects (conditions names : list string) : Prop :=
  exists wc, In wc conditions /\ In wc names.

(** [a] sorts before [b] under the collation, or ranks equal to it. *)
Definition nameLe (localeCompare : string -> string -> Z) (a b : string) : Prop :=
  localeCompare a b <= 0.

(** [s] lists the distinct card names of [cs], each once, in ascending
    order of the collation. *)
Definition AscendingNames (localeCompare : string -> string -> Z)
           (cs : list Card) (s : list string) : Prop :=
  StronglySorted (nameLe localeCompare) s
  /\ NoDup s
  /\ (forall n, In n s <-> In n (map name cs)).

(** The collation ranks no two different card names of [cs] as equal. *)
Definition separatesNames (localeCompare : string -> string -> Z)
           (cs : list Card) : Prop :=
  forall a b, In a (map name cs) -> In b (map name cs) ->
              nameLe localeCompare a b -> nameLe localeCompare b a -> a = b.

(** A bucket is sound when its wins lie between 0 and its total, and the
    total counts at least the battle that created the bucket. *)
Definition tallyOk {A : Type} `{Tally A} (v : A) : Prop :=
  0 <= winsOf v <= totalOf v /\ 1 <= totalOf v.

(** The rate of a bucket is a proportion. *)
Definition rateInUnit {A : Type} `{Tally A} (v : A) : Prop :=
  (0 <= rate (winsOf v) (totalOf v) <= 1)%Q.

(** [if (!o[k]) o[k] = init; o[k] = f(o[k])] in one traversal; the loops
    are shown to compute it. *)
Fixpoint upsert {V : Type} (k : string) (init : V) (f : V -> V) (o : Obj V)
  : Obj V :=
  match o with
  | [] => [(k, f init)]
  | (k', v) :: o' =>
      if String.eqb k' k then (k', f v) :: o' else (k', v) :: upsert k init f o'
  end.

(** A sound bucket with its rate. *)
Definition soundBucket {A : Type} `{Tally A} (v : A) : Prop :=
  tallyOk v /\ rateInUnit v.

(** A trophy-gap bucket: a pair of counters that may both be zero. *)
Definition gapOk (wins faced : Z) : Prop :=
  0 <= wins <= faced /\ (faced <> 0 -> (0 <= rate wins faced <= 1)%Q).

(** What the statements of lines 141-151 do to the bucket of one deck. *)
Definition deckBump (isWin : bool) (vKey : string) (processedCards : list Card)
           (d : Usage.DeckCount.t) : Usage.DeckCount.t :=
  let d2 := Usage.DeckCount.incrCount d in
  let d3 := if isWin then Usage.DeckCount.incrWins d2 else d2 in
  let d4 := Usage.DeckCount.onVariants
              (ensure vKey {| Usage.VariantCount.count := 0;
                              Usage.VariantCount.wins := 0;
                              Usage.VariantCount.cards := processedCards |})
              d3 in
  let d5 := Usage.DeckCount.onVariants
              (update vKey Usage.VariantCount.incrCount) d4 in
  if isWin
  then Usage.DeckCount.onVariants (update vKey Usage.VariantCount.incrWins) d5
  else d5.

(** The soundness of the two tables of the usage statistics. *)
Definition deckOk (d : Usage.DeckCount.t) : Prop :=
  tallyOk d
  /\ Forall tallyOk (map snd (Usage.DeckCount.variants d))
  /\ Usage.DeckCount.variants d <> [].

Definition usageOk (t : Usage.Tables) : Prop :=
  Forall tallyOk (map snd (Usage.cardCounts t))
  /\ Forall deckOk (map snd (Usage.deckCounts t)).

(** The soundness of the tables of the matchup statistics. *)
Definition matchupOk (t : Matchup.Tables) : Prop :=
  Forall tallyOk (map snd (Matchup.cardStats t))
  /\ Forall tallyOk (map snd (Matchup.deckStats t))
  /\ Forall tallyOk (map snd (Matchup.archetypeStats t))
  /\ 0 <= Matchup.higherTrophiesWins t <= Matchup.higherTrophiesFaced t
  /\ 0 <= Matchup.lowerTrophiesWins t <= Matchup.lowerTrophiesFaced t.

(** *** Keeping the first best item of an array

    The selection loops share one shape: a running best key, replaced by
    the key of an eligible item that is strictly better.  [select] is that
    loop; [FirstBest items d] says that [d] is eligible, that every
    eligible item before it is strictly worse and that no eligible item
    after it is strictly better. *)

Section Select.
Context {A K : Type} (key : A -> K) (lt : K -> K -> bool) (elig : A -> bool).

Definition selectStep (st : option A * K) (x : A) : option A * K :=
  if elig x && lt (snd st) (key x) then (Some x, key x) else st.

Definition select (k0 : K) (items : list A) : option A * K :=
  fold_left selectStep items (None, k0).

Definition FirstBest (items : list A) (d : A) : Prop :=
  exists pre post,
    items = pre ++ d :: post
    /\ elig d = true
    /\ (forall x, In x pre -> elig x = true -> lt (key x) (key d) = true)
    /\ (forall x, In x post -> elig x = true -> lt (key d) (key x) = false).

End Select.

(** [a < b] on rationals, [a < b] on integers, and the order of the
    deck selection: count first, wins to break a tie. *)
Definition Qltb (a b : Q) : bool := Qgtb b a.

Definition countWinsLt (a b : Z * Z) : bool :=
  (fst a <? fst b) || ((fst b =? fst a) && (snd a <? snd b)).

Definition always {A : Type} (x : A) : bool := true.

(** The resolved self side of a battle lists at least one card. *)
Definition contributesCard (playerTag : string) (b : Battle) : Prop :=
  exists p c cs, findPlayer b playerTag = Some p /\ cards p = Some (c :: cs).

(** The keys the loops of the usage statistics compare. *)
Definition cardRate (x : Usage.CardCount.t) : Q :=
  rate (Usage.CardCount.wins x) (Usage.CardCount.count x).

Definition atLeast5 (x : Usage.CardCount.t) : bool :=
  5 <=? Usage.CardCount.count x.

Definition deckRank (d : Usage.DeckCount.t) : Z * Z :=
  (Usage.DeckCount.count d, Usage.DeckCount.wins d).

Definition variantRank (v : Usage.VariantCount.t) : Z * Z :=
  (Usage.VariantCount.count v, Usage.VariantCount.wins v).

(** The record reported for a card [x] chosen as best. *)
Definition reportBest (x : Usage.CardCount.t) : Usage.BestCard :=
  {| Usage.bestCard := Some (Usage.CardCount.card x);
     Usage.bestCardWinRate := cardRate x;
     Usage.bestCardCount := Usage.CardCount.count x |}.

(** What the usage statistics [s] report about the deck table of [t]:
    nothing when the table is empty; otherwise the count and the wins of
    the first bucket [d] that is maximal for (count, wins), and the cards
    of the first variant [v] of [d] that is maximal for (count, wins). *)
Definition MostUsedDeckSpec (t : Usage.Tables) (s : Usage.Stats) : Prop :=
  (Usage.deckCounts t = [] /\ Usage.mostUsedDeck (Usage.deck s) = None)
  \/ exists d v,
      FirstBest deckRank countWinsLt always
                (Object_values (Usage.deckCounts t)) d
      /\ Usage.maxDeckCount (Usage.deck s) = Usage.DeckCount.count d
      /\ Usage.mostUsedDeckWins (Usage.deck s) = Usage.DeckCount.wins d
      /\ FirstBest variantRank countWinsLt always
                   (Object_values (Usage.DeckCount.variants d)) v
      /\ Usage.mostUsedDeck (Usage.deck s) = Some (Usage.VariantCount.cards v).

(** What the usage statistics [s] report about the card table [items]:
    - when some card has 5 battles, the best card is the first card of
      maximal win rate among the cards with 5 battles or more;
    - when none has, and the table is not empty, it is the first card of
      maximal count, reported with its own win rate;
    - the most used card is the first card of maximal count among all
      the cards, whatever their count. *)
Definition BestCardSpec (items : list Usage.CardCount.t) (s : Usage.Stats)
  : Prop :=
  ((exists x, In x items /\ 5 <= Usage.CardCount.count x) ->
   exists d, FirstBest cardRate Qltb atLeast5 items d
             /\ Usage.best s = reportBest d)
  /\ ((forall x, In x items -> Usage.CardCount.count x < 5) ->
      items <> [] ->
      exists d, FirstBest Usage.CardCount.count Z.ltb always items d
                /\ Usage.best s = reportBest d)
  /\ (items <> [] ->
      exists m, FirstBest Usage.CardCount.count Z.ltb always items m
                /\ Usage.mostUsedCard s = Some (Usage.CardCount.card m)
                /\ Usage.mostUsedCardCount s = Usage.CardCount.count m)
  /\ (forall x, In x items ->
                Usage.CardCount.count x <= Usage.mostUsedCardCount s).

(** *** Tower troops *)

(** The support cards of the resolved self side of a battle. *)
Definition selfSupport (playerTag : string) (b : Battle) : list Card :=
  match findPlayer b playerTag with
  | Some p => match supportCards p with Some sc => sc | None => [] end
  | None => []
  end.

(** The resolved self side reports at least one support card. *)
Definition hasTower (playerTag : string) (b : Battle) : bool :=
  match selfSupport playerTag b with [] => false | _ :: _ => true end.

(** How many of the cards [cs] are named [n]. *)
Definition namedCount (n : string) (cs : list Card) : Z :=
  Z.of_nat (List.length (filter (fun c => String.eqb (name c) n) cs)).

(** How many times the self side fielded the tower troop [n] over the
    battles [bs]. *)
Definition towerUses (playerTag : string) (bs : list Battle) (n : string) : Z :=
  namedCount n (flat_map (selfSupport playerTag) bs).

(** The count recorded under a name, 0 when there is none. *)
Definition towerCountOf (n : string) (o : Obj Usage.TowerCount.t) : Z :=
  match get n o with
  | Some v => Usage.TowerCount.count v
  | None => 0
  end.

(** What the usage statistics [s] report about tower troops, all over the
    battle list [battles] as received:
    - [totalTowerBattles] is the number of battles with a tower troop;
    - the table has one bucket per troop fielded, counting its uses;
    - the most used tower is the first bucket of maximal count. *)
Definition TowerSpec (playerTag : string) (battles : list Battle)
           (s : Usage.Stats) : Prop :=
  let towers := Object_values (fst (Usage.towerAggregate playerTag battles)) in
  Usage.totalTowerBattles s
  = Z.of_nat (List.length (filter (hasTower playerTag) battles))
  /\ (forall x, In x towers ->
                Usage.TowerCount.count x
                = towerUses playerTag battles (name (Usage.TowerCount.card x))
                /\ 1 <= Usage.TowerCount.count x)
  /\ (forall n, 0 < towerUses playerTag battles n ->
                exists x, In x towers /\ name (Usage.TowerCount.card x) = n)
  /\ (towers = [] ->
      Usage.mostUsedTower s = None /\ Usage.mostUsedTowerCount s = 0)
  /\ (towers <> [] ->
      exists m, FirstBest Usage.TowerCount.count Z.ltb always towers m
                /\ Usage.mostUsedTower s = Some (Usage.TowerCount.card m)
                /\ Usage.mostUsedTowerCount s = Usage.TowerCount.count m).

(** The soundness of the tower table: one bucket per name, filed under the
    name of its card, counting at least one use. *)
Definition towerOk (o : Obj Usage.TowerCount.t) : Prop :=
  NoDup (map fst o)
  /\ Forall (fun e => name (Usage.TowerCount.card (snd e)) = fst e
                      /\ 1 <= Usage.TowerCount.count (snd e)) o.

(** *** Hardest counters *)

(** Ascending win rate. *)
Definition rateLe (a b : Matchup.CardStat.t) : Prop :=
  (Matchup.winRate a <= Matchup.winRate b)%Q.

(** What the list [result] of hardest counters is, for the card table
    [items]:
    - the first 6 entries of the cards that pass the gate (faced 3 times
      or more, win rate below one half) put in ascending win-rate order;
    - so it holds at most 6 cards, all passing the gate, and a card that
      passes the gate and is left out has a win rate at least as high as
      every card listed;
    - a card faced 3 times with 1 win passes the gate, and is listed when
      at most 6 cards pass it;
    - a card faced fewer than 3 times is never listed. *)
Definition HardestSpec (items result : list Matchup.CardStat.t) : Prop :=
  (exists sorted,
      Permutation sorted (filter Matchup.struggling items)
      /\ StronglySorted rateLe sorted
      /\ result = firstn 6 sorted)
  /\ (List.length result <= 6)%nat
  /\ (forall x, In x result ->
                In x items /\ 3 <= Matchup.CardStat.faced x
                /\ (Matchup.winRate x < 1 # 2)%Q)
  /\ (forall x y, In x result -> In y items -> Matchup.struggling y = true ->
                  ~ In y result -> rateLe x y)
  /\ (forall x, In x items ->
                Matchup.CardStat.faced x = 3 -> Matchup.CardStat.wins x = 1 ->
                Matchup.struggling x = true
                /\ ((List.length (filter Matchup.struggling items) <= 6)%nat ->
                    In x result))
  /\ (forall x, In x items -> Matchup.CardStat.faced x < 3 -> ~ In x result).

(** ** Further vocabulary and samples *)

(** The labels [getArchetype] can return. *)
Definition archetypeLabels : list string :=
  "Unknown" :: map fst Royale.WIN_CONDITIONS.

(** A string holds a colon. *)
Fixpoint hasColon (s : string) : bool :=
  match s with
  | EmptyString => false
  | String a s' => Ascii.eqb a ":"%char || hasColon s'
  end.

Module MoreSamples.

(** The cards of [Sample.balloonMiner] listed twice, backwards first. *)
Definition balloonMinerTwice : list Card :=
  rev Sample.balloonMiner ++ Sample.balloonMiner.

(** A deck with no win condition of the table. *)
Definition spellsOnly : list Card :=
  map Sample.plainCard ["Zap"; "Arrows"; "Fireball"].

(** An evolved card marked by its level, a hero marked by its icon. *)
Definition evoKnight : Card :=
  {| name := "Knight"; id := 26000000;
     iconUrls := {| medium := "https://api-assets.clashroyale.com/cards/300/hero.png";
                    evolutionMedium := Some "https://api-assets.clashroyale.com/cardevolutions/300/k.png";
                    heroMedium := None |};
     evolutionLevel := Some 1 |}.

Definition heroGiant : Card :=
  {| name := "Giant"; id := 26000003;
     iconUrls := {| medium := "https://api-assets.clashroyale.com/cards/300/hero-giant.png";
                    evolutionMedium := None; heroMedium := None |};
     evolutionLevel := None |}.

Definition variantDeck : list Card :=
  [Sample.plainCard "Archers"; heroGiant; evoKnight; Sample.plainCard "Zap"].

(** A team of two where the player is listed second. *)
Definition duo : Battle :=
  {| type := "PvP";
     team := [Sample.side "#A1" 1 None Sample.lavaLoon None;
              Sample.side "#P0" 2 None Sample.hogCycle None];
     opponent := [Sample.side "#Q1" 0 None Sample.logBait None] |}.

End MoreSamples.

(** *** Canonical decks *)

(** A list of cards has the shape of a canonical deck: from 1 to 8 cards,
    no two of them with the same name. *)
Definition deckShaped (cs : list Card) : Prop :=
  (1 <= List.length cs <= 8)%nat /\ NoDup (map name cs).

(** Every variant of the deck bucket [d], filed under the key [k], stores
    cards that are deck-shaped and whose names joined give back [k]. *)
Definition filedUnder (k : string) (d : Usage.DeckCount.t) : Prop :=
  Forall (fun v => deckShaped (Usage.VariantCount.cards v)
                   /\ join "," (map name (Usage.VariantCount.cards v)) = k)
         (map snd (Usage.DeckCount.variants d)).

(** *** Tables of named cards

    The card table of the usage statistics and the one of the matchup
    statistics are filled by the same three statements; [countNamed] is
    their common shape. *)

Section NamedTables.
Context {V : Type} (cnt wins : V -> Z) (cardOf : V -> Card).

Definition countNamed (init : Card -> V) (bumpC bumpW : V -> V) (isWin : bool)
           (o : Obj V) (c : Card) : Obj V :=
  let o1 := ensure (name c) (init c) o in
  let o2 := update (name c) bumpC o1 in
  if isWin then update (name c) bumpW o2 else o2.

(** The total and the wins recorded under a name, 0 when there is no
    bucket. *)
Definition cntOf (n : string) (o : Obj V) : Z :=
  match get n o with Some v => cnt v | None => 0 end.

Definition winsOfName (n : string) (o : Obj V) : Z :=
  match get n o with Some v => wins v | None => 0 end.

(** One bucket per name, filed under the name of its card. *)
Definition tableOk (o : Obj V) : Prop :=
  NoDup (map fst o)
  /\ Forall (fun e => name (cardOf (snd e)) = fst e /\ 1 <= cnt (snd e)) o.

(** The table [o] counts what [total] and [won] say: every bucket holds
    the total and the wins of the name of its card, every name with a
    positive total has a bucket, and no two buckets share a name. *)
Definition TableCounts (o : Obj V) (total won : string -> Z) : Prop :=
  (forall x, In x (Object_values o) ->
             cnt x = total (name (cardOf x))
             /\ wins x = won (name (cardOf x))
             /\ 1 <= cnt x)
  /\ (forall n, 0 < total n ->
                exists x, In x (Object_values o) /\ name (cardOf x) = n)
  /\ NoDup (map (fun x => name (cardOf x)) (Object_values o)).

End NamedTables.

(** The cards the usage loop counts for a battle: those of the resolved
    self side. *)
Definition usageCards (playerTag : string) (b : Battle) : list Card :=
  match findPlayer b playerTag with
  | Some p => match cards p with Some cs => cs | None => [] end
  | None => []
  end.

(** The battle is a win for the usage loop: strictly more crowns than the
    first opponent, a missing crown count standing for 0. *)
Definition usageWin (playerTag : string) (b : Battle) : bool :=
  match findPlayer b playerTag, hd_error (opponent b) with
  | Some p, Some q => orZero (crowns q) <? orZero (crowns p)
  | _, _ => false
  end.

(** The battle is counted by the matchup loop: a ladder or path-of-legend
    battle with a self side and an opponent. *)
Definition matchupCounted (playerTag : string) (b : Battle) : bool :=
  isLadderOrPoL b
  && match findPlayer b playerTag, hd_error (opponent b) with
     | Some _, Some _ => true
     | _, _ => false
     end.

(** The cards the matchup loop counts for a battle: those of the first
    opponent of a counted battle. *)
Definition facedCards (playerTag : string) (b : Battle) : list Card :=
  if matchupCounted playerTag b
  then match hd_error (opponent b) with
       | Some q => match cards q with Some cs => cs | None => [] end
       | None => []
       end
  else [].

(** The battle is a win for the matchup loop: counted, both crown counts
    present, strictly more crowns than the first opponent. *)
Definition matchupWin (playerTag : string) (b : Battle) : bool :=
  matchupCounted playerTag b
  && match findPlayer b playerTag, hd_error (opponent b) with
     | Some p, Some q => Matchup.gtNum (crowns p) (crowns q)
     | _, _ => false
     end.

(** The sum of a quantity over a list. *)
Definition sumOf {A : Type} (f : A -> Z) (l : list A) : Z :=
  fold_right (fun x acc => f x + acc) 0 l.

(** How many items of a list pass a test. *)
Definition countIf {A : Type} (p : A -> bool) (l : list A) : Z :=
  Z.of_nat (List.length (filter p l)).

(** Both sides of a counted battle report a nonzero starting-trophy count
    and the opponent's is strictly the higher (respectively the lower). *)
Definition trophyHigher (playerTag : string) (b : Battle) : bool :=
  matchupCounted playerTag b
  && match findPlayer b playerTag, hd_error (opponent b) with
     | Some p, Some q =>
         Matchup.truthyNum (startingTrophies p)
         && Matchup.truthyNum (startingTrophies q)
         && Matchup.gtNum (startingTrophies q) (startingTrophies p)
     | _, _ => false
     end.

Definition trophyLower (playerTag : string) (b : Battle) : bool :=
  matchupCounted playerTag b
  && match findPlayer b playerTag, hd_error (opponent b) with
     | Some p, Some q =>
         Matchup.truthyNum (startingTrophies p)
         && Matchup.truthyNum (startingTrophies q)
         && Matchup.gtNum (startingTrophies p) (startingTrophies q)
     | _, _ => false
     end.

(** What the counters and the tables of the matchup loop add up to, for
    the battles [bs]: the total is the number of counted battles; every
    counted battle is in exactly one archetype bucket and one deck bucket,
    with its win if it is one; and the two trophy-gap buckets count the
    battles with a strictly higher and a strictly lower opponent. *)
Definition MatchupTotals (playerTag : string) (bs : list Battle)
           (t : Matchup.Tables) : Prop :=
  Matchup.totalBattles t = countIf (matchupCounted playerTag) bs
  /\ sumOf Matchup.ArchetypeStat.faced (Object_values (Matchup.archetypeStats t))
     = countIf (matchupCounted playerTag) bs
  /\ sumOf Matchup.ArchetypeStat.wins (Object_values (Matchup.archetypeStats t))
     = countIf (matchupWin playerTag) bs
  /\ sumOf Matchup.DeckStat.faced (Object_values (Matchup.deckStats t))
     = countIf (matchupCounted playerTag) bs
  /\ sumOf Matchup.DeckStat.wins (Object_values (Matchup.deckStats t))
     = countIf (matchupWin playerTag) bs
  /\ Matchup.higherTrophiesFaced t = countIf (trophyHigher playerTag) bs
  /\ Matchup.higherTrophiesWins t
     = countIf (fun b => trophyHigher playerTag b && matchupWin playerTag b) bs
  /\ Matchup.lowerTrophiesFaced t = countIf (trophyLower playerTag) bs
  /\ Matchup.lowerTrophiesWins t
     = countIf (fun b => trophyLower playerTag b && matchupWin playerTag b) bs
  /\ Matchup.higherTrophiesFaced t + Matchup.lowerTrophiesFaced t
     <= Matchup.totalBattles t.

(** The same sums, kept along the loop over the property lists. *)
Definition matchupMeasure (t : Matchup.Tables) : list Z :=
  [ Matchup.totalBattles t;
    sumOf Matchup.ArchetypeStat.faced (map snd (Matchup.archetypeStats t));
    sumOf Matchup.ArchetypeStat.wins (map snd (Matchup.archetypeStats t));
    sumOf Matchup.DeckStat.faced (map snd (Matchup.deckStats t));
    sumOf Matchup.DeckStat.wins (map snd (Matchup.deckStats t));
    Matchup.higherTrophiesFaced t; Matchup.higherTrophiesWins t;
    Matchup.lowerTrophiesFaced t; Matchup.lowerTrophiesWins t ].

Definition oneIf (c : bool) : Z := if c then 1 else 0.

Definition matchupDelta (playerTag : string) (b : Battle) : list Z :=
  let c := matchupCounted playerTag b in
  let w := matchupWin playerTag b in
  let h := trophyHigher playerTag b in
  let l := trophyLower playerTag b in
  [ oneIf c; oneIf c; oneIf w; oneIf c; oneIf w;
    oneIf h; oneIf (h && w); oneIf l; oneIf (l && w) ].

Definition addZ (xs ys : list Z) : list Z := map (fun p => fst p + snd p) (combine xs ys).

(** *** Easy matchups and most faced lists *)

(** What the list [result] of easy matchups is, for the card table
    [items]: the first 6 entries of the cards faced 3 times or more with
    a win rate of one half or more, in descending win-rate order; a card
    that passes this gate and is left out has a win rate no higher than
    any card listed. *)
Definition EasySpec (items result : list Matchup.CardStat.t) : Prop :=
  (exists sorted,
      Permutation sorted (filter Matchup.easy items)
      /\ StronglySorted (fun a b => rateLe b a) sorted
      /\ result = firstn 6 sorted)
  /\ (List.length result <= 6)%nat
  /\ (forall x, In x result ->
                In x items /\ 3 <= Matchup.CardStat.faced x
                /\ (1 # 2 <= Matchup.winRate x)%Q)
  /\ (forall x y, In x result -> In y items -> Matchup.easy y = true ->
                  ~ In y result -> rateLe y x).

(** [result] holds the [k] most faced items of [items]: it is the first
    [k] entries of [items] put in descending order of [faced], so it has
    [k] entries (all of them when there are fewer), and an item left out
    was faced no more than any item listed. *)
Definition TopFaced {A : Type} (faced : A -> Z) (k : nat)
           (items result : list A) : Prop :=
  (exists sorted,
      Permutation sorted items
      /\ StronglySorted (fun a b => faced b <= faced a) sorted
      /\ result = firstn k sorted
      /\ forall x y, In x result -> In y (skipn k sorted) -> faced y <= faced x)
  /\ List.length result = Nat.min k (List.length items)
  /\ (forall x, In x result -> In x items).

(** The statistics of a log in which the matchup loop counts no battle. *)
Definition noMatchup : Matchup.Stats :=
  {| Matchup.statsTotalBattles := 0;
     Matchup.statsStrugglingCards := [];
     Matchup.statsEasyCards := [];
     Matchup.statsMostFacedCards := [];
     Matchup.statsMostFacedDecks := [];
     Matchup.statsArchetypes := [];
     Matchup.higher := (0, 0);
     Matchup.lower := (0, 0) |}.

(** *** The deck table *)

(** The self side of the battle lists at least one card. *)
Definition fieldsDeck (playerTag : string) (b : Battle) : bool :=
  match usageCards playerTag b with [] => false | _ :: _ => true end.

(** The variants of a deck bucket share its battles out among them. *)
Definition variantsAddUp (d : Usage.DeckCount.t) : Prop :=
  Usage.DeckCount.count d
  = sumOf Usage.VariantCount.count (map snd (Usage.DeckCount.variants d))
  /\ Usage.DeckCount.wins d
     = sumOf Usage.VariantCount.wins (map snd (Usage.DeckCount.variants d)).

(** What the deck table [t] adds up to, for the battles [bs]: every deck
    bucket is the sum of its variants, and the deck buckets share out
    among them the battles in which the self side lists a card, with
    their wins. *)
Definition DeckTotals (playerTag : string) (bs : list Battle)
           (t : Usage.Tables) : Prop :=
  (forall d, In d (Object_values (Usage.deckCounts t)) ->
             Usage.DeckCount.count d
             = sumOf Usage.VariantCount.count
                     (Object_values (Usage.DeckCount.variants d))
             /\ Usage.DeckCount.wins d
                = sumOf Usage.VariantCount.wins
                        (Object_values (Usage.DeckCount.variants d)))
  /\ sumOf Usage.DeckCount.count (Object_values (Usage.deckCounts t))
     = countIf (fieldsDeck playerTag) bs
  /\ sumOf Usage.DeckCount.wins (Object_values (Usage.deckCounts t))
     = countIf (fun b => fieldsDeck playerTag b && usageWin playerTag b) bs.

(** ** PlayerUsageStats.tsx: the elixir average (lines 59-65 and 222-238)

    The side table [cardData] is an array of loosely typed records; an
    entry is used when its name is truthy and its elixir is defined.  A
    cost, when present, is a whole number. *)

Module Elixir.

Module CardDatum.
Record t : Type := { name : option string; elixir : option Z }.
End CardDatum.

(** [m.get(k)] *)
Fixpoint Map_get {V : Type} (k : string) (m : JsMap V) : option V :=
  match m with
  | [] => None
  | (k', v) :: m' => if String.eqb k' k then Some v else Map_get k m'
  end.

(** One turn of [cardData?.forEach(...)] *)
Definition addCost (m : JsMap Z) (c : CardDatum.t) : JsMap Z :=
  match Usage.truthy (CardDatum.name c), CardDatum.elixir c with
  | Some n, Some e => Map_set n e m
  | _, _ => m
  end.

Definition elixirMap (cardData : option (list CardDatum.t)) : JsMap Z :=
  match cardData with
  | None => []
  | Some l => forEach addCost l []
  end.

(** One turn of [deck.forEach(...)]: the state is [(totalElixir, count)]. *)
Definition addElixir (m : JsMap Z) (st : Z * Z) (card : Card) : Z * Z :=
  match Map_get (name card) m with
  | Some cost => (fst st + cost, snd st + 1)
  | None => st
  end.

Definition deckElixirAvg (cardData : option (list CardDatum.t))
           (mostUsedDeck : option (list Card)) : Q :=
  match mostUsedDeck with
  | None => 0%Q
  | Some deck =>
      let st := forEach (addElixir (elixirMap cardData)) deck (0, 0) in
      if 0 <? snd st then rate (fst st) (snd st) else 0%Q
  end.

End Elixir.

(** The entry of the side table can give a cost to the name [n]. *)
Definition givesCost (n : string) (c : Elixir.CardDatum.t) : bool :=
  match Usage.truthy (Elixir.CardDatum.name c), Elixir.CardDatum.elixir c with
  | Some k, Some _ => String.eqb k n
  | _, _ => false
  end.

(** The costs of the cards of a deck that the table knows, in deck order. *)
Definition knownCosts (m : JsMap Z) (deck : list Card) : list Z :=
  flat_map (fun c => match Elixir.Map_get (name c) m with
                     | Some cost => [cost]
                     | None => []
                     end) deck.

(** What the elixir average of a deck is, for the cost table [m]: 0 when
    the table knows none of its cards, otherwise the sum of the known
    costs over their number, which lies between any two bounds of the
    known costs; cards without a cost count neither above nor below. *)
Definition ElixirSpec (m : JsMap Z) (deck : list Card) (avg : Q) : Prop :=
  (knownCosts m deck = [] -> avg = 0%Q)
  /\ (knownCosts m deck <> [] ->
      avg = rate (sumOf (fun k => k) (knownCosts m deck))
                 (Z.of_nat (List.length (knownCosts m deck))))
  /\ (forall lo hi,
         knownCosts m deck <> [] ->
         (forall k, In k (knownCosts m deck) -> lo <= k <= hi) ->
         (inject_Z lo <= avg <= inject_Z hi)%Q).

Module ElixirSamples.

Definition table : option (list Elixir.CardDatum.t) :=
  Some [ {| Elixir.CardDatum.name := Some "Hog Rider"; Elixir.CardDatum.elixir := Some 5 |};
         {| Elixir.CardDatum.name := Some "Ice Spirit"; Elixir.CardDatum.elixir := Some 1 |};
         {| Elixir.CardDatum.name := Some "Mirror"; Elixir.CardDatum.elixir := None |};
         {| Elixir.CardDatum.name := None; Elixir.CardDatum.elixir := Some 9 |};
         {| Elixir.CardDatum.name := Some "Hog Rider"; Elixir.CardDatum.elixir := Some 4 |} ].

End ElixirSamples.

(** ** components/player/BattleLogAnalytics.tsx, [BattleLogAnalytics]

    The component declares its own view of a battle (lines 20-42): crowns
    are required, a trophy change is optional, and the game mode is read
    through [b.gameMode?.name]. *)

Module BattleLog.

Record Player : Type := {
  tag : string;
  name : string;
  crowns : Z;
  trophyChange : option Z;
  cards : list Card
}.

Record Battle : Type := {
  type : string;
  battleTime : string;
  team : list Player;
  opponent : list Player;
  gameMode : option string
}.

(** [b.gameMode?.name === n] *)
Definition modeIs (n : string) (b : Battle) : bool :=
  match gameMode b with
  | Some m => String.eqb m n
  | None => false
  end.

(** [battles.filter(b => b.gameMode?.name !== 'ClanWar_BoatBattle')] *)
Definition filteredBattles (battles : list Battle) : list Battle :=
  filter (fun b => negb (modeIs "ClanWar_BoatBattle" b)) battles.

(** [arr.filter(p)] for a test that may throw. *)
Fixpoint filterM {A : Type} (p : A -> Completion bool) (l : list A)
  : Completion (list A) :=
  match l with
  | [] => Normal []
  | x :: l' =>
      keep <- p x ;;
      rest <- filterM p l' ;;
      Normal (if keep then x :: rest else rest)
  end.

(** [b.type === 'PvP' && b.gameMode?.name === 'Ladder'
     && b.team[0].trophyChange !== undefined] (line 62) *)
Definition isTiltBattle (b : Battle) : Completion bool :=
  if String.eqb (type b) "PvP" && modeIs "Ladder" b
  then match hd_error (team b) with
       | Some p => Normal (match trophyChange p with Some _ => true | None => false end)
       | None => Throw TypeError (* [b.team[0].trophyChange] on [undefined] *)
       end
  else Normal false.

Record TrophyRow : Type := {
  index : Z;
  change : Z;
  cumulative : Z;
  mode : string;
  result : string
}.

(** [b.gameMode?.name || 'Unknown'] *)
Definition modeLabel (b : Battle) : string :=
  match gameMode b with
  | Some EmptyString => "Unknown"
  | Some m => m
  | None => "Unknown"
  end.

(** The [.map((b, i) => ...)] of lines 64-74, with the variable
    [cumulativeTrophies] it updates passed along. *)
Fixpoint trophyRows (cumulativeTrophies : Z) (i : nat) (l : list Battle)
  : Completion (list TrophyRow) :=
  match l with
  | [] => Normal []
  | b :: l' =>
      match hd_error (team b) with
      | None => Throw TypeError
      | Some p =>
          let change := orZero (trophyChange p) in
          let cumulativeTrophies' := cumulativeTrophies + change in
          rest <- trophyRows cumulativeTrophies' (S i) l' ;;
          Normal ({| index := Z.of_nat i + 1;
                     change := change;
                     cumulative := cumulativeTrophies';
                     mode := modeLabel b;
                     result := if 0 <? change then "Win"
                               else if change <? 0 then "Loss" else "Draw" |}
                    :: rest)
      end
  end.

(** [trophyData] (lines 61-74) *)
Definition trophyData (filtered : list Battle) : Completion (list TrophyRow) :=
  tilt <- filterM isTiltBattle filtered ;;
  trophyRows 0 0 (rev tilt).

Record WinLoss : Type := {
  wins : Z;
  losses : Z;
  total : Z;
  crownsWon : Z;
  crownsLost : Z
}.

(** The callback of [filteredBattles.reduce] (lines 78-90) *)
Definition tally (acc : WinLoss) (b : Battle) : Completion WinLoss :=
  match hd_error (team b) with
  | None => Throw TypeError (* [b.team[0].crowns] on [undefined] *)
  | Some p =>
      match hd_error (opponent b) with
      | None => Throw TypeError (* [b.opponent[0].crowns] on [undefined] *)
      | Some q =>
          let crownsWon0 := crowns p in
          let crownsLost0 := crowns q in
          let won := crownsLost0 <? crownsWon0 in
          Normal {| wins := if won then wins acc + 1 else wins acc;
                    losses := if won then losses acc
                              else if crownsWon0 <? crownsLost0
                                   then losses acc + 1 else losses acc;
                    total := total acc + 1;
                    crownsWon := crownsWon acc + crownsWon0;
                    crownsLost := crownsLost acc + crownsLost0 |}
      end
  end.

Definition stats (filtered : list Battle) : Completion WinLoss :=
  forEachM tally filtered
           {| wins := 0; losses := 0; total := 0; crownsWon := 0; crownsLost := 0 |}.

(** What the component computes before it renders (lines 52-90). *)
Definition analytics (battles : list Battle)
  : Completion (option (list TrophyRow * WinLoss)) :=
  if (List.length battles =? 0)%nat then Normal None
  else
    let filtered := filteredBattles battles in
    rows <- trophyData filtered ;;
    st <- stats filtered ;;
    Normal (Some (rows, st)).

End BattleLog.

(** *** Vocabulary for the battle log *)

(** The crowns of the first player of each side, 0 for a missing side. *)
Definition firstCrowns (side : list BattleLog.Player) : Z :=
  match side with
  | p :: _ => BattleLog.crowns p
  | [] => 0
  end.

Definition logWon (b : BattleLog.Battle) : bool :=
  firstCrowns (BattleLog.opponent b) <? firstCrowns (BattleLog.team b).

Definition logLost (b : BattleLog.Battle) : bool :=
  firstCrowns (BattleLog.team b) <? firstCrowns (BattleLog.opponent b).

(** A side of the battle is missing. *)
Definition lacksSide (b : BattleLog.Battle) : bool :=
  match BattleLog.team b, BattleLog.opponent b with
  | _ :: _, _ :: _ => false
  | _, _ => true
  end.

(** The battle is a ladder battle whose first player reports a trophy
    change. *)
Definition tiltBattle (b : BattleLog.Battle) : bool :=
  String.eqb (BattleLog.type b) "PvP" && BattleLog.modeIs "Ladder" b
  && match BattleLog.team b with
     | p :: _ => match BattleLog.trophyChange p with Some _ => true | None => false end
     | [] => false
     end.

(** The trophy change of the first player, 0 when there is none. *)
Definition changeOf (b : BattleLog.Battle) : Z :=
  match BattleLog.team b with
  | p :: _ => orZero (BattleLog.trophyChange p)
  | [] => 0
  end.

(** What the win/loss record [st] is, for the battles [fb] it ran over. *)
Definition WinLossSpec (fb : list BattleLog.Battle) (st : BattleLog.WinLoss)
  : Prop :=
  BattleLog.total st = Z.of_nat (List.length fb)
  /\ BattleLog.wins st = countIf logWon fb
  /\ BattleLog.losses st = countIf logLost fb
  /\ BattleLog.wins st + BattleLog.losses st <= BattleLog.total st
  /\ BattleLog.crownsWon st = sumOf (fun b => firstCrowns (BattleLog.team b)) fb
  /\ BattleLog.crownsLost st
     = sumOf (fun b => firstCrowns (BattleLog.opponent b)) fb.

(** What the rows of the tilt tracker are, for the battles [fb]: one row
    per ladder battle with a trophy change, oldest first (the log is most
    recent first), numbered from 1, each carrying its change, the sum of
    the changes up to it, and the sign of its change as a result. *)
Definition TiltSpec (fb : list BattleLog.Battle) (rows : list BattleLog.TrophyRow)
  : Prop :=
  map BattleLog.change rows = map changeOf (rev (filter tiltBattle fb))
  /\ (forall i row, nth_error rows i = Some row ->
         BattleLog.index row = Z.of_nat i + 1
         /\ BattleLog.cumulative row
            = sumOf (fun k => k) (firstn (S i) (map BattleLog.change rows))
         /\ BattleLog.mode row = "Ladder"
         /\ BattleLog.result row
            = (if 0 <? BattleLog.change row then "Win"
               else if BattleLog.change row <? 0 then "Loss" else "Draw")).

Module LogSamples.

Definition player (c : Z) (dt : option Z) : BattleLog.Player :=
  {| BattleLog.tag := "#P0"; BattleLog.name := "p"; BattleLog.crowns := c;
     BattleLog.trophyChange := dt; BattleLog.cards := [] |}.

Definition game (ty md : string) (c1 c2 : Z) (dt : option Z) : BattleLog.Battle :=
  {| BattleLog.type := ty; BattleLog.battleTime := "20250101T000000.000Z";
     BattleLog.team := [player c1 dt];
     BattleLog.opponent := [player c2 None];
     BattleLog.gameMode := Some md |}.

(** Most recent first: a ladder loss, a boat battle, a ladder win, a
    friendly draw. *)
Definition log : list BattleLog.Battle :=
  [ game "PvP" "Ladder" 0 1 (Some (-28));
    game "boatBattle" "ClanWar_BoatBattle" 1 0 None;
    game "PvP" "Ladder" 3 1 (Some 30);
    game "friendly" "Friendly" 1 1 None ].

(** A battle without an opponent. *)
Definition broken : BattleLog.Battle :=
  {| BattleLog.type := "PvP"; BattleLog.battleTime := "";
     BattleLog.team := [player 1 None]; BattleLog.opponent := [];
     BattleLog.gameMode := None |}.

End LogSamples.

(** ** components/meta/ArchetypeMatchupHeatmap.tsx, the two-view version

    [processData] (lines 60-87) chooses the rows of the current view, orders
    the archetypes by popularity and keeps the rows between archetypes it
    shows.  [total] is a number of games, an integer. *)

Module Heatmap.

Inductive ViewMode : Type :=
| specific
| generic.

Record MatchupData : Type := {
  archetype : string;
  opponent : string;
  win_rate : Q;
  total : Z;
  z_score : Q;
  significant : bool
}.

(** [s.add(x)] on a Set kept in insertion order *)
Definition Set_add (s : list string) (x : string) : list string :=
  if Royale.Array_includes s x then s else s ++ [x].

(** [Array.from(new Set(xs))] *)
Definition uniqueValues (xs : list string) : list string :=
  fold_left Set_add xs [].

(** The body of [sourceData.forEach] (lines 69-72):
    [if (!popularity[d.archetype]) popularity[d.archetype] = 0;
     popularity[d.archetype] += d.total;] *)
Definition addPopularity (popularity : Obj Z) (d : MatchupData) : Obj Z :=
  let popularity :=
    match get (archetype d) popularity with
    | Some v => if v =? 0 then set (archetype d) 0 popularity else popularity
    | None => set (archetype d) 0 popularity
    end in
  update (archetype d) (fun v => v + total d) popularity.

(** [popularity[a] || 0] *)
Definition popularityOf (popularity : Obj Z) (a : string) : Z :=
  orZero (get a popularity).

(** The comparator [(a, b) => (popularity[b] || 0) - (popularity[a] || 0)]
    returns a number [<= 0]. *)
Definition morePopular (popularity : Obj Z) (a b : string) : bool :=
  popularityOf popularity b - popularityOf popularity a <=? 0.

Record Processed : Type := {
  domain : list string;
  data : list MatchupData
}.

Definition processData (viewMode : ViewMode)
           (specificData genericData : list MatchupData) : Processed :=
  let sourceData :=
    match viewMode with specific => specificData | generic => genericData end in
  let archetypes := uniqueValues (map archetype sourceData) in
  let popularity := forEach addPopularity sourceData [] in
  let sortedArchetypes := Array_sort (morePopular popularity) archetypes in
  let sortedArchetypes :=
    match viewMode with
    | specific => slice0 15 sortedArchetypes
    | generic => sortedArchetypes
    end in
  let filteredData :=
    filter (fun d => Royale.Array_includes sortedArchetypes (archetype d)
                     && Royale.Array_includes sortedArchetypes (opponent d))
           sourceData in
  {| domain := sortedArchetypes; data := filteredData |}.

End Heatmap.

(** *** Vocabulary for the heatmap *)

(** The games of an archetype: the sum of [total] over its rows. *)
Definition gamesOf (source : list Heatmap.MatchupData) (a : string) : Z :=
  sumOf Heatmap.total
        (filter (fun d => String.eqb (Heatmap.archetype d) a) source).

(** The axis lists archetypes of the source, each once, the more played
    first. *)
Definition DomainSpec (source : list Heatmap.MatchupData) (domain : list string)
  : Prop :=
  NoDup domain
  /\ (forall a, In a domain -> In a (map Heatmap.archetype source))
  /\ StronglySorted (fun a b => gamesOf source b <= gamesOf source a) domain.

(** The axis has at most [n] archetypes; when one is left out it has
    exactly [n], and none of them has fewer games than the one left out. *)
Definition TopOf (n : nat) (source : list Heatmap.MatchupData)
           (domain : list string) : Prop :=
  (List.length domain <= n)%nat
  /\ (forall a, In a (map Heatmap.archetype source) -> ~ In a domain ->
        List.length domain = n
        /\ forall b, In b domain -> gamesOf source a <= gamesOf source b).

(** The rows kept are the rows of the source between two archetypes of
    the axis. *)
Definition RowsSpec (source : list Heatmap.MatchupData) (domain : list string)
           (data : list Heatmap.MatchupData) : Prop :=
  forall d, In d data
            <-> In d source /\ In (Heatmap.archetype d) domain
                /\ In (Heatmap.opponent d) domain.

(** * Properties *)

(** ** Facts about the prelude *)

Section SortFacts.
Context {A : Type} (nonpos : A -> A -> bool).

Let le (a b : A) : Prop := nonpos a b = true.

Lemma insert_perm (x : A) (l : list A) :
  Permutation (insert nonpos x l) (x :: l).
Proof.
  induction l as [|y l IH]; simpl; [reflexivity|].
  destruct (nonpos x y); [reflexivity|].
  rewrite IH. apply perm_swap.
Qed.

Lemma Array_sort_perm (l : list A) : Permutation (Array_sort nonpos l) l.
Proof.
  induction l as [|x l IH]; simpl; [constructor|].
  rewrite insert_perm. now constructor.
Qed.

Lemma Array_sort_In (l : list A) (x : A) :
  In x (Array_sort nonpos l) <-> In x l.
Proof.
  split; apply Permutation_in;
    [apply Array_sort_perm | symmetry; apply Array_sort_perm].
Qed.

Lemma Array_sort_length (l : list A) :
  List.length (Array_sort nonpos l) = List.length l.
Proof. apply Permutation_length, Array_sort_perm. Qed.

Hypothesis nonpos_total : forall a b, nonpos a b = false -> nonpos b a = true.
Hypothesis nonpos_trans :
  forall a b c, nonpos a b = true -> nonpos b c = true -> nonpos a c = true.

Lemma insert_sorted (x : A) (l : list A) :
  StronglySorted le l -> StronglySorted le (insert nonpos x l).
Proof.
  induction 1 as [|y l Hl IH Hy]; simpl.
  - repeat constructor.
  - destruct (nonpos x y) eqn:E.
    + constructor; [now constructor|].
      constructor; [exact E|].
      rewrite Forall_forall in *. intros z Hz.
      apply nonpos_trans with y; [exact E | now apply Hy].
    + constructor; [exact IH|].
      rewrite Forall_forall in *. intros z Hz.
      apply (Permutation_in _ (insert_perm x l)) in Hz.
      destruct Hz as [<-|Hz]; [now apply nonpos_total | now apply Hy].
Qed.

Lemma Array_sort_sorted (l : list A) : StronglySorted le (Array_sort nonpos l).
Proof.
  induction l as [|x l IH]; simpl; [constructor | now apply insert_sorted].
Qed.

End SortFacts.

Lemma Array_sort_map {A B : Type} (f : A -> B) (r : B -> B -> bool) (l : list A) :
  map f (Array_sort (fun a b => r (f a) (f b)) l) = Array_sort r (map f l).
Proof.
  induction l as [|x l IH]; simpl; [reflexivity|].
  rewrite <- IH. generalize (Array_sort (fun a b => r (f a) (f b)) l).
  intros s. induction s as [|y s IHs]; simpl; [reflexivity|].
  destruct (r (f x) (f y)); simpl; [reflexivity | now rewrite IHs].
Qed.

Section ObjFacts.
Context {V : Type}.

Lemma filter_partition_perm (p : string * V -> bool) (o : list (string * V)) :
  Permutation (filter p o ++ filter (fun e => negb (p e)) o) o.
Proof.
  induction o as [|e o IH]; simpl; [constructor|].
  destruct (p e); simpl.
  - now constructor.
  - rewrite <- Permutation_middle. now constructor.
Qed.

Lemma Object_entries_perm (o : Obj V) : Permutation (Object_entries o) o.
Proof.
  unfold Object_entries.
  rewrite Array_sort_perm. apply filter_partition_perm.
Qed.

Lemma Object_values_perm (o : Obj V) :
  Permutation (Object_values o) (map snd o).
Proof. apply Permutation_map, Object_entries_perm. Qed.

Lemma Object_values_In (o : Obj V) (v : V) :
  In v (Object_values o) <-> In v (map snd o).
Proof.
  split; apply Permutation_in;
    [apply Object_values_perm | symmetry; apply Object_values_perm].
Qed.

Lemma Object_values_sub (o : Obj V) (v : V) :
  In v (Object_values o) -> In v (map snd o).
Proof. apply Object_values_In. Qed.

Lemma Object_values_nil (o : Obj V) : Object_values o = [] -> o = [].
Proof.
  intros H. destruct o as [|e o]; [reflexivity|].
  pose proof (Object_values_perm (e :: o)) as P. rewrite H in P.
  apply Permutation_nil in P. discriminate.
Qed.

End ObjFacts.

(** ** The archetype classifier *)

Lemma Array_includes_spec (names : list string) (wc : string) :
  Royale.Array_includes names wc = true <-> In wc names.
Proof.
  unfold Royale.Array_includes. rewrite existsb_exists. split.
  - intros (x & Hx & E). apply String.eqb_eq in E. now subst.
  - intros H. exists wc. split; [exact H | apply String.eqb_refl].
Qed.

Lemma triggered_spec (names conds : list string) :
  Royale.triggered names conds = true <-> intersects conds names.
Proof.
  unfold Royale.triggered, intersects. rewrite existsb_exists.
  split; intros (wc & H1 & H2); exists wc; split; trivial;
    now apply Array_includes_spec.
Qed.

Lemma triggered_false (names conds : list string) :
  Royale.triggered names conds = false <-> ~ intersects conds names.
Proof.
  rewrite <- triggered_spec.
  destruct (Royale.triggered names conds); split; intros H;
    try reflexivity; try discriminate.
  now elim H.
Qed.

Lemma classify_none (entries : list (string * list string)) (names : list string) :
  (forall e, In e entries -> ~ intersects (snd e) names) ->
  Royale.classify entries names = "Unknown".
Proof.
  induction entries as [|[a c] rest IH]; simpl; intros H; [reflexivity|].
  assert (E : Royale.triggered names c = false).
  { apply triggered_false. apply (H (a, c)). now left. }
  rewrite E. apply IH. intros e He. apply H. now right.
Qed.

Lemma classify_first (pre post : list (string * list string))
      (label : string) (conds names : list string) :
  (forall e, In e pre -> ~ intersects (snd e) names) ->
  intersects conds names ->
  Royale.classify (pre ++ (label, conds) :: post) names = label.
Proof.
  induction pre as [|[a c] pre IH]; simpl; intros Hpre Hc.
  - apply triggered_spec in Hc. now rewrite Hc.
  - assert (E : Royale.triggered names c = false).
    { apply triggered_false. apply (Hpre (a, c)). now left. }
    rewrite E. apply IH; [|exact Hc]. intros e He. apply Hpre. now right.
Qed.

Lemma WIN_CONDITIONS_entries :
  Object_entries Royale.WIN_CONDITIONS = Royale.WIN_CONDITIONS.
Proof. reflexivity. Qed.

Lemma nth_error_app_cons {A : Type} (l : list A) (n : nat) (a : A) :
  nth_error l n = Some a ->
  exists pre post, l = pre ++ a :: post /\ List.length pre = n.
Proof.
  revert n. induction l as [|x l IH]; intros [|n] H; simpl in H; try discriminate.
  - injection H as ->. now exists [], l.
  - destruct (IH n H) as (pre & post & -> & Hlen).
    exists (x :: pre), post. simpl. now rewrite Hlen.
Qed.

(** C3: [getArchetype] returns "Unknown" when no entry of the table shares
    a name with the cards, returns the label of the first entry (in table
    order) that does, and a deck holding triggers of exactly two entries
    is given the label of the earlier one. *)
Theorem getArchetype_first_match (cs : list Card) :
  let names := map name cs in
  ((forall e, In e Royale.WIN_CONDITIONS -> ~ intersects (snd e) names) ->
   Royale.getArchetype cs = "Unknown")
  /\ (forall pre label conds post,
        Royale.WIN_CONDITIONS = pre ++ (label, conds) :: post ->
        (forall e, In e pre -> ~ intersects (snd e) names) ->
        intersects conds names ->
        Royale.getArchetype cs = label)
  /\ (forall i j li ci lj cj,
        nth_error Royale.WIN_CONDITIONS i = Some (li, ci) ->
        nth_error Royale.WIN_CONDITIONS j = Some (lj, cj) ->
        (i < j)%nat ->
        intersects ci names ->
        intersects cj names ->
        (forall k e, k <> i -> k <> j ->
                     nth_error Royale.WIN_CONDITIONS k = Some e ->
                     ~ intersects (snd e) names) ->
        Royale.getArchetype cs = li).
Proof.
  intros names. unfold Royale.getArchetype. fold names.
  rewrite WIN_CONDITIONS_entries.
  split; [apply classify_none|]. split.
  - intros pre label conds post -> Hpre Hc. now apply classify_first.
  - intros i j li ci lj cj Hi Hj Hij Hci Hcj Hother.
    destruct (nth_error_app_cons _ _ Hi) as (pre & post & E & Hlen).
    rewrite E. apply classify_first; [|exact Hci].
    intros e He. apply In_nth_error in He. destruct He as (k & Hk).
    assert (Hlt : (k < List.length pre)%nat).
    { apply nth_error_Some. now rewrite Hk. }
    apply (Hother k e); try lia.
    rewrite E. rewrite nth_error_app1; assumption.
Qed.

Lemma getArchetype_first_match_witness :
  Royale.getArchetype Sample.balloonMiner = "Control".
Proof.
  apply (proj2 (proj2 (getArchetype_first_match Sample.balloonMiner))
           2%nat 5%nat "Control"
           ["Miner"; "Graveyard"; "Goblin Barrel"; "Wall Breakers";
            "Skeleton Barrel"]
           "Air" ["Balloon"]).
  - reflexivity.
  - reflexivity.
  - lia.
  - exists "Miner". split; simpl; auto.
  - exists "Balloon". split; simpl; auto.
  - intros k e Hk2 Hk5 Hk.
    apply triggered_false.
    do 7 (destruct k as [|k]; [try congruence; injection Hk as <-; reflexivity|]).
    destruct k; discriminate.
Defined.

(** ** Deck canonicalisation *)

Section MapFacts.
Context {V : Type}.

Lemma Map_set_keys (k : string) (v : V) (m : JsMap V) (k' : string) :
  In k' (map fst (Map_set k v m)) <-> k' = k \/ In k' (map fst m).
Proof.
  induction m as [|[k0 v0] m IH]; simpl.
  - intuition.
  - destruct (String.eqb_spec k0 k) as [->|N]; simpl; [intuition|].
    rewrite IH. intuition.
Qed.

Lemma Map_set_NoDup (k : string) (v : V) (m : JsMap V) :
  NoDup (map fst m) -> NoDup (map fst (Map_set k v m)).
Proof.
  induction m as [|[k0 v0] m IH]; simpl; intros H.
  - repeat constructor. simpl. tauto.
  - destruct (String.eqb_spec k0 k) as [->|N]; simpl; [exact H|].
    inversion H as [|? ? Hnin Hnd]; subst. constructor; [|now apply IH].
    rewrite Map_set_keys. intros [E|E]; [now elim N | now elim Hnin].
Qed.

End MapFacts.

Lemma Map_set_named (c : Card) (m : JsMap Card) :
  Forall (fun e => name (snd e) = fst e) m ->
  Forall (fun e => name (snd e) = fst e) (Map_set (name c) c m).
Proof.
  induction 1 as [|[k0 v0] m H0 Hm IH]; simpl.
  - repeat constructor.
  - destruct (String.eqb_spec k0 (name c)) as [E|N]; constructor; simpl; auto.
Qed.

Lemma uniqueCardsMap_spec (cs : list Card) :
  let m := Usage.uniqueCardsMap cs in
  NoDup (map fst m)
  /\ Forall (fun e => name (snd e) = fst e) m
  /\ (forall n, In n (map fst m) <-> In n (map name cs)).
Proof.
  unfold Usage.uniqueCardsMap, forEach.
  assert (G : forall (acc : JsMap Card),
             NoDup (map fst acc) ->
             Forall (fun e => name (snd e) = fst e) acc ->
             let m := fold_left (fun m c => Map_set (name c) c m) cs acc in
             NoDup (map fst m)
             /\ Forall (fun e => name (snd e) = fst e) m
             /\ (forall n, In n (map fst m) <->
                           In n (map fst acc) \/ In n (map name cs))).
  { induction cs as [|c cs IH]; simpl; intros acc Hnd Hf.
    - repeat split; trivial; tauto.
    - destruct (IH (Map_set (name c) c acc)) as (H1 & H2 & H3).
      + now apply Map_set_NoDup.
      + now apply Map_set_named.
      + repeat split; trivial.
        * intros Hn. apply H3 in Hn. rewrite Map_set_keys in Hn.
          destruct Hn as [[->|Hn]|Hn]; auto.
        * intros Hn. apply H3. rewrite Map_set_keys. intuition. }
  destruct (G [] (NoDup_nil _) (Forall_nil _)) as (H1 & H2 & H3).
  repeat split; trivial.
  - intros Hn. apply H3 in Hn. now destruct Hn.
  - intros Hn. apply H3. now right.
Qed.

Lemma uniqueCardsMap_names (cs : list Card) :
  map name (Map_values (Usage.uniqueCardsMap cs))
  = map fst (Usage.uniqueCardsMap cs).
Proof.
  destruct (uniqueCardsMap_spec cs) as (_ & H & _).
  unfold Map_values. rewrite map_map.
  induction H as [|e m He Hm IH]; simpl; [reflexivity|].
  now rewrite He, IH.
Qed.

Lemma firstn_all_le {A : Type} (n : nat) (l : list A) :
  (List.length l <= n)%nat -> firstn n l = l.
Proof.
  revert n. induction l as [|x l IH]; intros [|n] H; simpl in *;
    try reflexivity; try lia.
  f_equal. apply IH. lia.
Qed.

Lemma StronglySorted_weaken {A : Type} (R R' : A -> A -> Prop) (l : list A) :
  (forall a b, R a b -> R' a b) -> StronglySorted R l -> StronglySorted R' l.
Proof.
  intros HR. induction 1 as [|x l Hl IH Hx]; constructor; trivial.
  eapply Forall_impl; [|exact Hx]. intros b. apply HR.
Qed.

Lemma firstn_incl {A : Type} (n : nat) (l : list A) (x : A) :
  In x (firstn n l) -> In x l.
Proof.
  intros H. rewrite <- (firstn_skipn n l). apply in_or_app. now left.
Qed.

Lemma sorted_prefix_below {A : Type} (R : A -> A -> Prop) (n : nat)
      (l : list A) (x y : A) :
  StronglySorted R l -> In x (firstn n l) -> In y (skipn n l) -> R x y.
Proof.
  revert n. induction l as [|a l IH]; intros [|n] S Hx Hy; simpl in *;
    try contradiction.
  inversion S as [|? ? Sl Ha]; subst. rewrite Forall_forall in Ha.
  destruct Hx as [<-|Hx].
  - apply Ha. rewrite <- (firstn_skipn n l). apply in_or_app. now right.
  - now apply (IH n).
Qed.

Section Canonical.

Variable localeCompare : string -> string -> Z.

Local Abbreviation nameLe := (nameLe localeCompare).

(** The collation is a consistent comparator.  Nothing more is assumed of
    it: two different names may compare as equal. *)
Hypothesis localeCompare_total : forall a b, nameLe a b \/ nameLe b a.
Hypothesis localeCompare_trans :
  forall a b c, nameLe a b -> nameLe b c -> nameLe a c.

Let nameLeb (a b : string) : bool := localeCompare a b <=? 0.

Lemma nameLeb_le (a b : string) : nameLeb a b = true <-> nameLe a b.
Proof. apply Z.leb_le. Qed.

Lemma nameLe_refl (a : string) : nameLe a a.
Proof. destruct (localeCompare_total a a); assumption. Qed.

(** Where the collation has no tie, an ascending list without repeats is
    determined by its members. *)
Lemma sorted_names_unique (l1 l2 : list string) :
  (forall a b, In a l1 -> In b l1 -> nameLe a b -> nameLe b a -> a = b) ->
  StronglySorted nameLe l1 -> NoDup l1 ->
  StronglySorted nameLe l2 -> NoDup l2 ->
  (forall n, In n l1 <-> In n l2) ->
  l1 = l2.
Proof.
  intros A S1. revert A l2.
  induction S1 as [|x l1 S1 IH Hx]; intros A l2 N1 S2 N2 Hin.
  - destruct l2 as [|y l2]; [reflexivity|].
    exfalso. apply (Hin y). now left.
  - destruct S2 as [|y l2 S2 Hy].
    + exfalso. apply (Hin x). now left.
    + rewrite Forall_forall in Hx, Hy.
      assert (E : x = y).
      { apply A.
        - now left.
        - apply Hin. now left.
        - destruct (proj2 (Hin y) (or_introl eq_refl)) as [->|H].
          + apply nameLe_refl.
          + now apply Hx.
        - destruct (proj1 (Hin x) (or_introl eq_refl)) as [->|H].
          + apply nameLe_refl.
          + now apply Hy. }
      subst y. f_equal.
      inversion N1 as [|? ? Hn1 Hd1]; inversion N2 as [|? ? Hn2 Hd2]; subst.
      apply IH; trivial.
      * intros a b Ha Hb. apply A; now right.
      * intros n. split; intros H.
        -- destruct (proj1 (Hin n) (or_intror H)) as [->|H'];
             [now elim Hn1 | exact H'].
        -- destruct (proj2 (Hin n) (or_intror H)) as [->|H'];
             [now elim Hn2 | exact H'].
Qed.

Lemma nameLeb_total (a b : string) : nameLeb a b = false -> nameLeb b a = true.
Proof.
  unfold nameLeb. intros H. apply Z.leb_gt in H. apply Z.leb_le.
  destruct (localeCompare_total a b) as [T|T]; unfold nameLe in T; lia.
Qed.

Lemma nameLeb_trans (a b c : string) :
  nameLeb a b = true -> nameLeb b c = true -> nameLeb a c = true.
Proof.
  rewrite !nameLeb_le. apply localeCompare_trans.
Qed.

(** The distinct names of a card array, sorted ascending. *)
Lemma sorted_distinct_names (cs : list Card) :
  let s := Array_sort nameLeb (map fst (Usage.uniqueCardsMap cs)) in
  StronglySorted nameLe s /\ NoDup s
  /\ (forall n, In n s <-> In n (map name cs)).
Proof.
  destruct (uniqueCardsMap_spec cs) as (Knd & _ & Kin).
  repeat split.
  - eapply StronglySorted_weaken;
      [|apply (Array_sort_sorted nameLeb nameLeb_total nameLeb_trans)].
    intros a b H. now apply nameLeb_le.
  - eapply Permutation_NoDup; [|exact Knd].
    symmetry. apply Array_sort_perm.
  - intros H. apply Kin. now apply Array_sort_In in H.
  - intros H. apply Array_sort_In. now apply Kin.
Qed.

(** The names of the canonical deck are the first 8 names of the sorted
    array. *)
Lemma deckNames_sorted (cs : list Card) :
  Usage.deckNames localeCompare cs
  = firstn 8 (Array_sort nameLeb (map fst (Usage.uniqueCardsMap cs))).
Proof.
  set (sorted := Array_sort (fun a b => localeCompare (name a) (name b) <=? 0)
                            (Map_values (Usage.uniqueCardsMap cs))).
  assert (E : map name sorted
              = Array_sort nameLeb (map fst (Usage.uniqueCardsMap cs))).
  { unfold sorted.
    rewrite (Array_sort_map name (fun a b => localeCompare a b <=? 0)).
    now rewrite uniqueCardsMap_names. }
  unfold Usage.deckNames, Usage.sortedCards. fold sorted.
  destruct (8 <? List.length sorted)%nat eqn:L.
  - unfold slice0. now rewrite <- firstn_map, E.
  - apply Nat.ltb_ge in L. rewrite E.
    symmetry. apply firstn_all_le. rewrite <- E. now rewrite length_map.
Qed.


Lemma deckKey_of_names (cs : list Card) :
  Usage.deckKey localeCompare cs
  = if (List.length (Usage.deckNames localeCompare cs) =? 0)%nat then None
    else Some (join "," (Usage.deckNames localeCompare cs)).
Proof.
  unfold Usage.deckKey, Usage.deckNames. now rewrite length_map.
Qed.

(** C1: when a self side reports more than 8 distinct card names, the
    names of its deck are exactly the first 8 of the distinct names in
    ascending order, and the DeckKey is their join: the list [s] of the
    distinct names is ascending and without repeats, the 8 names kept are
    its first 8, and no name left out sorts strictly before a name kept.
    This holds for any collation, ties included; where the collation has
    no tie among the names, [s] is the only ascending list of them. *)
Theorem deckKey_truncates_to_first_8 (cs : list Card) (l : list string) :
  NoDup l -> incl l (map name cs) -> (8 < List.length l)%nat ->
  exists s,
    AscendingNames localeCompare cs s
    /\ Usage.deckNames localeCompare cs = firstn 8 s
    /\ List.length (Usage.deckNames localeCompare cs) = 8%nat
    /\ Usage.deckKey localeCompare cs = Some (join "," (firstn 8 s))
    /\ (forall kept out,
          In kept (firstn 8 s) -> In out (map name cs) ->
          ~ In out (firstn 8 s) -> nameLe kept out)
    /\ (separatesNames localeCompare cs ->
        forall s', AscendingNames localeCompare cs s' -> s' = s).
Proof.
  intros Nl Il Hlen.
  destruct (sorted_distinct_names cs) as (Ks & Knd & Kin).
  set (s := Array_sort nameLeb (map fst (Usage.uniqueCardsMap cs))) in *.
  assert (Ls : (8 < List.length s)%nat).
  { apply Nat.lt_le_trans with (List.length l); [exact Hlen|].
    apply NoDup_incl_length; [exact Nl|].
    intros n Hn. apply Kin, Il, Hn. }
  assert (L8 : List.length (firstn 8 s) = 8%nat).
  { rewrite length_firstn. lia. }
  exists s. split; [exact (conj Ks (conj Knd Kin))|].
  split; [apply deckNames_sorted|].
  split; [rewrite deckNames_sorted; exact L8|].
  split; [rewrite deckKey_of_names, deckNames_sorted; fold s; now rewrite L8|].
  split.
  - intros kept out Hk Ho Hno.
    apply Kin in Ho. rewrite <- (firstn_skipn 8 s) in Ho.
    apply in_app_or in Ho. destruct Ho as [Ho|Ho]; [now elim Hno|].
    exact (@sorted_prefix_below _ _ 8 s kept out Ks Hk Ho).
  - intros Sep s' (Hs' & Hnd' & Hin'). symmetry.
    apply sorted_names_unique; trivial.
    + intros a b Ha Hb. apply Sep; now apply Kin.
    + intros n. rewrite Hin'. apply Kin.
Qed.


End Canonical.

(** The code-unit order is a total order. *)

Lemma ascii_compare_N (a b : ascii) :
  Ascii.compare a b = (N_of_ascii a ?= N_of_ascii b)%N.
Proof. reflexivity. Qed.

Lemma string_compare_refl (a : string) : String.compare a a = Eq.
Proof.
  induction a as [|c a IH]; simpl; [reflexivity|].
  rewrite ascii_compare_N, N.compare_refl. exact IH.
Qed.

Lemma string_compare_lt_trans (a b c : string) :
  String.compare a b = Lt -> String.compare b c = Lt -> String.compare a c = Lt.
Proof.
  revert b c. induction a as [|x a IH]; intros [|y b] [|z c]; simpl;
    try discriminate; try reflexivity.
  rewrite !ascii_compare_N.
  destruct (N.compare_spec (N_of_ascii x) (N_of_ascii y)) as [E1|E1|E1];
    destruct (N.compare_spec (N_of_ascii y) (N_of_ascii z)) as [E2|E2|E2];
    try discriminate; intros H1 H2.
  - rewrite E1, E2, N.compare_refl. now apply IH with b.
  - rewrite E1. now apply N.compare_lt_iff in E2 as ->.
  - rewrite <- E2. now apply N.compare_lt_iff in E1 as ->.
  - assert (E : (N_of_ascii x < N_of_ascii z)%N) by lia.
    now apply N.compare_lt_iff in E as ->.
Qed.

Lemma codeUnitCompare_le (a b : string) :
  nameLe codeUnitCompare a b <-> String.compare a b <> Gt.
Proof.
  unfold nameLe, codeUnitCompare.
  destruct (String.compare a b); split; intros H; try lia; try discriminate.
  now elim H.
Qed.

Lemma codeUnitCompare_total (a b : string) :
  nameLe codeUnitCompare a b \/ nameLe codeUnitCompare b a.
Proof.
  rewrite !codeUnitCompare_le, (String.compare_antisym a b).
  destruct (String.compare b a); simpl; [left|right|left]; discriminate.
Qed.

Lemma codeUnitCompare_antisym (a b : string) :
  nameLe codeUnitCompare a b -> nameLe codeUnitCompare b a -> a = b.
Proof.
  rewrite !codeUnitCompare_le, (String.compare_antisym b a).
  destruct (String.compare a b) eqn:E; simpl; intros H1 H2.
  - now apply String.compare_eq_iff.
  - now elim H2.
  - now elim H1.
Qed.

Lemma codeUnitCompare_trans (a b c : string) :
  nameLe codeUnitCompare a b -> nameLe codeUnitCompare b c ->
  nameLe codeUnitCompare a c.
Proof.
  rewrite !codeUnitCompare_le.
  destruct (String.compare a b) eqn:E1; intros H1; [| |now elim H1].
  - apply String.compare_eq_iff in E1. now subst.
  - destruct (String.compare b c) eqn:E2; intros H2; [| |now elim H2].
    + apply String.compare_eq_iff in E2. subst. now rewrite E1.
    + now rewrite (string_compare_lt_trans _ _ _ E1 E2).
Qed.

Lemma megaDeckSorted_props :
  StronglySorted (nameLe codeUnitCompare) Sample.megaDeckSorted
  /\ NoDup Sample.megaDeckSorted
  /\ (forall n, In n Sample.megaDeckSorted <-> In n (map name Sample.megaDeck)).
Proof.
  split; [|split].
  - repeat constructor; unfold nameLe; vm_compute; discriminate.
  - repeat constructor; simpl; intuition discriminate.
  - intros n. simpl. intuition.
Qed.

Lemma deckKey_truncates_to_first_8_witness :
  Usage.deckKey codeUnitCompare Sample.megaDeck
  = Some "Archers,Balloon,Barbarians,Giant,Goblins,Golem,Knight,Minions".
Proof.
  destruct megaDeckSorted_props as (H1 & H2 & H3).
  destruct (@deckKey_truncates_to_first_8 codeUnitCompare
              codeUnitCompare_total codeUnitCompare_trans
              Sample.megaDeck Sample.megaDeckSorted)
    as (s & _ & _ & _ & K & _ & U).
  - exact H2.
  - intros n Hn. now apply H3.
  - simpl. lia.
  - rewrite K.
    rewrite <- (U (fun a b _ _ => @codeUnitCompare_antisym a b)
                  Sample.megaDeckSorted (conj H1 (conj H2 H3))).
    reflexivity.
Defined.





(** ** Updating a dictionary entry *)

Section UpsertFacts.
Context {V : Type}.

Lemma ensure_cons_other (k k' : string) (v init : V) (o : Obj V) :
  String.eqb k' k = false ->
  ensure k init ((k', v) :: o) = (k', v) :: ensure k init o.
Proof.
  intros E. unfold ensure. simpl. rewrite E. now destruct (get k o).
Qed.

Lemma update_ensure (k : string) (init : V) (f : V -> V) (o : Obj V) :
  update k f (ensure k init o) = upsert k init f o.
Proof.
  induction o as [|[k' v] o IH].
  - unfold ensure. simpl. now rewrite String.eqb_refl.
  - destruct (String.eqb k' k) eqn:E.
    + unfold ensure. simpl. rewrite E. simpl. now rewrite E.
    + rewrite ensure_cons_other by exact E. simpl. now rewrite E, IH.
Qed.

Lemma update_upsert (k : string) (init : V) (f g : V -> V) (o : Obj V) :
  update k g (upsert k init f o) = upsert k init (fun v => g (f v)) o.
Proof.
  induction o as [|[k' v] o IH]; simpl.
  - now rewrite String.eqb_refl.
  - destruct (String.eqb k' k) eqn:E; simpl; rewrite E; [reflexivity|].
    now rewrite IH.
Qed.

Lemma upsert_Forall (P : V -> Prop) (k : string) (init : V) (f : V -> V)
      (o : Obj V) :
  (forall v, P v -> P (f v)) -> P (f init) ->
  Forall P (map snd o) -> Forall P (map snd (upsert k init f o)).
Proof.
  intros Hf Hi. induction o as [|[k' v] o IH]; simpl; intros H.
  - now repeat constructor.
  - inversion H as [|? ? Hv Ho]; subst.
    destruct (String.eqb k' k); simpl; constructor; auto.
Qed.

Lemma upsert_not_nil (k : string) (init : V) (f : V -> V) (o : Obj V) :
  upsert k init f o <> [].
Proof. destruct o as [|[k' v] o]; simpl; [|destruct (String.eqb k' k)]; discriminate. Qed.

End UpsertFacts.

Lemma rate_in_unit (w c : Z) : 0 <= w <= c -> 1 <= c -> (0 <= rate w c <= 1)%Q.
Proof.
  intros Hw Hc. unfold rate.
  assert (Hpos : (0 < inject_Z c)%Q).
  { change 0%Q with (inject_Z 0). rewrite <- Zlt_Qlt. lia. }
  split.
  - apply Qle_shift_div_l; [exact Hpos|].
    rewrite Qmult_0_l. change 0%Q with (inject_Z 0). rewrite <- Zle_Qle. lia.
  - apply Qle_shift_div_r; [exact Hpos|].
    rewrite Qmult_1_l. rewrite <- Zle_Qle. lia.
Qed.

Lemma tallyOk_rate {A : Type} `{Tally A} (v : A) : tallyOk v -> rateInUnit v.
Proof. intros [H1 H2]. now apply rate_in_unit. Qed.

Lemma forEach_Forall {A S : Type} (P : S -> Prop) (body : S -> A -> S)
      (l : list A) (s : S) :
  (forall s x, P s -> P (body s x)) -> P s -> P (forEach body l s).
Proof.
  intros Hb. unfold forEach. revert s.
  induction l as [|x l IH]; simpl; intros s Hs; [exact Hs|].
  apply IH. now apply Hb.
Qed.

Lemma forEachM_invariant {A S : Type} (P : S -> Prop)
      (body : S -> A -> Completion S) (l : list A) (s s' : S) :
  (forall s x s', P s -> body s x = Normal s' -> P s') ->
  P s -> forEachM body l s = Normal s' -> P s'.
Proof.
  intros Hb. revert s.
  induction l as [|x l IH]; simpl; intros s Hs H.
  - now injection H as <-.
  - destruct (body s x) as [s1|e] eqn:E; simpl in H; [|discriminate].
    apply (IH s1); [|exact H]. now apply (Hb s x).
Qed.

(** ** Soundness of the aggregation tables *)

Lemma count_pattern {V : Type} (k : string) (init : V) (f g : V -> V)
      (isWin : bool) (o : Obj V) :
  (let o1 := ensure k init o in
   let o2 := update k f o1 in
   if isWin then update k g o2 else o2)
  = upsert k init (fun v => if isWin then g (f v) else f v) o.
Proof.
  cbv zeta. rewrite update_ensure.
  destruct isWin; [apply update_upsert | reflexivity].
Qed.

Ltac tally_arith :=
  unfold tallyOk; simpl; intros;
  repeat match goal with b : bool |- _ => destruct b end; simpl; lia.

Lemma countCard_ok (isWin : bool) (o : Obj Usage.CardCount.t) (c : Card) :
  Forall tallyOk (map snd o) ->
  Forall tallyOk (map snd (Usage.countCard isWin o c)).
Proof.
  unfold Usage.countCard. rewrite count_pattern.
  apply upsert_Forall; tally_arith.
Qed.

Lemma countDeck_upsert (isWin : bool) (key vKey : string) (pc : list Card)
      (o : Obj Usage.DeckCount.t) :
  Usage.countDeck isWin key vKey pc o
  = upsert key {| Usage.DeckCount.count := 0; Usage.DeckCount.wins := 0;
                  Usage.DeckCount.variants := [] |}
           (deckBump isWin vKey pc) o.
Proof.
  unfold Usage.countDeck. cbv zeta. rewrite update_ensure.
  destruct isWin; rewrite !update_upsert; reflexivity.
Qed.

Lemma deckBump_ok (isWin : bool) (vKey : string) (pc : list Card)
      (d : Usage.DeckCount.t) :
  0 <= Usage.DeckCount.wins d <= Usage.DeckCount.count d ->
  Forall tallyOk (map snd (Usage.DeckCount.variants d)) ->
  deckOk (deckBump isWin vKey pc d).
Proof.
  intros Hd Hv. split; [|split].
  - unfold deckBump. destruct isWin; tally_arith.
  - unfold deckBump, Usage.DeckCount.onVariants.
    destruct isWin; simpl; rewrite update_ensure; [rewrite update_upsert|];
      apply upsert_Forall; trivial; tally_arith.
  - unfold deckBump, Usage.DeckCount.onVariants.
    destruct isWin; simpl; rewrite update_ensure; [rewrite update_upsert|];
      apply upsert_not_nil.
Qed.

Lemma countDeck_ok (isWin : bool) (key vKey : string) (pc : list Card)
      (o : Obj Usage.DeckCount.t) :
  Forall deckOk (map snd o) ->
  Forall deckOk (map snd (Usage.countDeck isWin key vKey pc o)).
Proof.
  rewrite countDeck_upsert. apply upsert_Forall.
  - intros d ([Hw _] & Hv & _). now apply deckBump_ok.
  - apply deckBump_ok; simpl; [lia | constructor].
Qed.

Lemma usage_battleStep_ok (localeCompare : string -> string -> Z)
      (playerTag : string) (st st' : Usage.Tables) (b : Battle) :
  usageOk st -> Usage.battleStep localeCompare playerTag st b = Normal st' ->
  usageOk st'.
Proof.
  intros [Hc Hd]. unfold Usage.battleStep.
  destruct (findPlayer b playerTag) as [p|]; [|discriminate].
  destruct (hd_error (opponent b)) as [q|]; [|discriminate].
  destruct (cards p) as [cs|]; [|intros H; injection H as <-; now split].
  assert (Hc' : forall w, Forall tallyOk
                  (map snd (forEach (Usage.countCard w) cs (Usage.cardCounts st)))).
  { intros w. apply forEach_Forall with (P := fun o => Forall tallyOk (map snd o));
      [|exact Hc]. intros o c. apply countCard_ok. }
  destruct (Usage.deckKey localeCompare cs) as [key|];
    intros H; injection H as <-; split; simpl; trivial.
  now apply countDeck_ok.
Qed.

Lemma usage_aggregate_ok (localeCompare : string -> string -> Z)
      (playerTag : string) (bs : list Battle) (t : Usage.Tables) :
  Usage.aggregate localeCompare playerTag bs = Normal t -> usageOk t.
Proof.
  apply forEachM_invariant with (P := usageOk).
  - intros s x s'. apply usage_battleStep_ok.
  - split; constructor.
Qed.

Lemma countFaced_ok (isWin : bool) (o : Obj Matchup.CardStat.t) (c : Card) :
  Forall tallyOk (map snd o) ->
  Forall tallyOk (map snd (Matchup.countFaced isWin o c)).
Proof.
  unfold Matchup.countFaced. rewrite count_pattern.
  apply upsert_Forall; tally_arith.
Qed.

Lemma matchup_countDeck_ok (isWin : bool) (cs : list Card)
      (o : Obj Matchup.DeckStat.t) :
  Forall tallyOk (map snd o) ->
  Forall tallyOk (map snd (Matchup.countDeck isWin cs o)).
Proof.
  unfold Matchup.countDeck. cbv zeta. rewrite count_pattern.
  apply upsert_Forall; tally_arith.
Qed.

Lemma countArchetype_ok (isWin : bool) (cs : list Card)
      (o : Obj Matchup.ArchetypeStat.t) :
  Forall tallyOk (map snd o) ->
  Forall tallyOk (map snd (Matchup.countArchetype isWin cs o)).
Proof.
  unfold Matchup.countArchetype. cbv zeta. rewrite count_pattern.
  apply upsert_Forall; tally_arith.
Qed.

Lemma matchup_battleStep_ok (playerTag : string) (st st' : Matchup.Tables)
      (b : Battle) :
  matchupOk st -> Matchup.battleStep playerTag st b = Normal st' ->
  matchupOk st'.
Proof.
  intros (Hc & Hd & Ha & Hh & Hl). unfold Matchup.battleStep.
  destruct (negb (isLadderOrPoL b));
    [intros H; injection H as <-; now repeat split|].
  destruct (findPlayer b playerTag) as [p|], (hd_error (opponent b)) as [q|];
    try (intros H; injection H as <-; now repeat split).
  destruct (cards q) as [cs|]; [|discriminate].
  intros H; injection H as <-. unfold matchupOk. simpl.
  split; [|split; [|split]].
  - apply forEach_Forall with (P := fun o => Forall tallyOk (map snd o));
      [|exact Hc]. intros o c. apply countFaced_ok.
  - now apply matchup_countDeck_ok.
  - now apply countArchetype_ok.
  - destruct (Matchup.gtNum (crowns p) (crowns q));
      destruct (Matchup.truthyNum (startingTrophies p));
      destruct (Matchup.truthyNum (startingTrophies q));
      destruct (Matchup.gtNum (startingTrophies q) (startingTrophies p));
      destruct (Matchup.gtNum (startingTrophies p) (startingTrophies q));
      simpl; lia.
Qed.

Lemma matchup_aggregate_ok (playerTag : string) (bs : list Battle)
      (t : Matchup.Tables) :
  Matchup.aggregate playerTag bs = Normal t -> matchupOk t.
Proof.
  apply forEachM_invariant with (P := matchupOk).
  - intros s x s'. apply matchup_battleStep_ok.
  - repeat split; try constructor; simpl; lia.
Qed.

Lemma sound_values {A : Type} `{Tally A} (o : Obj A) :
  Forall tallyOk (map snd o) -> Forall soundBucket (Object_values o).
Proof.
  intros F.
  refine (Permutation_Forall (Permutation_sym (Object_values_perm o)) _).
  eapply Forall_impl; [|exact F].
  intros v Hv. split; [exact Hv | now apply tallyOk_rate].
Qed.

Lemma gapOk_intro (w f : Z) : 0 <= w <= f -> gapOk w f.
Proof.
  intros H. split; [exact H|]. intros N. apply rate_in_unit; lia.
Qed.

(** C8: in every bucket of every aggregation (per card, per deck and per
    variant, per opposing card, deck and archetype, per trophy gap) the
    wins lie between 0 and the total, so that every rate over a nonzero
    total lies in [0, 1]. *)
Theorem wins_never_exceed_totals (localeCompare : string -> string -> Z)
        (playerTag : string) (battles : list Battle) :
  (forall t,
      Usage.aggregate localeCompare playerTag (filter isLadderOrPoL battles)
      = Normal t ->
      Forall soundBucket (Object_values (Usage.cardCounts t))
      /\ Forall (fun d => soundBucket d
                          /\ Forall soundBucket
                                (Object_values (Usage.DeckCount.variants d)))
                (Object_values (Usage.deckCounts t)))
  /\ (forall t,
        Matchup.aggregate playerTag battles = Normal t ->
        Forall soundBucket (Object_values (Matchup.cardStats t))
        /\ Forall soundBucket (Object_values (Matchup.deckStats t))
        /\ Forall soundBucket (Object_values (Matchup.archetypeStats t))
        /\ gapOk (Matchup.higherTrophiesWins t) (Matchup.higherTrophiesFaced t)
        /\ gapOk (Matchup.lowerTrophiesWins t) (Matchup.lowerTrophiesFaced t)).
Proof.
  split; intros t Ht.
  - apply usage_aggregate_ok in Ht. destruct Ht as [Hc Hd].
    split; [now apply sound_values|].
    refine (Permutation_Forall (Permutation_sym (Object_values_perm _)) _).
    eapply Forall_impl; [|exact Hd].
    intros d (Hd1 & Hd2 & _). split; [|now apply sound_values].
    split; [exact Hd1 | now apply tallyOk_rate].
  - apply matchup_aggregate_ok in Ht.
    destruct Ht as (Hc & Hd & Ha & Hh & Hl).
    split; [now apply sound_values|].
    split; [now apply sound_values|].
    split; [now apply sound_values|].
    split; now apply gapOk_intro.
Qed.

Lemma wins_never_exceed_totals_witness :
  (exists t,
      Usage.aggregate codeUnitCompare "#P0" (filter isLadderOrPoL Sample.log)
      = Normal t
      /\ Forall soundBucket (Object_values (Usage.cardCounts t)))
  /\ (exists t,
        Matchup.aggregate "#P0" Sample.log = Normal t
        /\ gapOk (Matchup.higherTrophiesWins t) (Matchup.higherTrophiesFaced t)).
Proof.
  split; eexists; (split; [vm_compute; reflexivity|]).
  - apply (proj1 (wins_never_exceed_totals codeUnitCompare "#P0" Sample.log)).
    vm_compute. reflexivity.
  - apply (proj2 (wins_never_exceed_totals codeUnitCompare "#P0" Sample.log)).
    vm_compute. reflexivity.
Defined.

(** ** The selection loops *)

Section SelectFacts.
Context {A K : Type} (key : A -> K) (lt : K -> K -> bool) (elig : A -> bool).

Hypothesis lt_trans :
  forall a b c, lt a b = true -> lt b c = true -> lt a c = true.
Hypothesis lt_cotrans :
  forall a b c, lt a c = true -> lt a b = true \/ lt b c = true.

Variable k0 : K.

Let Inv (seen : list A) (st : option A * K) : Prop :=
  match fst st with
  | None => snd st = k0 /\ forall x, In x seen -> elig x = false
  | Some d => snd st = key d /\ FirstBest key lt elig seen d
  end.

Lemma selectStep_Inv (seen : list A) (st : option A * K) (x : A) :
  (elig x = true -> lt k0 (key x) = true) ->
  Inv seen st -> Inv (seen ++ [x]) (selectStep key lt elig st x).
Proof.
  intros Hx. unfold Inv, selectStep. destruct st as [[d|] k]; simpl.
  - intros (-> & pre & post & -> & Hd & Hpre & Hpost).
    destruct (elig x) eqn:Ex; simpl.
    + destruct (lt (key d) (key x)) eqn:L; simpl.
      * split; [reflexivity|].
        exists (pre ++ d :: post), []. repeat split; trivial.
        -- intros y Hy Ey. apply in_app_or in Hy. destruct Hy as [Hy|[<-|Hy]].
           ++ apply lt_trans with (key d); auto.
           ++ exact L.
           ++ destruct (lt_cotrans (key y) L) as [C|C]; [|exact C].
              now rewrite (Hpost y Hy Ey) in C.
        -- intros y [].
      * split; [reflexivity|].
        exists pre, (post ++ [x]). rewrite <- app_assoc. repeat split; trivial.
        intros y Hy Ey. apply in_app_or in Hy.
        destruct Hy as [Hy|[<-|[]]]; auto.
    + split; [reflexivity|].
      exists pre, (post ++ [x]). rewrite <- app_assoc. repeat split; trivial.
      intros y Hy Ey. apply in_app_or in Hy.
      destruct Hy as [Hy|[<-|[]]]; [auto | congruence].
  - intros (-> & Hseen). destruct (elig x) eqn:Ex; simpl.
    + rewrite (Hx eq_refl). simpl. split; [reflexivity|].
      exists seen, []. repeat split; trivial.
      * intros y Hy Ey. now rewrite (Hseen y Hy) in Ey.
      * intros y [].
    + split; [reflexivity|]. intros y Hy. apply in_app_or in Hy.
      destruct Hy as [Hy|[<-|[]]]; auto.
Qed.

Lemma select_Inv (items : list A) :
  (forall x, In x items -> elig x = true -> lt k0 (key x) = true) ->
  Inv items (select key lt elig k0 items).
Proof.
  intros H. unfold select.
  assert (G : forall seen st,
             (forall x, In x items -> elig x = true -> lt k0 (key x) = true) ->
             Inv seen st ->
             Inv (seen ++ items) (fold_left (selectStep key lt elig) items st)).
  { clear H. induction items as [|x items IH]; simpl; intros seen st H I.
    - now rewrite app_nil_r.
    - replace (seen ++ x :: items) with ((seen ++ [x]) ++ items)
        by now rewrite <- app_assoc.
      apply IH; [intros y Hy; apply H; now right|].
      apply selectStep_Inv; [apply H; now left | exact I]. }
  apply (G [] (None, k0) H). split; [reflexivity | intros x []].
Qed.

(** When some item is eligible, the loop ends on the first best one. *)
Lemma select_some (items : list A) :
  (forall x, In x items -> elig x = true -> lt k0 (key x) = true) ->
  (exists x, In x items /\ elig x = true) ->
  exists d, select key lt elig k0 items = (Some d, key d)
            /\ FirstBest key lt elig items d.
Proof.
  intros H (x & Hx & Ex). pose proof (select_Inv items H) as I.
  unfold Inv in I. destruct (select key lt elig k0 items) as [[d|] k]; simpl in I.
  - destruct I as [-> F]. now exists d.
  - destruct I as [_ N]. now rewrite (N x Hx) in Ex.
Qed.

(** When no item is eligible, the loop leaves its state untouched. *)
Lemma select_none (items : list A) :
  (forall x, In x items -> elig x = false) ->
  select key lt elig k0 items = (None, k0).
Proof.
  intros H. unfold select. generalize (@None A, k0).
  induction items as [|x items IH]; simpl; intros st; [reflexivity|].
  unfold selectStep at 2. rewrite (H x (or_introl eq_refl)). simpl.
  apply IH. intros y Hy. apply H. now right.
Qed.

End SelectFacts.

Lemma fold_left_sim {A S T : Type} (R : S -> T -> Prop)
      (f : S -> A -> S) (g : T -> A -> T) (l : list A) (s : S) (t : T) :
  (forall s t x, R s t -> R (f s x) (g t x)) ->
  R s t -> R (fold_left f l s) (fold_left g l t).
Proof.
  intros H. revert s t. induction l as [|x l IH]; simpl; intros s t Hst;
    [exact Hst|]. apply IH. now apply H.
Qed.

(** The three orders of the selection loops. *)

Lemma Zltb_trans (a b c : Z) : (a <? b) = true -> (b <? c) = true -> (a <? c) = true.
Proof. rewrite !Z.ltb_lt. lia. Qed.

Lemma Zltb_cotrans (a b c : Z) :
  (a <? c) = true -> (a <? b) = true \/ (b <? c) = true.
Proof. rewrite !Z.ltb_lt. lia. Qed.

Lemma Qltb_lt (a b : Q) : Qltb a b = true <-> (a < b)%Q.
Proof.
  unfold Qltb, Qgtb. rewrite negb_true_iff. split.
  - intros H. apply Qnot_le_lt. intros L.
    apply Qle_bool_iff in L. congruence.
  - intros H. destruct (Qle_bool b a) eqn:E; [|reflexivity].
    apply Qle_bool_iff in E. now apply Qlt_not_le in H.
Qed.

Lemma Qltb_trans (a b c : Q) : Qltb a b = true -> Qltb b c = true -> Qltb a c = true.
Proof. rewrite !Qltb_lt. apply Qlt_trans. Qed.

Lemma Qltb_cotrans (a b c : Q) :
  Qltb a c = true -> Qltb a b = true \/ Qltb b c = true.
Proof.
  rewrite !Qltb_lt. intros H.
  destruct (Qlt_le_dec a b) as [L|L]; [now left | right].
  now apply Qle_lt_trans with a.
Qed.

Lemma countWinsLt_spec (a b : Z * Z) :
  countWinsLt a b = true <-> fst a < fst b \/ (fst a = fst b /\ snd a < snd b).
Proof.
  unfold countWinsLt.
  rewrite orb_true_iff, andb_true_iff, !Z.ltb_lt, Z.eqb_eq. intuition.
Qed.

Lemma countWinsLt_trans (a b c : Z * Z) :
  countWinsLt a b = true -> countWinsLt b c = true -> countWinsLt a c = true.
Proof. rewrite !countWinsLt_spec. lia. Qed.

Lemma countWinsLt_cotrans (a b c : Z * Z) :
  countWinsLt a c = true -> countWinsLt a b = true \/ countWinsLt b c = true.
Proof. rewrite !countWinsLt_spec. lia. Qed.

Lemma bestByRate_select (items : list Usage.CardCount.t) :
  Usage.bestByRate items
  = match fst (select cardRate Qltb atLeast5 (-1)%Q items) with
    | Some d => reportBest d
    | None => Usage.bestCardInit
    end
  /\ Usage.bestCardWinRate (Usage.bestByRate items)
     = snd (select cardRate Qltb atLeast5 (-1)%Q items).
Proof.
  unfold Usage.bestByRate, select, forEach.
  apply fold_left_sim
    with (R := fun (st : Usage.BestCard) (t : option Usage.CardCount.t * Q) =>
                 st = match fst t with
                      | Some d => reportBest d
                      | None => Usage.bestCardInit
                      end
                 /\ Usage.bestCardWinRate st = snd t).
  - intros st [cur k] x [E1 E2]. simpl in *.
    unfold Usage.bestCardStep, selectStep, atLeast5, Qltb, cardRate. simpl.
    rewrite E2.
    destruct (5 <=? Usage.CardCount.count x); simpl; [|now split].
    destruct (Qgtb _ k); simpl; now split.
  - now split.
Qed.

Lemma mostUsed_select (items : list Usage.CardCount.t) :
  Usage.mostUsed items
  = (option_map Usage.CardCount.card
       (fst (select Usage.CardCount.count Z.ltb always 0 items)),
     snd (select Usage.CardCount.count Z.ltb always 0 items)).
Proof.
  unfold Usage.mostUsed, select, forEach.
  apply fold_left_sim
    with (R := fun (st : option Card * Z) (t : option Usage.CardCount.t * Z) =>
                 st = (option_map Usage.CardCount.card (fst t), snd t)).
  - intros st [cur k] x ->. simpl.
    unfold Usage.mostUsedStep, selectStep, always. simpl.
    now destruct (k <? Usage.CardCount.count x).
  - reflexivity.
Qed.

Lemma fallback_select (items : list Usage.CardCount.t) (b0 : Usage.BestCard) :
  snd (forEach Usage.fallbackStep items (0, b0))
  = match fst (select Usage.CardCount.count Z.ltb always 0 items) with
    | Some d => reportBest d
    | None => b0
    end.
Proof.
  unfold select, forEach.
  enough (G : fold_left Usage.fallbackStep items (0, b0)
              = (snd (fold_left (selectStep Usage.CardCount.count Z.ltb always)
                                items (None, 0)),
                 match fst (fold_left (selectStep Usage.CardCount.count Z.ltb always)
                                      items (None, 0)) with
                 | Some d => reportBest d
                 | None => b0
                 end)) by now rewrite G.
  apply fold_left_sim
    with (R := fun (st : Z * Usage.BestCard) (t : option Usage.CardCount.t * Z) =>
                 st = (snd t, match fst t with
                              | Some d => reportBest d
                              | None => b0
                              end)).
  - intros st [cur k] x ->. simpl.
    unfold Usage.fallbackStep, selectStep, always. simpl.
    now destruct (k <? Usage.CardCount.count x).
  - reflexivity.
Qed.

Lemma bestVariant_select (vs : list Usage.VariantCount.t) :
  Usage.bestVariant vs
  = option_map Usage.VariantCount.cards
      (fst (select variantRank countWinsLt always (-1, -1) vs)).
Proof.
  unfold Usage.bestVariant, select, forEach.
  enough (G : fold_left Usage.variantStep vs (None, -1, -1)
              = (let r := fold_left (selectStep variantRank countWinsLt always)
                                    vs (None, (-1, -1)) in
                 (option_map Usage.VariantCount.cards (fst r),
                  fst (snd r), snd (snd r)))) by now rewrite G.
  apply fold_left_sim
    with (R := fun (st : option (list Card) * Z * Z)
                   (t : option Usage.VariantCount.t * (Z * Z)) =>
                 st = (option_map Usage.VariantCount.cards (fst t),
                       fst (snd t), snd (snd t))).
  - intros st [cur [c w]] x ->. simpl.
    unfold Usage.variantStep, selectStep, always, countWinsLt, variantRank.
    simpl.
    now destruct ((c <? Usage.VariantCount.count x)
                  || (Usage.VariantCount.count x =? c)
                     && (w <? Usage.VariantCount.wins x)).
  - reflexivity.
Qed.

Lemma findMostUsedDeck_select (items : list Usage.DeckCount.t) :
  let r := select deckRank countWinsLt always (0, 0) items in
  Usage.findMostUsedDeck items
  = {| Usage.mostUsedDeck :=
         match fst r with
         | Some d => Usage.bestVariant (Object_values (Usage.DeckCount.variants d))
         | None => None
         end;
       Usage.maxDeckCount := fst (snd r);
       Usage.mostUsedDeckWins := snd (snd r) |}.
Proof.
  unfold Usage.findMostUsedDeck, select, forEach. cbv zeta.
  apply fold_left_sim
    with (R := fun (st : Usage.MostUsedDeck)
                   (t : option Usage.DeckCount.t * (Z * Z)) =>
                 st = {| Usage.mostUsedDeck :=
                           match fst t with
                           | Some d => Usage.bestVariant
                                         (Object_values (Usage.DeckCount.variants d))
                           | None => None
                           end;
                         Usage.maxDeckCount := fst (snd t);
                         Usage.mostUsedDeckWins := snd (snd t) |}).
  - intros st [cur [c w]] x ->. simpl.
    unfold Usage.deckStep, selectStep, always, countWinsLt, deckRank. simpl.
    now destruct ((c <? Usage.DeckCount.count x)
                  || (Usage.DeckCount.count x =? c)
                     && (w <? Usage.DeckCount.wins x)).
  - reflexivity.
Qed.

Lemma findMostUsedTower_select (items : list Usage.TowerCount.t) :
  Usage.findMostUsedTower items
  = (option_map Usage.TowerCount.card
       (fst (select Usage.TowerCount.count Z.ltb always 0 items)),
     snd (select Usage.TowerCount.count Z.ltb always 0 items)).
Proof.
  unfold Usage.findMostUsedTower, select, forEach.
  apply fold_left_sim
    with (R := fun (st : option Card * Z) (t : option Usage.TowerCount.t * Z) =>
                 st = (option_map Usage.TowerCount.card (fst t), snd t)).
  - intros st [cur k] x ->. simpl.
    unfold Usage.mostUsedTowerStep, selectStep, always. simpl.
    now destruct (k <? Usage.TowerCount.count x).
  - reflexivity.
Qed.

Lemma usageStats_inv (localeCompare : string -> string -> Z)
      (battles : list Battle) (playerTag : string) (s : Usage.Stats) :
  Usage.usageStats localeCompare battles playerTag = Normal (Some s) ->
  exists t,
    Usage.aggregate localeCompare playerTag (filter isLadderOrPoL battles)
    = Normal t
    /\ Usage.best s = Usage.findBestCard (Object_values (Usage.cardCounts t))
    /\ (Usage.mostUsedCard s, Usage.mostUsedCardCount s)
       = Usage.mostUsed (Object_values (Usage.cardCounts t))
    /\ Usage.deck s = Usage.findMostUsedDeck (Object_values (Usage.deckCounts t))
    /\ (Usage.mostUsedTower s, Usage.mostUsedTowerCount s)
       = Usage.findMostUsedTower
           (Object_values (fst (Usage.towerAggregate playerTag battles)))
    /\ Usage.totalTowerBattles s = snd (Usage.towerAggregate playerTag battles)
    /\ Usage.totalBattles s = Z.of_nat (List.length battles).
Proof.
  unfold Usage.usageStats.
  destruct (List.length battles =? 0)%nat; [discriminate|].
  destruct (List.length (filter isLadderOrPoL battles) =? 0)%nat; [discriminate|].
  destruct (Usage.aggregate localeCompare playerTag (filter isLadderOrPoL battles))
    as [t|e]; simpl; [|discriminate].
  intros H. injection H as <-. exists t. simpl.
  repeat split; symmetry; apply surjective_pairing.
Qed.

(** ** The most used deck *)

Lemma FirstBest_In {A K : Type} (key : A -> K) (lt : K -> K -> bool)
      (elig : A -> bool) (items : list A) (d : A) :
  FirstBest key lt elig items d -> In d items.
Proof.
  intros (pre & post & -> & _). apply in_or_app. right. now left.
Qed.

Lemma values_not_nil {V : Type} (o : Obj V) :
  o <> [] -> exists x, In x (Object_values o).
Proof.
  intros N. destruct (Object_values o) as [|x l] eqn:E.
  - now apply Object_values_nil in E.
  - exists x. now left.
Qed.

(** C5: the reported most used deck is the first bucket, in the order of
    enumeration of the deck table, whose (count, wins) is maximal in the
    lexicographic order (count first, wins to break a tie; a bucket
    replaces the current one only when strictly greater), and the
    reported cards are those of the variant chosen by the same rule among
    the variants of that bucket. *)
Theorem most_used_deck_is_first_lexicographic_max
        (localeCompare : string -> string -> Z) (battles : list Battle)
        (playerTag : string) (s : Usage.Stats) :
  Usage.usageStats localeCompare battles playerTag = Normal (Some s) ->
  exists t,
    Usage.aggregate localeCompare playerTag (filter isLadderOrPoL battles)
    = Normal t
    /\ MostUsedDeckSpec t s.
Proof.
  intros H. destruct (usageStats_inv _ _ _ H) as (t & Ht & _ & _ & Hd & _).
  exists t. split; [exact Ht|]. unfold MostUsedDeckSpec.
  pose proof (usage_aggregate_ok _ _ _ Ht) as [_ Ok].
  destruct (Usage.deckCounts t) as [|e o] eqn:E.
  - left. split; [reflexivity|]. now rewrite Hd.
  - right. rewrite <- E in *.
    assert (N : Usage.deckCounts t <> []) by (rewrite E; discriminate).
    rewrite Forall_forall in Ok.
    destruct (select_some deckRank countWinsLt always
                          countWinsLt_trans countWinsLt_cotrans (0, 0)
                          (Object_values (Usage.deckCounts t)))
      as (d & Sd & Fd).
    { intros x Hx _. apply Object_values_sub in Hx.
      destruct (Ok x Hx) as ([_ Hc] & _). simpl in Hc.
      apply countWinsLt_spec. simpl. lia. }
    { destruct (values_not_nil N) as (x & Hx). now exists x. }
    pose proof (FirstBest_In Fd) as Hin. apply Object_values_sub in Hin.
    destruct (Ok d Hin) as (_ & Vok & Vn).
    rewrite Forall_forall in Vok.
    destruct (select_some variantRank countWinsLt always
                          countWinsLt_trans countWinsLt_cotrans (-1, -1)
                          (Object_values (Usage.DeckCount.variants d)))
      as (v & Sv & Fv).
    { intros x Hx _. apply Object_values_sub in Hx.
      destruct (Vok x Hx) as [_ Hc]. simpl in Hc.
      apply countWinsLt_spec. simpl. lia. }
    { destruct (values_not_nil Vn) as (x & Hx). now exists x. }
    exists d, v. rewrite Hd, findMostUsedDeck_select. simpl.
    rewrite Sd. simpl. rewrite bestVariant_select, Sv. simpl. auto.
Qed.

Lemma most_used_deck_is_first_lexicographic_max_witness :
  exists s,
    Usage.usageStats codeUnitCompare Sample.log "#P0" = Normal (Some s)
    /\ exists t,
        Usage.aggregate codeUnitCompare "#P0" (filter isLadderOrPoL Sample.log)
        = Normal t
        /\ MostUsedDeckSpec t s.
Proof.
  eexists. split; [vm_compute; reflexivity|].
  apply (most_used_deck_is_first_lexicographic_max
           codeUnitCompare Sample.log "#P0").
  vm_compute. reflexivity.
Defined.

(** Among decks played 3 times the one with 2 wins beats the one with 1,
    and of the two decks with 3 battles and 2 wins the earlier is kept. *)
Lemma tie_break_example :
  Usage.findMostUsedDeck Sample.tiedDecks
  = {| Usage.mostUsedDeck := Some [Sample.plainCard "Golem"];
       Usage.maxDeckCount := 3;
       Usage.mostUsedDeckWins := 2 |}.
Proof. reflexivity. Qed.

(** ** The best and the most used card *)

Lemma countCard_not_nil (isWin : bool) (o : Obj Usage.CardCount.t) (c : Card) :
  Usage.countCard isWin o c <> [].
Proof.
  unfold Usage.countCard. rewrite count_pattern. apply upsert_not_nil.
Qed.

Lemma countCards_not_nil (isWin : bool) (cs : list Card)
      (o : Obj Usage.CardCount.t) :
  o <> [] \/ cs <> [] -> forEach (Usage.countCard isWin) cs o <> [].
Proof.
  unfold forEach. revert o. induction cs as [|c cs IH]; simpl; intros o H.
  - destruct H as [H|H]; [exact H | now elim H].
  - apply IH. left. apply countCard_not_nil.
Qed.

Lemma usage_battleStep_cards (localeCompare : string -> string -> Z)
      (playerTag : string) (st st' : Usage.Tables) (b : Battle) :
  Usage.battleStep localeCompare playerTag st b = Normal st' ->
  Usage.cardCounts st <> [] \/ contributesCard playerTag b ->
  Usage.cardCounts st' <> [].
Proof.
  unfold Usage.battleStep, contributesCard.
  destruct (findPlayer b playerTag) as [p|]; [|discriminate].
  destruct (hd_error (opponent b)) as [q|]; [|discriminate].
  destruct (cards p) as [cs|] eqn:C.
  - intros H Hc.
    assert (N : forall w, forEach (Usage.countCard w) cs (Usage.cardCounts st) <> []).
    { intros w. apply countCards_not_nil. destruct Hc as [Hc|Hc]; [now left|].
      right. destruct Hc as (p' & c & cs' & Ep & Ec).
      injection Ep as <-. rewrite C in Ec. injection Ec as ->. discriminate. }
    destruct (Usage.deckKey localeCompare cs); injection H as <-; apply N.
  - intros H [Hc|Hc]; injection H as <-; [exact Hc|].
    destruct Hc as (p' & c & cs' & Ep & Ec).
    injection Ep as <-. rewrite C in Ec. discriminate.
Qed.

Lemma usage_aggregate_cards (localeCompare : string -> string -> Z)
      (playerTag : string) (bs : list Battle) (t : Usage.Tables) :
  Usage.aggregate localeCompare playerTag bs = Normal t ->
  (exists b, In b bs /\ contributesCard playerTag b) ->
  Usage.cardCounts t <> [].
Proof.
  unfold Usage.aggregate. intros H (b & Hb & Cb).
  assert (G : forall st,
             forEachM (Usage.battleStep localeCompare playerTag) bs st = Normal t ->
             Usage.cardCounts st <> [] \/ In b bs ->
             Usage.cardCounts t <> []).
  { clear H Hb. induction bs as [|x bs IH]; simpl; intros st H Hor.
    - injection H as <-. destruct Hor as [N|[]]. exact N.
    - destruct (Usage.battleStep localeCompare playerTag st x) as [st1|e] eqn:E;
        simpl in H; [|discriminate].
      apply (IH st1 H).
      destruct Hor as [N|[->|Hin]].
      + left. eapply usage_battleStep_cards; [exact E | now left].
      + left. eapply usage_battleStep_cards; [exact E | now right].
      + now right. }
  apply (G _ H). now right.
Qed.

Lemma cardRate_above_init (x : Usage.CardCount.t) :
  tallyOk x -> Qltb (-1) (cardRate x) = true.
Proof.
  intros [Hw Hc]. apply Qltb_lt.
  apply Qlt_le_trans with 0%Q; [reflexivity|].
  now apply rate_in_unit.
Qed.

Lemma bestCardSpec_holds (items : list Usage.CardCount.t) (s : Usage.Stats) :
  Forall tallyOk items ->
  Usage.best s = Usage.findBestCard items ->
  (Usage.mostUsedCard s, Usage.mostUsedCardCount s) = Usage.mostUsed items ->
  BestCardSpec items s.
Proof.
  intros Ok Hb Hm. rewrite Forall_forall in Ok.
  assert (Count : items <> [] ->
                  exists m, select Usage.CardCount.count Z.ltb always 0 items
                            = (Some m, Usage.CardCount.count m)
                            /\ FirstBest Usage.CardCount.count Z.ltb always items m).
  { intros N. apply select_some.
    - apply Zltb_trans.
    - apply Zltb_cotrans.
    - intros x Hx _. apply Z.ltb_lt. destruct (Ok x Hx) as [_ Hc]. simpl in Hc. lia.
    - destruct items as [|x l]; [now elim N|]. exists x. split; [now left | reflexivity]. }
  assert (Most : items <> [] ->
                 exists m, FirstBest Usage.CardCount.count Z.ltb always items m
                           /\ Usage.mostUsedCard s = Some (Usage.CardCount.card m)
                           /\ Usage.mostUsedCardCount s = Usage.CardCount.count m).
  { intros N. destruct (Count N) as (m & Sm & Fm). exists m.
    rewrite mostUsed_select, Sm in Hm. simpl in Hm.
    injection Hm as -> ->. auto. }
  unfold BestCardSpec. split; [|split; [|split]].
  - intros (x & Hx & Cx).
    destruct (select_some cardRate Qltb atLeast5 Qltb_trans Qltb_cotrans
                          (-1)%Q items) as (d & Sd & Fd).
    + intros y Hy _. apply cardRate_above_init. now apply Ok.
    + exists x. split; [exact Hx|]. unfold atLeast5. now apply Z.leb_le.
    + exists d. split; [exact Fd|].
      rewrite Hb. unfold Usage.findBestCard.
      destruct (bestByRate_select items) as [E _]. rewrite E, Sd. reflexivity.
  - intros Small N. destruct (Count N) as (m & Sm & Fm).
    exists m. split; [exact Fm|].
    rewrite Hb. unfold Usage.findBestCard.
    destruct (bestByRate_select items) as [E _].
    rewrite (select_none cardRate Qltb atLeast5 (-1)%Q items) in E.
    + rewrite E. simpl. rewrite fallback_select, Sm. reflexivity.
    + intros x Hx. unfold atLeast5. apply Z.leb_gt. now apply Small.
  - exact Most.
  - intros x Hx.
    destruct Most as (m & (pre & post & E & _ & Hpre & Hpost) & _ & ->).
    { intros ->. exact Hx. }
    rewrite E in Hx. apply in_app_or in Hx. destruct Hx as [Hx|[<-|Hx]].
    + specialize (Hpre x Hx eq_refl). apply Z.ltb_lt in Hpre. lia.
    + lia.
    + specialize (Hpost x Hx eq_refl). apply Z.ltb_ge in Hpost. lia.
Qed.

(** C6: the best card is the card of highest win rate among the cards
    with 5 battles or more; when no card has 5 battles it is the most
    used card, reported with its own win rate; a best card is reported as
    soon as a ladder or path-of-legend battle contributed a card; and the
    most used card is chosen among all the cards, those below 5 battles
    included. *)
Theorem best_card_threshold_and_fallback
        (localeCompare : string -> string -> Z) (battles : list Battle)
        (playerTag : string) (s : Usage.Stats) :
  Usage.usageStats localeCompare battles playerTag = Normal (Some s) ->
  exists t,
    Usage.aggregate localeCompare playerTag (filter isLadderOrPoL battles)
    = Normal t
    /\ BestCardSpec (Object_values (Usage.cardCounts t)) s
    /\ ((exists b, In b battles /\ isLadderOrPoL b = true
                   /\ contributesCard playerTag b) ->
        Usage.bestCard (Usage.best s) <> None).
Proof.
  intros H. destruct (usageStats_inv _ _ _ H) as (t & Ht & Hb & Hm & _).
  exists t. split; [exact Ht|].
  pose proof (usage_aggregate_ok _ _ _ Ht) as [Ok _].
  assert (Ok' : Forall tallyOk (Object_values (Usage.cardCounts t))).
  { refine (Permutation_Forall (Permutation_sym (Object_values_perm _)) Ok). }
  assert (Spec : BestCardSpec (Object_values (Usage.cardCounts t)) s).
  { apply bestCardSpec_holds; assumption. }
  split; [exact Spec|].
  intros (b & Hin & Hv & Hc).
  assert (N : Usage.cardCounts t <> []).
  { eapply usage_aggregate_cards; [exact Ht|].
    exists b. split; [|exact Hc]. apply filter_In. now split. }
  assert (N' : Object_values (Usage.cardCounts t) <> []).
  { intros E. now apply Object_values_nil in E. }
  destruct Spec as (Sa & Sb & _).
  destruct (existsb atLeast5 (Object_values (Usage.cardCounts t))) eqn:Ex.
  - apply existsb_exists in Ex. destruct Ex as (x & Hx & Cx).
    destruct Sa as (d & _ & ->); [|discriminate].
    exists x. split; [exact Hx|]. now apply Z.leb_le in Cx.
  - destruct Sb as (d & _ & ->); [|exact N'|discriminate].
    intros x Hx. apply Z.leb_gt.
    rewrite <- not_true_iff_false in Ex. rewrite existsb_exists in Ex.
    destruct (5 <=? Usage.CardCount.count x) eqn:C; [|reflexivity].
    elim Ex. now exists x.
Qed.

Lemma best_card_threshold_and_fallback_witness :
  exists s,
    Usage.usageStats codeUnitCompare Sample.log "#P0" = Normal (Some s)
    /\ exists t,
        Usage.aggregate codeUnitCompare "#P0" (filter isLadderOrPoL Sample.log)
        = Normal t
        /\ BestCardSpec (Object_values (Usage.cardCounts t)) s
        /\ ((exists b, In b Sample.log /\ isLadderOrPoL b = true
                       /\ contributesCard "#P0" b) ->
            Usage.bestCard (Usage.best s) <> None).
Proof.
  eexists. split; [vm_compute; reflexivity|].
  apply (best_card_threshold_and_fallback codeUnitCompare Sample.log "#P0").
  vm_compute. reflexivity.
Defined.

(** With 4 battles and 1 win "Knight" is passed over for "Archers"
    (5 battles, 1 win) though its rate is higher; when no card has 5
    battles it is both the most used and the best card. *)
Lemma threshold_examples :
  option_map name (Usage.bestCard (Usage.findBestCard Sample.aroundThreshold))
  = Some "Archers"
  /\ option_map name (fst (Usage.mostUsed Sample.belowThreshold)) = Some "Knight"
  /\ option_map name (Usage.bestCard (Usage.findBestCard Sample.belowThreshold))
     = Some "Knight"
  /\ (Usage.bestCardWinRate (Usage.findBestCard Sample.belowThreshold) == 1 # 4)%Q.
Proof. repeat split. Qed.

(** ** Well-formed logs are aggregated *)

Lemma forEachM_total {A S : Type} (body : S -> A -> Completion S)
      (l : list A) (s : S) :
  (forall s x, In x l -> exists s', body s x = Normal s') ->
  exists s', forEachM body l s = Normal s'.
Proof.
  revert s. induction l as [|x l IH]; simpl; intros s H.
  - now exists s.
  - destruct (H s x (or_introl eq_refl)) as (s1 & ->). simpl.
    apply IH. intros s2 y Hy. apply H. now right.
Qed.

Lemma findPlayer_some (b : Battle) (playerTag : string) :
  team b <> [] -> exists p, findPlayer b playerTag = Some p.
Proof.
  intros N. unfold findPlayer.
  destruct (find _ (team b)) as [p|]; [now exists p|].
  destruct (team b) as [|p l]; [now elim N | now exists p].
Qed.

(** The usage statistics are produced for every log whose ladder and
    path-of-legend battles have both sides. *)
Lemma usageStats_total (localeCompare : string -> string -> Z)
      (battles : list Battle) (playerTag : string) :
  (forall b, In b battles -> isLadderOrPoL b = true ->
             team b <> [] /\ opponent b <> []) ->
  exists r, Usage.usageStats localeCompare battles playerTag = Normal r.
Proof.
  intros WF. unfold Usage.usageStats.
  destruct (List.length battles =? 0)%nat; [now eexists|].
  destruct (List.length (filter isLadderOrPoL battles) =? 0)%nat; [now eexists|].
  destruct (forEachM_total (Usage.battleStep localeCompare playerTag)
                           (filter isLadderOrPoL battles) Usage.emptyTables)
    as (t & Ht).
  - intros st b Hb. apply filter_In in Hb. destruct Hb as [Hin Hv].
    destruct (WF b Hin Hv) as [Nt No].
    destruct (findPlayer_some b playerTag Nt) as (p & Ep).
    unfold Usage.battleStep. rewrite Ep.
    destruct (opponent b) as [|q l]; [now elim No|]. simpl.
    destruct (cards p) as [cs|]; [|now eexists].
    destruct (Usage.deckKey localeCompare cs); now eexists.
  - unfold Usage.aggregate. rewrite Ht. simpl. now eexists.
Qed.

(** The matchup statistics are produced for every log in which the
    opponents of the ladder and path-of-legend battles list their cards. *)
Lemma matchupStats_total (battles : list Battle) (playerTag : string) :
  (forall b q, In b battles -> isLadderOrPoL b = true ->
               hd_error (opponent b) = Some q -> cards q <> None) ->
  exists r, Matchup.matchupStats battles playerTag = Normal r.
Proof.
  intros WF. unfold Matchup.matchupStats.
  destruct (List.length battles =? 0)%nat; [now eexists|].
  destruct (forEachM_total (Matchup.battleStep playerTag) battles
                           Matchup.emptyTables) as (t & Ht).
  - intros st b Hb. unfold Matchup.battleStep.
    destruct (isLadderOrPoL b) eqn:Hv; simpl; [|now eexists].
    destruct (findPlayer b playerTag) as [p|]; [|now eexists].
    destruct (hd_error (opponent b)) as [q|] eqn:Eq; [|now eexists].
    destruct (cards q) as [cs|] eqn:Ec; [now eexists|].
    now elim (WF b q Hb Hv Eq).
  - unfold Matchup.aggregate. rewrite Ht. simpl. now eexists.
Qed.

(** ** Malformed battles *)

Lemma usage_battleStep_no_opponent (localeCompare : string -> string -> Z)
      (playerTag : string) (st : Usage.Tables) (b : Battle) :
  opponent b = [] ->
  Usage.battleStep localeCompare playerTag st b = Throw TypeError.
Proof.
  intros E. unfold Usage.battleStep. rewrite E. simpl.
  now destruct (findPlayer b playerTag).
Qed.

Lemma usage_battleStep_no_cards (localeCompare : string -> string -> Z)
      (playerTag : string) (st : Usage.Tables) (b : Battle) (p q : Player) :
  findPlayer b playerTag = Some p -> hd_error (opponent b) = Some q ->
  cards p = None ->
  Usage.battleStep localeCompare playerTag st b = Normal st.
Proof.
  intros Ep Eq Ec. unfold Usage.battleStep. now rewrite Ep, Eq, Ec.
Qed.

Lemma matchup_battleStep_no_opponent (playerTag : string)
      (st : Matchup.Tables) (b : Battle) :
  opponent b = [] -> Matchup.battleStep playerTag st b = Normal st.
Proof.
  intros E. unfold Matchup.battleStep. rewrite E. simpl.
  destruct (negb (isLadderOrPoL b)); [reflexivity|].
  now destruct (findPlayer b playerTag).
Qed.

Lemma usage_loop_throws (localeCompare : string -> string -> Z)
      (playerTag : string) (bs : list Battle) (b : Battle) (st : Usage.Tables) :
  In b bs -> opponent b = [] ->
  forEachM (Usage.battleStep localeCompare playerTag) bs st = Throw TypeError.
Proof.
  intros Hin Ho. revert st. induction bs as [|x l IH]; [destruct Hin|].
  intros st. simpl. destruct Hin as [->|Hin].
  - now rewrite usage_battleStep_no_opponent.
  - destruct (Usage.battleStep localeCompare playerTag st x) as [st1|[]];
      simpl; [now apply IH | reflexivity].
Qed.

(** One ladder battle without an opponent side makes the whole usage
    computation throw, wherever it stands in the log. *)
Lemma usageStats_throws_without_opponent (localeCompare : string -> string -> Z)
      (playerTag : string) (battles : list Battle) (b : Battle) :
  In b battles -> isLadderOrPoL b = true -> opponent b = [] ->
  Usage.usageStats localeCompare battles playerTag = Throw TypeError.
Proof.
  intros Hin Hv Ho.
  assert (Hf : In b (filter isLadderOrPoL battles)) by (apply filter_In; now split).
  unfold Usage.usageStats, Usage.aggregate.
  rewrite (usage_loop_throws localeCompare playerTag _ b _ Hf Ho).
  destruct battles as [|b0 bs]; [destruct Hin|].
  destruct (filter isLadderOrPoL (b0 :: bs)) as [|v vs]; [destruct Hf|].
  reflexivity.
Qed.

(** C4 (the code departs from it): with a ladder battle that has no
    opponent side in the log, the usage statistics throw instead of
    skipping it, while the same log without that battle is aggregated and
    the matchup statistics do skip it. *)
Theorem missing_opponent_aborts_usage_stats :
  Usage.usageStats codeUnitCompare
                   [Sample.ladderWin; Sample.noOpponent; Sample.ladderLoss] "#P0"
  = Throw TypeError
  /\ (exists s,
        Usage.usageStats codeUnitCompare [Sample.ladderWin; Sample.ladderLoss]
                         "#P0" = Normal (Some s))
  /\ Matchup.matchupStats
       [Sample.ladderWin; Sample.noOpponent; Sample.ladderLoss] "#P0"
     = Matchup.matchupStats [Sample.ladderWin; Sample.ladderLoss] "#P0".
Proof.
  split; [|split].
  - apply usageStats_throws_without_opponent with (b := Sample.noOpponent);
      [simpl; auto | reflexivity | reflexivity].
  - eexists. vm_compute. reflexivity.
  - vm_compute. reflexivity.
Qed.

(** ** Tower troops *)

Section UpsertLookup.
Context {V : Type}.

Lemma get_upsert (k n : string) (init : V) (f : V -> V) (o : Obj V) :
  get n (upsert k init f o)
  = if String.eqb k n
    then Some (f (match get k o with Some v => v | None => init end))
    else get n o.
Proof.
  induction o as [|[k' v] o IH]; simpl.
  - reflexivity.
  - destruct (String.eqb_spec k' k) as [->|N]; simpl.
    + now destruct (String.eqb k n).
    + rewrite IH. destruct (String.eqb_spec k n) as [<-|N'].
      * destruct (String.eqb_spec k' k) as [E|_]; [now elim N | reflexivity].
      * reflexivity.
Qed.

Lemma upsert_keys (k k' : string) (init : V) (f : V -> V) (o : Obj V) :
  In k' (map fst (upsert k init f o)) <-> k' = k \/ In k' (map fst o).
Proof.
  induction o as [|[k0 v0] o IH]; simpl.
  - intuition.
  - destruct (String.eqb_spec k0 k) as [->|N]; simpl; [intuition|].
    rewrite IH. intuition.
Qed.

Lemma upsert_NoDup (k : string) (init : V) (f : V -> V) (o : Obj V) :
  NoDup (map fst o) -> NoDup (map fst (upsert k init f o)).
Proof.
  induction o as [|[k0 v0] o IH]; simpl; intros H.
  - repeat constructor. simpl. tauto.
  - destruct (String.eqb_spec k0 k) as [->|N]; simpl; [exact H|].
    inversion H as [|? ? Hnin Hnd]; subst. constructor; [|now apply IH].
    rewrite upsert_keys. intros [E|E]; [now elim N | now elim Hnin].
Qed.

Lemma upsert_Forall_entries (P : string -> V -> Prop) (k : string) (init : V)
      (f : V -> V) (o : Obj V) :
  (forall k' v, P k' v -> P k' (f v)) -> P k (f init) ->
  Forall (fun e => P (fst e) (snd e)) o ->
  Forall (fun e => P (fst e) (snd e)) (upsert k init f o).
Proof.
  intros Hf Hi. induction 1 as [|[k' v] o Hv Ho IH]; simpl.
  - now repeat constructor.
  - destruct (String.eqb k' k); constructor; simpl; auto.
Qed.

Lemma get_In_NoDup (k : string) (v : V) (o : Obj V) :
  NoDup (map fst o) -> In (k, v) o -> get k o = Some v.
Proof.
  induction o as [|[k' v'] o IH]; simpl; intros Hnd Hin; [destruct Hin|].
  inversion Hnd as [|? ? Hnin Hnd']; subst.
  destruct Hin as [E|Hin].
  - injection E as -> ->. now rewrite String.eqb_refl.
  - destruct (String.eqb_spec k' k) as [->|N]; [|now apply IH].
    elim Hnin. change k with (fst (k, v)). now apply in_map.
Qed.

Lemma get_Some_In (k : string) (v : V) (o : Obj V) :
  get k o = Some v -> In (k, v) o.
Proof.
  induction o as [|[k' v'] o IH]; simpl; [discriminate|].
  destruct (String.eqb_spec k' k) as [->|N].
  - intros E. injection E as ->. now left.
  - intros E. right. now apply IH.
Qed.

End UpsertLookup.


Lemma namedCount_cons (n : string) (c : Card) (cs : list Card) :
  namedCount n (c :: cs)
  = (if String.eqb (name c) n then 1 else 0) + namedCount n cs.
Proof.
  unfold namedCount. cbn [filter].
  destruct (String.eqb (name c) n); cbn [List.length];
    [rewrite Nat2Z.inj_succ|]; lia.
Qed.

Lemma namedCount_nil (n : string) : namedCount n [] = 0.
Proof. reflexivity. Qed.

Lemma namedCount_app (n : string) (cs cs' : list Card) :
  namedCount n (cs ++ cs') = namedCount n cs + namedCount n cs'.
Proof.
  unfold namedCount. rewrite filter_app, length_app. lia.
Qed.

Lemma countTower_upsert (o : Obj Usage.TowerCount.t) (c : Card) :
  Usage.countTower o c
  = upsert (name c) {| Usage.TowerCount.count := 0; Usage.TowerCount.card := c |}
           Usage.TowerCount.incrCount o.
Proof. unfold Usage.countTower. apply update_ensure. Qed.

Lemma countTower_ok (o : Obj Usage.TowerCount.t) (c : Card) :
  towerOk o -> towerOk (Usage.countTower o c).
Proof.
  intros [Hnd Hf]. rewrite countTower_upsert. split.
  - now apply upsert_NoDup.
  - apply upsert_Forall_entries
      with (P := fun k v => name (Usage.TowerCount.card v) = k
                            /\ 1 <= Usage.TowerCount.count v).
    + intros k' v [H1 H2]. simpl. split; [exact H1 | lia].
    + simpl. split; [reflexivity | lia].
    + exact Hf.
Qed.

Lemma countTower_count (n : string) (o : Obj Usage.TowerCount.t) (c : Card) :
  towerCountOf n (Usage.countTower o c)
  = towerCountOf n o + (if String.eqb (name c) n then 1 else 0).
Proof.
  rewrite countTower_upsert. unfold towerCountOf. rewrite get_upsert.
  destruct (String.eqb_spec (name c) n) as [<-|N].
  - destruct (get (name c) o); simpl; lia.
  - destruct (get n o); simpl; lia.
Qed.

Lemma countTowers (n : string) (sc : list Card) (o : Obj Usage.TowerCount.t) :
  towerOk o ->
  towerOk (forEach Usage.countTower sc o)
  /\ towerCountOf n (forEach Usage.countTower sc o)
     = towerCountOf n o + namedCount n sc.
Proof.
  unfold forEach. revert o. induction sc as [|c sc IH]; simpl; intros o Ok.
  - split; [exact Ok|]. rewrite namedCount_nil. lia.
  - destruct (IH (Usage.countTower o c)) as [H1 H2];
      [now apply countTower_ok|].
    split; [exact H1|]. rewrite H2, countTower_count, namedCount_cons. lia.
Qed.

Lemma towerStep_spec (playerTag n : string) (st : Obj Usage.TowerCount.t * Z)
      (b : Battle) :
  towerOk (fst st) ->
  towerOk (fst (Usage.towerStep playerTag st b))
  /\ towerCountOf n (fst (Usage.towerStep playerTag st b))
     = towerCountOf n (fst st) + namedCount n (selfSupport playerTag b)
  /\ snd (Usage.towerStep playerTag st b)
     = snd st + (if hasTower playerTag b then 1 else 0).
Proof.
  intros Ok. unfold Usage.towerStep, hasTower, selfSupport.
  destruct (findPlayer b playerTag) as [p|];
    [|rewrite namedCount_nil; split; [exact Ok | split; lia]].
  destruct (supportCards p) as [[|c sc]|];
    try (rewrite namedCount_nil; simpl; split; [exact Ok | split; lia]).
  cbn [List.length Nat.ltb Nat.leb fst snd].
  destruct (countTowers n (c :: sc) Ok) as [H1 H2].
  split; [exact H1 | split; [exact H2 | reflexivity]].
Qed.

Lemma towerAggregate_spec (playerTag : string) (battles : list Battle) :
  let r := Usage.towerAggregate playerTag battles in
  towerOk (fst r)
  /\ (forall n, towerCountOf n (fst r) = towerUses playerTag battles n)
  /\ snd r = Z.of_nat (List.length (filter (hasTower playerTag) battles)).
Proof.
  unfold Usage.towerAggregate, forEach.
  assert (G : forall st,
             towerOk (fst st) ->
             let r := fold_left (Usage.towerStep playerTag) battles st in
             towerOk (fst r)
             /\ (forall n, towerCountOf n (fst r)
                           = towerCountOf n (fst st)
                             + towerUses playerTag battles n)
             /\ snd r = snd st
                        + Z.of_nat (List.length
                                      (filter (hasTower playerTag) battles))).
  { induction battles as [|b bs IH]; cbn [fold_left]; intros st Ok.
    - split; [exact Ok|]. split.
      + intros n. unfold towerUses. cbn [flat_map]. rewrite namedCount_nil. lia.
      + cbn [filter List.length]. lia.
    - destruct (towerStep_spec playerTag "" st b Ok) as (Ok1 & _ & T1).
      destruct (IH _ Ok1) as (Ok2 & C2 & T2).
      split; [exact Ok2|]. split.
      + intros n. rewrite C2.
        destruct (towerStep_spec playerTag n st b Ok) as (_ & C1 & _).
        rewrite C1. unfold towerUses. cbn [flat_map].
        rewrite namedCount_app. lia.
      + rewrite T2, T1. cbn [filter].
        destruct (hasTower playerTag b); cbn [List.length];
          [rewrite Nat2Z.inj_succ|]; lia. }
  destruct (G ([], 0)) as (H1 & H2 & H3).
  - split; constructor.
  - split; [exact H1|]. split; [|exact H3].
    intros n. rewrite H2. reflexivity.
Qed.

(** C10: the tower-troop figures are computed over the battle list as
    received, without the ladder / path-of-legend filter:
    [totalTowerBattles] is the number of battles, of any mode, whose
    resolved self side lists at least one support card, every bucket
    counts the uses of its troop over all the battles, and the most used
    tower is the first bucket of maximal count. *)
Theorem tower_stats_over_all_battles
        (localeCompare : string -> string -> Z) (battles : list Battle)
        (playerTag : string) (s : Usage.Stats) :
  Usage.usageStats localeCompare battles playerTag = Normal (Some s) ->
  TowerSpec playerTag battles s.
Proof.
  intros H.
  destruct (usageStats_inv _ _ _ H) as (t & _ & _ & _ & _ & Hm & Ht & _).
  destruct (towerAggregate_spec playerTag battles) as ([Hnd Hf] & Hc & Hn).
  rewrite Forall_forall in Hf.
  unfold TowerSpec. cbv zeta.
  set (o := fst (Usage.towerAggregate playerTag battles)) in *.
  assert (Hval : forall x, In x (Object_values o) ->
                           exists k, In (k, x) o).
  { intros x Hx. apply Object_values_sub in Hx. apply in_map_iff in Hx.
    destruct Hx as ([k v] & E & Hin). simpl in E. subst v. now exists k. }
  assert (Hx1 : forall x, In x (Object_values o) ->
                  Usage.TowerCount.count x
                  = towerUses playerTag battles (name (Usage.TowerCount.card x))
                  /\ 1 <= Usage.TowerCount.count x).
  { intros x Hx. destruct (Hval x Hx) as (k & Hin).
    destruct (Hf _ Hin) as [E1 E2]. simpl in E1, E2. split; [|exact E2].
    rewrite E1, <- Hc. unfold towerCountOf.
    now rewrite (get_In_NoDup k x o Hnd Hin). }
  split; [now rewrite Ht, Hn|]. split; [exact Hx1|]. split; [|split].
  - intros n Hpos. rewrite <- Hc in Hpos. unfold towerCountOf in Hpos.
    destruct (get n o) as [v|] eqn:G; [|lia].
    apply get_Some_In in G. exists v. split.
    + apply Object_values_In. change v with (snd (n, v)). now apply in_map.
    + now destruct (Hf _ G).
  - intros E. rewrite E in Hm. now injection Hm as -> ->.
  - intros N.
    destruct (select_some Usage.TowerCount.count Z.ltb always
                          Zltb_trans Zltb_cotrans 0 (Object_values o))
      as (m & Sm & Fm).
    + intros x Hx _. apply Z.ltb_lt. destruct (Hx1 x Hx). lia.
    + destruct (Object_values o) as [|x l]; [now elim N|].
      exists x. split; [now left | reflexivity].
    + exists m. split; [exact Fm|].
      rewrite findMostUsedTower_select, Sm in Hm. simpl in Hm.
      now injection Hm as -> ->.
Qed.

Lemma tower_stats_over_all_battles_witness :
  exists s,
    Usage.usageStats codeUnitCompare Sample.log "#P0" = Normal (Some s)
    /\ TowerSpec "#P0" Sample.log s.
Proof.
  eexists. split; [vm_compute; reflexivity|].
  apply (tower_stats_over_all_battles codeUnitCompare Sample.log "#P0").
  vm_compute. reflexivity.
Defined.

(** In the sample log one of the two battles with a tower troop is a
    friendly game, which the card and deck tables leave out. *)
Lemma sample_log_counts_friendly_tower :
  exists s,
    Usage.usageStats codeUnitCompare Sample.log "#P0" = Normal (Some s)
    /\ Usage.totalTowerBattles s = 2
    /\ List.length (filter (hasTower "#P0") (filter isLadderOrPoL Sample.log))
       = 1%nat.
Proof.
  eexists. split; [vm_compute; reflexivity|]. split; reflexivity.
Qed.

(** ** Hardest counters *)

Lemma Qminus_nonpos (a b : Q) : (a - b <= 0 <-> a <= b)%Q.
Proof.
  destruct a as [p q], b as [r t]. unfold Qle, Qminus, Qplus, Qopp. simpl. lia.
Qed.

Lemma lowestFirst_le (a b : Matchup.CardStat.t) :
  Matchup.lowestFirst a b = true <-> rateLe a b.
Proof.
  unfold Matchup.lowestFirst, rateLe. rewrite Qle_bool_iff. apply Qminus_nonpos.
Qed.

Lemma lowestFirst_total (a b : Matchup.CardStat.t) :
  Matchup.lowestFirst a b = false -> Matchup.lowestFirst b a = true.
Proof.
  intros H. apply lowestFirst_le. unfold rateLe.
  destruct (Qlt_le_dec (Matchup.winRate a) (Matchup.winRate b)) as [L|L];
    [|exact L].
  apply Qlt_le_weak in L. apply lowestFirst_le in L. congruence.
Qed.

Lemma lowestFirst_trans (a b c : Matchup.CardStat.t) :
  Matchup.lowestFirst a b = true -> Matchup.lowestFirst b c = true ->
  Matchup.lowestFirst a c = true.
Proof. rewrite !lowestFirst_le. apply Qle_trans. Qed.

Lemma struggling_spec (x : Matchup.CardStat.t) :
  Matchup.struggling x = true
  <-> 3 <= Matchup.CardStat.faced x /\ (Matchup.winRate x < 1 # 2)%Q.
Proof.
  unfold Matchup.struggling. rewrite andb_true_iff, Z.leb_le.
  change (Qgtb (1 # 2) (Matchup.winRate x)) with (Qltb (Matchup.winRate x) (1 # 2)).
  now rewrite Qltb_lt.
Qed.

(** C7 (amended): the hardest counters are the first 6 of the gate-passing
    cards in ascending win-rate order; a card faced 3 times with 1 win
    passes the gate and is listed when at most 6 cards pass it; a card
    faced fewer than 3 times is never listed. *)
Theorem hardest_counters_gate_and_cap (cardsArray : list Matchup.CardStat.t) :
  HardestSpec cardsArray (Matchup.strugglingCards cardsArray).
Proof.
  unfold HardestSpec, Matchup.strugglingCards, slice0.
  set (gated := filter Matchup.struggling cardsArray).
  set (sorted := Array_sort Matchup.lowestFirst gated).
  assert (P : Permutation sorted gated) by apply Array_sort_perm.
  assert (S : StronglySorted rateLe sorted).
  { eapply StronglySorted_weaken;
      [|apply (Array_sort_sorted Matchup.lowestFirst
                                 lowestFirst_total lowestFirst_trans)].
    intros a b. apply lowestFirst_le. }
  assert (G : forall x, In x sorted <->
                        In x cardsArray /\ Matchup.struggling x = true).
  { intros x. unfold gated in P. rewrite <- filter_In.
    split; apply Permutation_in; [exact P | now symmetry]. }
  split; [now exists sorted|].
  split; [apply firstn_le_length|].
  split; [|split; [|split]].
  - intros x Hx. apply firstn_incl, G in Hx. destruct Hx as [Hin Hs].
    apply struggling_spec in Hs. tauto.
  - intros x y Hx Hy Sy Ny.
    assert (Hy' : In y sorted) by (apply G; now split).
    rewrite <- (firstn_skipn 6 sorted) in Hy'. apply in_app_or in Hy'.
    destruct Hy' as [Hy'|Hy']; [now elim Ny|].
    eapply sorted_prefix_below; eassumption.
  - intros x Hx F W.
    assert (Sx : Matchup.struggling x = true).
    { unfold Matchup.struggling, Matchup.winRate. now rewrite F, W. }
    split; [exact Sx|]. intros L.
    rewrite firstn_all_le.
    + apply G. now split.
    + now rewrite (Permutation_length P).
  - intros x Hx F Hr. apply firstn_incl, G in Hr. destruct Hr as [_ Hs].
    apply struggling_spec in Hs. lia.
Qed.

Lemma hardest_counters_gate_and_cap_witness :
  exists s t,
    Matchup.matchupStats Sample.capLog "#P0" = Normal (Some s)
    /\ Matchup.aggregate "#P0" Sample.capLog = Normal t
    /\ HardestSpec (Object_values (Matchup.cardStats t))
                   (Matchup.statsStrugglingCards s).
Proof.
  eexists. eexists. split; [vm_compute; reflexivity|].
  split; [vm_compute; reflexivity|].
  apply hardest_counters_gate_and_cap.
Defined.

(** C7 as stated fails: in the sample log the eight cards of the deck
    lost to three times fill the six places, and the card faced 3 times
    with 1 win, which passes the gate, is not listed. *)
Lemma hardest_counters_cap_drops_gate_passing_card :
  exists s t,
    Matchup.matchupStats Sample.capLog "#P0" = Normal (Some s)
    /\ Matchup.aggregate "#P0" Sample.capLog = Normal t
    /\ In Sample.princessStat (Object_values (Matchup.cardStats t))
    /\ Matchup.CardStat.faced Sample.princessStat = 3
    /\ Matchup.CardStat.wins Sample.princessStat = 1
    /\ Matchup.struggling Sample.princessStat = true
    /\ ~ In Sample.princessStat (Matchup.statsStrugglingCards s).
Proof.
  eexists. eexists. split; [vm_compute; reflexivity|].
  split; [vm_compute; reflexivity|].
  split; [vm_compute; repeat (try (left; reflexivity); right)|].
  split; [reflexivity|]. split; [reflexivity|]. split; [reflexivity|].
  intros H.
  apply (in_map (fun y => name (Matchup.CardStat.card y))) in H.
  vm_compute in H. intuition discriminate.
Qed.

(** ** Significance of a matchup *)

(** C9: the z-statistic is [(p - 0.5) / sqrt (0.25 / n)]; at a win rate of
    one half it is 0 and the cell is not significant, whatever the sample
    size. *)
Theorem half_win_rate_is_never_significant (n : nat) :
  (forall p : R,
      Significance.zScore p n = ((p - 1 / 2) / sqrt (1 / 4 / INR n))%R)
  /\ Significance.zScore (1 / 2) n = 0%R
  /\ Significance.significant (1 / 2) n = false.
Proof.
  assert (Z0 : Significance.zScore (1 / 2) n = 0%R).
  { unfold Significance.zScore.
    replace (1 / 2 - 5 / 10)%R with 0%R by lra.
    unfold Rdiv. apply Rmult_0_l. }
  split; [|split].
  - intros p. unfold Significance.zScore.
    replace (5 / 10)%R with (1 / 2)%R by lra.
    replace (25 / 100)%R with (1 / 4)%R by lra. reflexivity.
  - exact Z0.
  - unfold Significance.significant. rewrite Z0, Rabs_R0.
    destruct (Rlt_dec Significance.SIGNIFICANCE_THRESHOLD 0) as [L|L];
      [|reflexivity].
    unfold Significance.SIGNIFICANCE_THRESHOLD in L. lra.
Qed.

(** * Further properties *)

Unset Implicit Arguments.

(** ** Sorting a permuted array *)

Section SortUnique.
Context {A : Type} (leb : A -> A -> bool).

Hypothesis leb_total : forall a b, leb a b = false -> leb b a = true.
Hypothesis leb_trans :
  forall a b c, leb a b = true -> leb b c = true -> leb a c = true.
Hypothesis leb_antisym : forall a b, leb a b = true -> leb b a = true -> a = b.

Lemma leb_refl (a : A) : leb a a = true.
Proof.
  pose proof (@leb_total a a) as H.
  destruct (leb a a); [reflexivity | exact (H eq_refl)].
Qed.

Lemma sorted_perm_unique (l1 l2 : list A) :
  StronglySorted (fun a b => leb a b = true) l1 ->
  StronglySorted (fun a b => leb a b = true) l2 ->
  Permutation l1 l2 -> l1 = l2.
Proof.
  intros S1. revert l2. induction S1 as [|x l1 S1 IH Hx]; intros l2 S2 P.
  - apply Permutation_nil in P. now subst.
  - destruct S2 as [|y l2 S2 Hy].
    + apply Permutation_sym, Permutation_nil in P. discriminate.
    + rewrite Forall_forall in Hx, Hy.
      assert (E : x = y).
      { apply leb_antisym.
        - assert (H : In y (x :: l1)).
          { apply Permutation_in with (y :: l2); [now symmetry | now left]. }
          destruct H as [->|H]; [apply leb_refl | now apply Hx].
        - assert (H : In x (y :: l2)).
          { apply Permutation_in with (x :: l1); [exact P | now left]. }
          destruct H as [->|H]; [apply leb_refl | now apply Hy]. }
      subst y. f_equal. apply IH; [exact S2|].
      now apply Permutation_cons_inv with x.
Qed.

Lemma Array_sort_perm_eq (l l' : list A) :
  Permutation l l' -> Array_sort leb l = Array_sort leb l'.
Proof.
  intros P. apply sorted_perm_unique.
  - now apply Array_sort_sorted.
  - now apply Array_sort_sorted.
  - rewrite !Array_sort_perm. exact P.
Qed.

End SortUnique.

Lemma string_leb_le (a b : string) :
  String.leb a b = true <-> nameLe codeUnitCompare a b.
Proof.
  rewrite codeUnitCompare_le. unfold String.leb.
  destruct (String.compare a b); split; intros H;
    try reflexivity; try discriminate. now elim H.
Qed.

Lemma string_leb_total (a b : string) :
  String.leb a b = false -> String.leb b a = true.
Proof.
  intros H. destruct (String.leb_total a b) as [T|T]; [congruence | exact T].
Qed.

Lemma string_leb_trans (a b c : string) :
  String.leb a b = true -> String.leb b c = true -> String.leb a c = true.
Proof. rewrite !string_leb_le. apply codeUnitCompare_trans. Qed.

Lemma sort_strings_perm (l l' : list string) :
  Permutation l l' -> Array_sort String.leb l = Array_sort String.leb l'.
Proof.
  apply Array_sort_perm_eq.
  - apply string_leb_total.
  - apply string_leb_trans.
  - apply String.leb_antisym.
Qed.

(** ** More on the archetype classifier *)

Lemma triggered_ext (names names' conds : list string) :
  (forall n, In n names <-> In n names') ->
  Royale.triggered names conds = Royale.triggered names' conds.
Proof.
  intros H. destruct (Royale.triggered names' conds) eqn:E.
  - apply triggered_spec in E. apply triggered_spec.
    destruct E as (wc & H1 & H2). exists wc. split; [exact H1 | now apply H].
  - apply triggered_false in E. apply triggered_false.
    intros (wc & H1 & H2). apply E. exists wc. split; [exact H1 | now apply H].
Qed.

Lemma classify_ext (entries : list (string * list string))
      (names names' : list string) :
  (forall n, In n names <-> In n names') ->
  Royale.classify entries names = Royale.classify entries names'.
Proof.
  intros H. induction entries as [|[a c] rest IH]; simpl; [reflexivity|].
  now rewrite (triggered_ext _ _ c H), IH.
Qed.

(** X1: the archetype of a deck depends only on the set of its card
    names: neither the order of the cards nor repeated cards matter. *)
Theorem getArchetype_depends_on_name_set (cs cs' : list Card) :
  (forall n, In n (map name cs) <-> In n (map name cs')) ->
  Royale.getArchetype cs = Royale.getArchetype cs'.
Proof. intros H. unfold Royale.getArchetype. now apply classify_ext. Qed.

Lemma getArchetype_depends_on_name_set_witness :
  Royale.getArchetype Sample.balloonMiner
  = Royale.getArchetype MoreSamples.balloonMinerTwice.
Proof.
  apply getArchetype_depends_on_name_set.
  intros n. unfold MoreSamples.balloonMinerTwice.
  rewrite map_app, in_app_iff, map_rev, <- in_rev. tauto.
Defined.

Lemma classify_range (entries : list (string * list string)) (names : list string) :
  In (Royale.classify entries names) ("Unknown" :: map fst entries).
Proof.
  induction entries as [|[a c] rest IH]; simpl; [now left|].
  destruct (Royale.triggered names c); [right; now left|].
  simpl in IH. destruct IH as [IH|IH]; [now left | right; now right].
Qed.

Lemma classify_unknown (entries : list (string * list string))
      (names : list string) :
  ~ In "Unknown" (map fst entries) ->
  Royale.classify entries names = "Unknown" ->
  forall e, In e entries -> ~ intersects (snd e) names.
Proof.
  induction entries as [|[a c] rest IH]; simpl; intros N H e He; [destruct He|].
  destruct (Royale.triggered names c) eqn:T.
  - subst a. elim N. now left.
  - destruct He as [<-|He].
    + now apply triggered_false.
    + apply IH; trivial. intros Hin. apply N. now right.
Qed.

(** X2: [getArchetype] always answers with "Unknown" or one of the seven
    labels of the table, and it answers "Unknown" exactly when the deck
    holds no trigger card of any entry. *)
Theorem getArchetype_range_and_unknown (cs : list Card) :
  In (Royale.getArchetype cs) archetypeLabels
  /\ (Royale.getArchetype cs = "Unknown"
      <-> forall e, In e Royale.WIN_CONDITIONS ->
                    ~ intersects (snd e) (map name cs)).
Proof.
  unfold Royale.getArchetype, archetypeLabels. rewrite WIN_CONDITIONS_entries.
  split; [apply classify_range|]. split.
  - apply classify_unknown. simpl. intuition discriminate.
  - apply classify_none.
Qed.

Lemma classify_monotone (entries : list (string * list string))
      (names more : list string) (i : nat) (conds : list string) :
  nth_error entries i = Some (Royale.classify entries names, conds) ->
  Royale.classify entries names <> "Unknown" ->
  NoDup (map fst entries) ->
  exists j conds',
    (j <= i)%nat
    /\ nth_error entries j
       = Some (Royale.classify entries (names ++ more), conds').
Proof.
  revert i. induction entries as [|[a c] rest IH]; intros i Hi Hu Hnd.
  - now destruct i.
  - simpl in *. inversion Hnd as [|? ? Hnin Hnd']; subst.
    destruct (Royale.triggered (names ++ more) c) eqn:T'.
    + exists 0%nat, c. split; [lia | reflexivity].
    + assert (T : Royale.triggered names c = false).
      { apply triggered_false. apply triggered_false in T'.
        intros (wc & H1 & H2). apply T'. exists wc. split; [exact H1|].
        apply in_or_app. now left. }
      rewrite T in *. destruct i as [|i].
      * simpl in Hi. injection Hi as E _. elim Hnin.
        rewrite E.
        pose proof (classify_range rest names) as R.
        destruct R as [R|R]; [now elim Hu | exact R].
      * simpl in Hi. destruct (IH i Hi Hu Hnd') as (j & conds' & Hj & Ej).
        exists (S j), conds'. split; [lia | exact Ej].
Qed.

(** X3: adding cards to a classified deck never makes it "Unknown" and
    never moves it to a later entry of the table: the new archetype
    stands at the same place or earlier. *)
Theorem getArchetype_more_cards_earlier_entry
        (cs more : list Card) (i : nat) (conds : list string) :
  nth_error Royale.WIN_CONDITIONS i = Some (Royale.getArchetype cs, conds) ->
  exists j conds',
    (j <= i)%nat
    /\ nth_error Royale.WIN_CONDITIONS j
       = Some (Royale.getArchetype (cs ++ more), conds').
Proof.
  intros Hi. unfold Royale.getArchetype in *.
  rewrite WIN_CONDITIONS_entries in *. rewrite map_app.
  apply classify_monotone with conds; trivial.
  - intros E. rewrite E in Hi.
    apply nth_error_In in Hi.
    apply (in_map fst) in Hi. simpl in Hi. intuition discriminate.
  - simpl. repeat constructor; simpl; intuition discriminate.
Qed.

Lemma getArchetype_more_cards_earlier_entry_witness :
  exists j conds',
    (j <= 5)%nat
    /\ nth_error Royale.WIN_CONDITIONS j
       = Some (Royale.getArchetype
                 ([Sample.plainCard "Balloon"] ++ [Sample.plainCard "Miner"]),
               conds').
Proof.
  apply (getArchetype_more_cards_earlier_entry
           [Sample.plainCard "Balloon"] [Sample.plainCard "Miner"] 5 ["Balloon"]).
  reflexivity.
Defined.

(** ** Resolving the self side *)

(** X4: the self side of a battle is missing only when the team is empty;
    otherwise it is a member of the team, it carries the player's tag
    whenever some member does, and it is the first member when none does. *)
Theorem findPlayer_resolution (b : Battle) (playerTag : string) :
  (findPlayer b playerTag = None <-> team b = [])
  /\ (forall p, findPlayer b playerTag = Some p ->
                In p (team b)
                /\ ((exists q, In q (team b) /\ tag q = playerTag) ->
                    tag p = playerTag)
                /\ ((forall q, In q (team b) -> tag q <> playerTag) ->
                    hd_error (team b) = Some p)).
Proof.
  unfold findPlayer.
  destruct (find (fun t => String.eqb (tag t) playerTag) (team b)) as [p0|] eqn:F.
  - apply find_some in F. destruct F as [Hin Ht]. apply String.eqb_eq in Ht.
    split.
    + split; [discriminate|]. intros E. rewrite E in Hin. destruct Hin.
    + intros p Ep. injection Ep as <-. split; [exact Hin|]. split.
      * intros _. exact Ht.
      * intros N. now elim (N p0 Hin).
  - split.
    + destruct (team b); simpl; split; intros H; try reflexivity; discriminate.
    + intros p Ep. split; [|split].
      * destruct (team b) as [|q l]; [discriminate|].
        injection Ep as <-. now left.
      * intros (q & Hq & Tq). apply (find_none _ _ F) in Hq.
        apply String.eqb_neq in Hq. now elim Hq.
      * intros _. exact Ep.
Qed.

Lemma findPlayer_resolution_witness :
  exists p, findPlayer MoreSamples.duo "#P0" = Some p /\ tag p = "#P0".
Proof.
  eexists. split; [reflexivity|].
  apply (proj2 (findPlayer_resolution MoreSamples.duo "#P0")).
  - reflexivity.
  - eexists. split; [right; left; reflexivity | reflexivity].
Defined.

(** ** When the usage statistics are null *)

(** X7: the usage statistics are null exactly when the log holds no
    ladder or path-of-legend battle, whatever else it holds. *)
Theorem usageStats_null_iff_no_ladder_battle
        (localeCompare : string -> string -> Z) (battles : list Battle)
        (playerTag : string) :
  Usage.usageStats localeCompare battles playerTag = Normal None
  <-> filter isLadderOrPoL battles = [].
Proof.
  unfold Usage.usageStats.
  destruct battles as [|b bs]; [simpl; tauto|].
  cbn [List.length Nat.eqb].
  destruct (filter isLadderOrPoL (b :: bs)) as [|v vs]; [simpl; tauto|].
  cbn [List.length Nat.eqb].
  destruct (Usage.aggregate localeCompare playerTag (v :: vs)); simpl;
    split; discriminate.
Qed.

(** ** Evolution and hero variants *)

(** X8: a card is never both an evolution and a hero; a nonzero level
    decides alone (1 is an evolution, 2 a hero, anything else neither,
    whatever the icon says), and only a level that is absent or zero lets
    the icon address decide, "evo" being looked for before "hero". *)
Theorem variantFlags_level_then_icon (c : Card) :
  fst (Usage.variantFlags c) && snd (Usage.variantFlags c) = false
  /\ (forall k, evolutionLevel c = Some k -> k <> 0 ->
                Usage.variantFlags c = (k =? 1, k =? 2))
  /\ (orZero (evolutionLevel c) = 0 ->
      Usage.variantFlags c
      = (includes "evo" (medium (iconUrls c)),
         negb (includes "evo" (medium (iconUrls c)))
         && includes "hero" (medium (iconUrls c)))).
Proof.
  unfold Usage.variantFlags. split; [|split].
  - destruct (orZero (evolutionLevel c) =? 0) eqn:E0.
    + apply Z.eqb_eq in E0. rewrite E0. simpl.
      destruct (includes "evo" _); [reflexivity|].
      destruct (includes "hero" _); reflexivity.
    + destruct (orZero (evolutionLevel c) =? 1) eqn:E1; simpl; [reflexivity|].
      reflexivity.
  - intros k Ek Nk. rewrite Ek. simpl.
    destruct (k =? 0) eqn:E0; [apply Z.eqb_eq in E0; now elim Nk|].
    destruct (k =? 1) eqn:E1; simpl; [|reflexivity].
    apply Z.eqb_eq in E1. subst k. reflexivity.
  - intros E. rewrite E. simpl.
    destruct (includes "evo" _); [reflexivity|].
    destruct (includes "hero" _); reflexivity.
Qed.

Lemma variantFlags_level_then_icon_witness :
  Usage.variantFlags MoreSamples.evoKnight = (true, false)
  /\ Usage.variantFlags MoreSamples.heroGiant = (false, true).
Proof.
  split.
  - apply (proj1 (proj2 (variantFlags_level_then_icon MoreSamples.evoKnight)) 1);
      [reflexivity | lia].
  - apply (proj2 (proj2 (variantFlags_level_then_icon MoreSamples.heroGiant))).
    reflexivity.
Defined.

Lemma hasColon_append (a b : string) :
  hasColon (String.append a b) = hasColon a || hasColon b.
Proof.
  induction a as [|x a IH]; simpl; [reflexivity|].
  now rewrite IH, orb_assoc.
Qed.

Lemma hasColon_concat (sep x : string) (l : list string) :
  In x l -> hasColon x = true -> hasColon (String.concat sep l) = true.
Proof.
  induction l as [|y l IH]; intros Hin Hx; [destruct Hin|].
  destruct l as [|z l].
  - destruct Hin as [->|[]]. exact Hx.
  - change (String.concat sep (y :: z :: l))
      with (String.append y (String.append sep (String.concat sep (z :: l)))).
    rewrite !hasColon_append. destruct Hin as [->|Hin].
    + now rewrite Hx.
    + rewrite (IH Hin Hx). now rewrite !orb_true_r.
Qed.

Lemma variantParts_colon (c : Card) (p : string) :
  In p (Usage.variantParts c) -> hasColon p = true.
Proof.
  unfold Usage.variantParts. destruct (Usage.variantFlags c) as [[|] [|]];
    simpl; intros H; repeat (destruct H as [<-|H]); try destruct H;
    rewrite hasColon_append; apply orb_true_r.
Qed.

Lemma variantParts_nil (c : Card) :
  Usage.variantParts c = [] <-> Usage.variantFlags c = (false, false).
Proof.
  unfold Usage.variantParts. destruct (Usage.variantFlags c) as [[|] [|]];
    simpl; split; intros H; try reflexivity; discriminate.
Qed.

(** X9: the variant key of a deck is "BASE" exactly when none of its cards
    is an evolution or a hero. *)
Theorem variantKey_base_iff_no_variant (sortedCards : list Card) :
  Usage.variantKey sortedCards = "BASE"
  <-> forall c, In c sortedCards -> Usage.variantFlags c = (false, false).
Proof.
  unfold Usage.variantKey, join.
  set (parts := flat_map Usage.variantParts sortedCards).
  destruct parts as [|p ps] eqn:E.
  - simpl. split; [|reflexivity]. intros _ c Hc.
    apply variantParts_nil. unfold parts in E.
    destruct (Usage.variantParts c) as [|q qs] eqn:Q; [reflexivity|].
    assert (Hq : In q (flat_map Usage.variantParts sortedCards)).
    { apply in_flat_map. exists c. split; [exact Hc|]. rewrite Q. now left. }
    rewrite E in Hq. destruct Hq.
  - assert (Hp : In p (flat_map Usage.variantParts sortedCards)).
    { fold parts. rewrite E. now left. }
    assert (Col : hasColon (String.concat "|" (Array_sort String.leb (p :: ps)))
                  = true).
    { apply hasColon_concat with p.
      - apply Array_sort_In. now left.
      - apply in_flat_map in Hp. destruct Hp as (c & _ & Hc).
        now apply variantParts_colon with c. }
    split.
    + intros H. exfalso.
      destruct (String.eqb _ "") eqn:Emp.
      * apply String.eqb_eq in Emp. rewrite Emp in Col. discriminate.
      * rewrite H in Col. discriminate.
    + intros H. exfalso. apply in_flat_map in Hp.
      destruct Hp as (c & Hc & Hpc). apply H in Hc.
      apply variantParts_nil in Hc. rewrite Hc in Hpc. destruct Hpc.
Qed.

(** X10: the variant key does not depend on the order of the cards it is
    computed from. *)
Theorem variantKey_permutation_invariant (l l' : list Card) :
  Permutation l l' -> Usage.variantKey l = Usage.variantKey l'.
Proof.
  intros P. unfold Usage.variantKey.
  rewrite (sort_strings_perm (flat_map Usage.variantParts l)
                             (flat_map Usage.variantParts l')); [reflexivity|].
  now apply Permutation_flat_map.
Qed.

Lemma variantKey_permutation_invariant_witness :
  Usage.variantKey MoreSamples.variantDeck = "Giant:HERO|Knight:EVO"
  /\ Usage.variantKey (rev MoreSamples.variantDeck) = "Giant:HERO|Knight:EVO".
Proof.
  split; [reflexivity|].
  rewrite <- (variantKey_permutation_invariant
                MoreSamples.variantDeck (rev MoreSamples.variantDeck)).
  - reflexivity.
  - apply Permutation_rev.
Defined.

(** ** The key of an opposing deck *)

(** X11: the key under which the matchup statistics file an opposing deck
    does not depend on the order in which the opponent lists the cards. *)
Theorem matchup_deckKey_permutation_invariant (cs cs' : list Card) :
  Permutation cs cs' -> Matchup.deckKey cs = Matchup.deckKey cs'.
Proof.
  intros P. unfold Matchup.deckKey.
  rewrite (sort_strings_perm (map name cs) (map name cs')); [reflexivity|].
  now apply Permutation_map.
Qed.

Lemma matchup_deckKey_permutation_invariant_witness :
  Matchup.deckKey Sample.lavaLoon = Matchup.deckKey (rev Sample.lavaLoon).
Proof.
  apply matchup_deckKey_permutation_invariant. apply Permutation_rev.
Defined.

(** ** The shape of the decks on file *)

Lemma NoDup_firstn {A : Type} (n : nat) (l : list A) :
  NoDup l -> NoDup (firstn n l).
Proof.
  intros H. rewrite <- (firstn_skipn n l) in H.
  now apply NoDup_app_remove_r in H.
Qed.

Lemma sortedCards_firstn (localeCompare : string -> string -> Z) (cs : list Card) :
  Usage.sortedCards localeCompare cs
  = firstn 8 (Array_sort (fun a b => localeCompare (name a) (name b) <=? 0)
                         (Map_values (Usage.uniqueCardsMap cs))).
Proof.
  unfold Usage.sortedCards, slice0.
  destruct (8 <? List.length _)%nat eqn:L; [reflexivity|].
  apply Nat.ltb_ge in L. symmetry. now apply firstn_all_le.
Qed.

Lemma deckNames_bounds (localeCompare : string -> string -> Z) (cs : list Card) :
  (List.length (Usage.deckNames localeCompare cs) <= 8)%nat
  /\ NoDup (Usage.deckNames localeCompare cs)
  /\ (forall n, In n (Usage.deckNames localeCompare cs) -> In n (map name cs)).
Proof.
  unfold Usage.deckNames. rewrite sortedCards_firstn, <- firstn_map.
  destruct (uniqueCardsMap_spec cs) as (Knd & _ & Kin).
  set (sorted := Array_sort _ (Map_values (Usage.uniqueCardsMap cs))).
  assert (P : Permutation (map name sorted) (map fst (Usage.uniqueCardsMap cs))).
  { rewrite <- uniqueCardsMap_names. apply Permutation_map, Array_sort_perm. }
  split; [apply firstn_le_length|]. split.
  - apply NoDup_firstn. eapply Permutation_NoDup; [symmetry; exact P | exact Knd].
  - intros n Hn. apply Kin. eapply Permutation_in; [exact P|].
    now apply firstn_incl in Hn.
Qed.

Lemma processCard_name (c : Card) : name (Usage.processCard c) = name c.
Proof.
  unfold Usage.processCard. now destruct (Usage.variantFlags c).
Qed.

Lemma processed_names (l : list Card) :
  map name (map Usage.processCard l) = map name l.
Proof.
  rewrite map_map. apply map_ext. apply processCard_name.
Qed.

Lemma processed_deck_shaped (localeCompare : string -> string -> Z)
      (cs : list Card) (key : string) :
  Usage.deckKey localeCompare cs = Some key ->
  deckShaped (map Usage.processCard (Usage.sortedCards localeCompare cs))
  /\ join "," (map name (map Usage.processCard
                                (Usage.sortedCards localeCompare cs))) = key.
Proof.
  unfold Usage.deckKey. intros H.
  destruct (List.length (Usage.sortedCards localeCompare cs) =? 0)%nat eqn:L;
    [discriminate|].
  injection H as <-. apply Nat.eqb_neq in L.
  destruct (deckNames_bounds localeCompare cs) as (B1 & B2 & _).
  unfold Usage.deckNames in *. rewrite length_map in B1.
  unfold deckShaped. rewrite processed_names. split; [|reflexivity].
  split; [|exact B2]. rewrite length_map. lia.
Qed.

Lemma deckBump_filed (isWin : bool) (key vKey : string) (pc : list Card)
      (d : Usage.DeckCount.t) :
  deckShaped pc -> join "," (map name pc) = key ->
  filedUnder key d -> filedUnder key (deckBump isWin vKey pc d).
Proof.
  intros Sh Jn F. unfold filedUnder, deckBump, Usage.DeckCount.onVariants.
  destruct isWin; simpl; rewrite update_ensure; [rewrite update_upsert|];
    apply upsert_Forall; trivial; simpl; auto.
Qed.

Lemma countDeck_filed (isWin : bool) (key vKey : string) (pc : list Card)
      (o : Obj Usage.DeckCount.t) :
  deckShaped pc -> join "," (map name pc) = key ->
  Forall (fun e => filedUnder (fst e) (snd e)) o ->
  Forall (fun e => filedUnder (fst e) (snd e))
         (Usage.countDeck isWin key vKey pc o).
Proof.
  intros Sh Jn. rewrite countDeck_upsert.
  induction 1 as [|[k d] o Hd Ho IH]; simpl.
  - repeat constructor. simpl. apply deckBump_filed; trivial. constructor.
  - destruct (String.eqb_spec k key) as [->|N]; constructor; simpl; trivial.
    now apply deckBump_filed.
Qed.

Lemma usage_aggregate_filed (localeCompare : string -> string -> Z)
      (playerTag : string) (bs : list Battle) (t : Usage.Tables) :
  Usage.aggregate localeCompare playerTag bs = Normal t ->
  Forall (fun e => filedUnder (fst e) (snd e)) (Usage.deckCounts t).
Proof.
  apply (forEachM_invariant
           (fun st => Forall (fun e => filedUnder (fst e) (snd e))
                             (Usage.deckCounts st))); [|constructor].
  intros st b st' Inv. unfold Usage.battleStep.
  destruct (findPlayer b playerTag) as [p|]; [|discriminate].
  destruct (hd_error (opponent b)) as [q|]; [|discriminate].
  destruct (cards p) as [cs|]; [|intros H; now injection H as <-].
  destruct (Usage.deckKey localeCompare cs) as [key|] eqn:K;
    intros H; injection H as <-; simpl; [|exact Inv].
  destruct (processed_deck_shaped localeCompare cs key K) as [Sh Jn].
  now apply countDeck_filed.
Qed.

Lemma fold_left_members {A S : Type} (P : S -> Prop) (Q : A -> Prop)
      (f : S -> A -> S) (l : list A) (s : S) :
  (forall x, In x l -> Q x) ->
  (forall s x, Q x -> P s -> P (f s x)) ->
  P s -> P (fold_left f l s).
Proof.
  intros HQ Hf. revert s. induction l as [|x l IH]; simpl; intros s Hs;
    [exact Hs|].
  apply IH; [intros y Hy; apply HQ; now right|].
  apply Hf; [apply HQ; now left | exact Hs].
Qed.

Lemma bestVariant_In (vs : list Usage.VariantCount.t) (cs : list Card) :
  Usage.bestVariant vs = Some cs ->
  exists v, In v vs /\ Usage.VariantCount.cards v = cs.
Proof.
  unfold Usage.bestVariant, forEach. revert cs.
  apply (fold_left_members
           (fun st => forall cs, fst (fst st) = Some cs ->
                        exists v, In v vs /\ Usage.VariantCount.cards v = cs)
           (fun x => In x vs)).
  - trivial.
  - intros [[bv mc] mw] x Hx Hst. unfold Usage.variantStep.
    destruct (_ || _); [|exact Hst].
    simpl. intros cs0 E. injection E as <-. now exists x.
  - simpl. discriminate.
Qed.

Lemma findMostUsedDeck_In (items : list Usage.DeckCount.t) (cs : list Card) :
  Usage.mostUsedDeck (Usage.findMostUsedDeck items) = Some cs ->
  exists d v, In d items
              /\ In v (Object_values (Usage.DeckCount.variants d))
              /\ Usage.VariantCount.cards v = cs.
Proof.
  unfold Usage.findMostUsedDeck, forEach. revert cs.
  apply (fold_left_members
           (fun st => forall cs, Usage.mostUsedDeck st = Some cs ->
                        exists d v, In d items
                          /\ In v (Object_values (Usage.DeckCount.variants d))
                          /\ Usage.VariantCount.cards v = cs)
           (fun x => In x items)).
  - trivial.
  - intros st x Hx Hst. unfold Usage.deckStep.
    destruct (_ || _); [|exact Hst].
    simpl. intros cs0 E. apply bestVariant_In in E.
    destruct E as (v & Hv & Ev). now exists x, v.
  - simpl. discriminate.
Qed.

(** X5: every variant on file stores a deck of 1 to 8 cards with distinct
    names whose names, joined, are the key of its bucket; in particular
    the most used deck that is reported has from 1 to 8 cards, no two
    with the same name. *)
Theorem reported_deck_has_at_most_8_distinct_cards
        (localeCompare : string -> string -> Z) (battles : list Battle)
        (playerTag : string) (s : Usage.Stats) :
  Usage.usageStats localeCompare battles playerTag = Normal (Some s) ->
  exists t,
    Usage.aggregate localeCompare playerTag (filter isLadderOrPoL battles)
    = Normal t
    /\ (forall k d, In (k, d) (Usage.deckCounts t) -> filedUnder k d)
    /\ (forall cs, Usage.mostUsedDeck (Usage.deck s) = Some cs -> deckShaped cs).
Proof.
  intros H. destruct (usageStats_inv _ _ _ H) as (t & Ht & _ & _ & Hd & _).
  exists t. split; [exact Ht|].
  pose proof (usage_aggregate_filed _ _ _ _ Ht) as F.
  rewrite Forall_forall in F.
  split; [intros k d Hin; exact (F (k, d) Hin)|].
  intros cs E. rewrite Hd in E. apply findMostUsedDeck_In in E.
  destruct E as (d & v & Hd' & Hv & <-).
  apply Object_values_sub in Hd'. apply in_map_iff in Hd'.
  destruct Hd' as ([k d0] & E0 & Hin). simpl in E0. subst d0.
  pose proof (F (k, d) Hin) as Fd. unfold filedUnder in Fd. simpl in Fd.
  rewrite Forall_forall in Fd. apply Object_values_sub in Hv.
  now destruct (Fd v Hv).
Qed.

Lemma reported_deck_has_at_most_8_distinct_cards_witness :
  exists s,
    Usage.usageStats codeUnitCompare Sample.log "#P0" = Normal (Some s)
    /\ forall cs, Usage.mostUsedDeck (Usage.deck s) = Some cs -> deckShaped cs.
Proof.
  eexists. split; [vm_compute; reflexivity|].
  destruct (reported_deck_has_at_most_8_distinct_cards
              codeUnitCompare Sample.log "#P0" _ eq_refl) as (t & _ & _ & H).
  exact H.
Defined.

(** ** What the card tables count *)

Section NamedTableFacts.
Context {V : Type} (cnt wins : V -> Z) (cardOf : V -> Card).
Context (init : Card -> V) (bumpC bumpW : V -> V).

Hypothesis init_cnt : forall c, cnt (init c) = 0.
Hypothesis init_wins : forall c, wins (init c) = 0.
Hypothesis init_card : forall c, cardOf (init c) = c.
Hypothesis bumpC_cnt : forall v, cnt (bumpC v) = cnt v + 1.
Hypothesis bumpC_wins : forall v, wins (bumpC v) = wins v.
Hypothesis bumpC_card : forall v, cardOf (bumpC v) = cardOf v.
Hypothesis bumpW_cnt : forall v, cnt (bumpW v) = cnt v.
Hypothesis bumpW_wins : forall v, wins (bumpW v) = wins v + 1.
Hypothesis bumpW_card : forall v, cardOf (bumpW v) = cardOf v.

Let step := countNamed init bumpC bumpW.

Lemma countNamed_upsert (w : bool) (o : Obj V) (c : Card) :
  step w o c
  = upsert (name c) (init c) (fun v => if w then bumpW (bumpC v) else bumpC v) o.
Proof. unfold step, countNamed. apply count_pattern. Qed.

Lemma countNamed_step (w : bool) (n : string) (o : Obj V) (c : Card) :
  tableOk cnt cardOf o ->
  tableOk cnt cardOf (step w o c)
  /\ cntOf cnt n (step w o c)
     = cntOf cnt n o + (if String.eqb (name c) n then 1 else 0)
  /\ winsOfName wins n (step w o c)
     = winsOfName wins n o
       + (if w then (if String.eqb (name c) n then 1 else 0) else 0).
Proof.
  intros [Hnd Hf]. rewrite countNamed_upsert. split; [split|split].
  - now apply upsert_NoDup.
  - apply (upsert_Forall_entries
             (fun k v => name (cardOf v) = k /\ 1 <= cnt v)); trivial.
    + intros k v [H1 H2]. destruct w;
        rewrite ?bumpW_card, ?bumpW_cnt, bumpC_card, bumpC_cnt;
        (split; [exact H1 | lia]).
    + destruct w;
        rewrite ?bumpW_card, ?bumpW_cnt, bumpC_card, bumpC_cnt,
                init_card, init_cnt; (split; [reflexivity | lia]).
  - unfold cntOf. rewrite get_upsert.
    destruct (String.eqb_spec (name c) n) as [<-|N].
    + destruct (get (name c) o), w;
        rewrite ?bumpW_cnt, bumpC_cnt, ?init_cnt; lia.
    + destruct (get n o); lia.
  - unfold winsOfName. rewrite get_upsert.
    destruct (String.eqb_spec (name c) n) as [<-|N].
    + destruct (get (name c) o), w;
        rewrite ?bumpW_wins, bumpC_wins, ?init_wins; lia.
    + destruct (get n o), w; lia.
Qed.

Lemma countNamed_all (w : bool) (n : string) (cs : list Card) (o : Obj V) :
  tableOk cnt cardOf o ->
  tableOk cnt cardOf (forEach (step w) cs o)
  /\ cntOf cnt n (forEach (step w) cs o) = cntOf cnt n o + namedCount n cs
  /\ winsOfName wins n (forEach (step w) cs o)
     = winsOfName wins n o + (if w then namedCount n cs else 0).
Proof.
  unfold forEach. revert o. induction cs as [|c cs IH]; simpl; intros o Ok.
  - rewrite namedCount_nil. split; [exact Ok|]. split; [lia|].
    destruct w; lia.
  - destruct (countNamed_step w n o c Ok) as (Ok1 & C1 & W1).
    destruct (IH _ Ok1) as (Ok2 & C2 & W2).
    split; [exact Ok2|]. rewrite C2, W2, C1, W1, namedCount_cons.
    split; [lia|]. destruct w; lia.
Qed.

(** A table that is in order and holds the right numbers under every name
    counts what it should, bucket by bucket. *)
Lemma tableOk_counts (o : Obj V) (total won : string -> Z) :
  tableOk cnt cardOf o ->
  (forall n, cntOf cnt n o = total n) ->
  (forall n, winsOfName wins n o = won n) ->
  TableCounts cnt wins cardOf o total won.
Proof.
  intros [Hnd Hf] Hc Hw. rewrite Forall_forall in Hf.
  assert (Names : map (fun x => name (cardOf x)) (map snd o) = map fst o).
  { rewrite map_map. apply map_ext_in. intros e He. now destruct (Hf e He). }
  split; [|split].
  - intros x Hx. apply Object_values_sub in Hx. apply in_map_iff in Hx.
    destruct Hx as ([k v] & E & Hin). simpl in E. subst v.
    destruct (Hf _ Hin) as [E1 E2]. simpl in E1, E2.
    rewrite E1, <- Hc, <- Hw. unfold cntOf, winsOfName.
    rewrite (get_In_NoDup k x o Hnd Hin). auto.
  - intros n Hpos. rewrite <- Hc in Hpos. unfold cntOf in Hpos.
    destruct (get n o) as [v|] eqn:G; [|lia].
    apply get_Some_In in G. exists v. split.
    + apply Object_values_In. change v with (snd (n, v)). now apply in_map.
    + now destruct (Hf _ G).
  - eapply Permutation_NoDup.
    + apply Permutation_map. symmetry. apply Object_values_perm.
    + rewrite Names. exact Hnd.
Qed.

End NamedTableFacts.

Lemma usage_battleStep_counts (localeCompare : string -> string -> Z)
      (playerTag n : string) (st st' : Usage.Tables) (b : Battle) :
  Usage.battleStep localeCompare playerTag st b = Normal st' ->
  tableOk Usage.CardCount.count Usage.CardCount.card (Usage.cardCounts st) ->
  tableOk Usage.CardCount.count Usage.CardCount.card (Usage.cardCounts st')
  /\ cntOf Usage.CardCount.count n (Usage.cardCounts st')
     = cntOf Usage.CardCount.count n (Usage.cardCounts st)
       + namedCount n (usageCards playerTag b)
  /\ winsOfName Usage.CardCount.wins n (Usage.cardCounts st')
     = winsOfName Usage.CardCount.wins n (Usage.cardCounts st)
       + (if usageWin playerTag b
          then namedCount n (usageCards playerTag b) else 0).
Proof.
  unfold Usage.battleStep, usageCards, usageWin.
  destruct (findPlayer b playerTag) as [p|]; [|discriminate].
  destruct (hd_error (opponent b)) as [q|]; [|discriminate].
  destruct (cards p) as [cs|].
  - intros H Ok.
    pose proof (countNamed_all
                  Usage.CardCount.count Usage.CardCount.wins Usage.CardCount.card
                  (fun c => {| Usage.CardCount.count := 0;
                               Usage.CardCount.wins := 0;
                               Usage.CardCount.card := c |})
                  Usage.CardCount.incrCount Usage.CardCount.incrWins
                  (fun _ => eq_refl) (fun _ => eq_refl) (fun _ => eq_refl)
                  (fun _ => eq_refl) (fun _ => eq_refl) (fun _ => eq_refl)
                  (fun _ => eq_refl) (fun _ => eq_refl) (fun _ => eq_refl)
                  (orZero (crowns q) <? orZero (crowns p)) n cs _ Ok) as R.
    destruct (Usage.deckKey localeCompare cs); injection H as <-; exact R.
  - intros H Ok. injection H as <-. rewrite namedCount_nil.
    split; [exact Ok|]. split; [lia|]. destruct (_ <? _); lia.
Qed.

Lemma usage_aggregate_counts (localeCompare : string -> string -> Z)
      (playerTag n : string) (bs : list Battle) (st t : Usage.Tables) :
  forEachM (Usage.battleStep localeCompare playerTag) bs st = Normal t ->
  tableOk Usage.CardCount.count Usage.CardCount.card (Usage.cardCounts st) ->
  tableOk Usage.CardCount.count Usage.CardCount.card (Usage.cardCounts t)
  /\ cntOf Usage.CardCount.count n (Usage.cardCounts t)
     = cntOf Usage.CardCount.count n (Usage.cardCounts st)
       + namedCount n (flat_map (usageCards playerTag) bs)
  /\ winsOfName Usage.CardCount.wins n (Usage.cardCounts t)
     = winsOfName Usage.CardCount.wins n (Usage.cardCounts st)
       + namedCount n (flat_map (usageCards playerTag)
                                (filter (usageWin playerTag) bs)).
Proof.
  revert st. induction bs as [|b bs IH]; intros st H Ok.
  - simpl in H. injection H as <-. cbn [flat_map filter].
    rewrite namedCount_nil. split; [exact Ok|]. split; lia.
  - simpl in H.
    destruct (Usage.battleStep localeCompare playerTag st b) as [st1|e] eqn:E;
      simpl in H; [|discriminate].
    destruct (usage_battleStep_counts _ _ n _ _ _ E Ok) as (Ok1 & C1 & W1).
    destruct (IH st1 H Ok1) as (Ok2 & C2 & W2).
    split; [exact Ok2|]. rewrite C2, W2, C1, W1. cbn [flat_map filter].
    rewrite namedCount_app. split; [lia|].
    destruct (usageWin playerTag b); cbn [flat_map];
      rewrite ?namedCount_app; lia.
Qed.

(** X6: when the usage loop completes, its card table holds one bucket
    per card name fielded by the self side; the count of a bucket is the
    number of times a card of that name was listed over the battles, and
    its wins the number of those listings in battles won. *)
Theorem usage_card_table_counts (localeCompare : string -> string -> Z)
        (playerTag : string) (bs : list Battle) (t : Usage.Tables) :
  Usage.aggregate localeCompare playerTag bs = Normal t ->
  TableCounts Usage.CardCount.count Usage.CardCount.wins Usage.CardCount.card
              (Usage.cardCounts t)
              (fun n => namedCount n (flat_map (usageCards playerTag) bs))
              (fun n => namedCount n (flat_map (usageCards playerTag)
                                               (filter (usageWin playerTag) bs))).
Proof.
  intros H.
  assert (Ok0 : tableOk Usage.CardCount.count Usage.CardCount.card
                        (Usage.cardCounts Usage.emptyTables))
    by (split; constructor).
  apply tableOk_counts.
  - now destruct (usage_aggregate_counts _ _ "" _ _ _ H Ok0).
  - intros n. destruct (usage_aggregate_counts _ _ n _ _ _ H Ok0) as (_ & C & _).
    rewrite C. unfold cntOf. simpl. lia.
  - intros n. destruct (usage_aggregate_counts _ _ n _ _ _ H Ok0) as (_ & _ & W).
    rewrite W. unfold winsOfName. simpl. lia.
Qed.

Lemma usage_card_table_counts_witness :
  exists t,
    Usage.aggregate codeUnitCompare "#P0" (filter isLadderOrPoL Sample.log)
    = Normal t
    /\ TableCounts Usage.CardCount.count Usage.CardCount.wins
                   Usage.CardCount.card (Usage.cardCounts t)
                   (fun n => namedCount n
                               (flat_map (usageCards "#P0")
                                         (filter isLadderOrPoL Sample.log)))
                   (fun n => namedCount n
                               (flat_map (usageCards "#P0")
                                         (filter (usageWin "#P0")
                                                 (filter isLadderOrPoL Sample.log)))).
Proof.
  eexists. split; [vm_compute; reflexivity|].
  apply (usage_card_table_counts codeUnitCompare). vm_compute. reflexivity.
Defined.

(** ** What the matchup loop adds up *)

Lemma sumOf_perm {A : Type} (f : A -> Z) (l l' : list A) :
  Permutation l l' -> sumOf f l = sumOf f l'.
Proof.
  induction 1; simpl; try lia.
Qed.

Lemma sumOf_upsert {V : Type} (g : V -> Z) (delta : Z) (k : string) (init : V)
      (f : V -> V) (o : Obj V) :
  (forall v, g (f v) = g v + delta) -> g (f init) = delta ->
  sumOf g (map snd (upsert k init f o)) = sumOf g (map snd o) + delta.
Proof.
  intros Hf Hi. induction o as [|[k' v] o IH]; simpl.
  - lia.
  - destruct (String.eqb k' k); simpl; [rewrite Hf | rewrite IH]; lia.
Qed.

Lemma countIf_cons {A : Type} (p : A -> bool) (x : A) (l : list A) :
  countIf p (x :: l) = oneIf (p x) + countIf p l.
Proof.
  unfold countIf, oneIf. cbn [filter].
  destruct (p x); cbn [List.length]; [rewrite Nat2Z.inj_succ|]; lia.
Qed.

Lemma countIf_nil {A : Type} (p : A -> bool) : countIf p [] = 0.
Proof. reflexivity. Qed.

Lemma gtNum_asym (a b : option Z) :
  Matchup.gtNum a b = true -> Matchup.gtNum b a = false.
Proof.
  destruct a as [x|], b as [y|]; simpl; try discriminate.
  rewrite Z.ltb_lt, Z.ltb_ge. lia.
Qed.

(** What one turn of the matchup loop does. *)
Lemma matchup_battleStep_cases (playerTag : string) (st st' : Matchup.Tables)
      (b : Battle) :
  Matchup.battleStep playerTag st b = Normal st' ->
  (matchupCounted playerTag b = false /\ st' = st)
  \/ (matchupCounted playerTag b = true
      /\ exists p q cs,
          findPlayer b playerTag = Some p
          /\ hd_error (opponent b) = Some q
          /\ cards q = Some cs
          /\ Matchup.cardStats st'
             = forEach (Matchup.countFaced (matchupWin playerTag b)) cs
                       (Matchup.cardStats st)
          /\ Matchup.deckStats st'
             = Matchup.countDeck (matchupWin playerTag b) cs (Matchup.deckStats st)
          /\ Matchup.archetypeStats st'
             = Matchup.countArchetype (matchupWin playerTag b) cs
                                      (Matchup.archetypeStats st)
          /\ Matchup.totalBattles st' = Matchup.totalBattles st + 1
          /\ Matchup.higherTrophiesFaced st'
             = Matchup.higherTrophiesFaced st + oneIf (trophyHigher playerTag b)
          /\ Matchup.higherTrophiesWins st'
             = Matchup.higherTrophiesWins st
               + oneIf (trophyHigher playerTag b && matchupWin playerTag b)
          /\ Matchup.lowerTrophiesFaced st'
             = Matchup.lowerTrophiesFaced st + oneIf (trophyLower playerTag b)
          /\ Matchup.lowerTrophiesWins st'
             = Matchup.lowerTrophiesWins st
               + oneIf (trophyLower playerTag b && matchupWin playerTag b)).
Proof.
  unfold Matchup.battleStep, matchupCounted, matchupWin, trophyHigher,
    trophyLower, matchupCounted.
  destruct (isLadderOrPoL b); simpl;
    [|intros H; injection H as <-; now left].
  destruct (findPlayer b playerTag) as [p|];
    [|intros H; injection H as <-; now left].
  destruct (hd_error (opponent b)) as [q|];
    [|intros H; injection H as <-; now left].
  destruct (cards q) as [cs|] eqn:Ec; [|discriminate].
  intros H. injection H as <-. right. split; [reflexivity|].
  exists p, q, cs. simpl.
  repeat (split; [reflexivity|]).
  pose proof (gtNum_asym (startingTrophies q) (startingTrophies p)) as A.
  destruct (Matchup.truthyNum (startingTrophies p)),
           (Matchup.truthyNum (startingTrophies q)),
           (Matchup.gtNum (crowns p) (crowns q)),
           (Matchup.gtNum (startingTrophies q) (startingTrophies p)),
           (Matchup.gtNum (startingTrophies p) (startingTrophies q));
    simpl in *; repeat split; try reflexivity; try assumption; try lia;
    try discriminate (A eq_refl).
Qed.

Ltac z_list_eq :=
  cbn [map combine fst snd];
  repeat (apply (f_equal2 (@cons Z));
          [first [lia | unfold oneIf; cbn [andb]; lia]|]);
  reflexivity.

Lemma matchup_battleStep_measure (playerTag : string) (st st' : Matchup.Tables)
      (b : Battle) :
  Matchup.battleStep playerTag st b = Normal st' ->
  matchupMeasure st' = addZ (matchupMeasure st) (matchupDelta playerTag b).
Proof.
  intros H. apply matchup_battleStep_cases in H.
  unfold matchupMeasure, matchupDelta, addZ.
  destruct H as [[C ->]|(C & p & q & cs & _ & _ & _ & _ & Ed & Ea & E1 & E2 & E3 & E4 & E5)].
  - assert (W : matchupWin playerTag b = false)
      by (unfold matchupWin; now rewrite C).
    assert (Hh : trophyHigher playerTag b = false)
      by (unfold trophyHigher; now rewrite C).
    assert (Hl : trophyLower playerTag b = false)
      by (unfold trophyLower; now rewrite C).
    rewrite C, W, Hh, Hl. z_list_eq.
  - rewrite Ed, Ea, E1, E2, E3, E4, E5, C.
    unfold Matchup.countDeck, Matchup.countArchetype. cbv zeta.
    rewrite !count_pattern.
    rewrite (sumOf_upsert Matchup.ArchetypeStat.faced 1),
            (sumOf_upsert Matchup.ArchetypeStat.wins
                          (oneIf (matchupWin playerTag b))),
            (sumOf_upsert Matchup.DeckStat.faced 1),
            (sumOf_upsert Matchup.DeckStat.wins
                          (oneIf (matchupWin playerTag b)));
      try (intros; destruct (matchupWin playerTag b); simpl; lia);
      try (destruct (matchupWin playerTag b); simpl; lia).
    z_list_eq.
Qed.

Lemma matchup_aggregate_measure (playerTag : string) (bs : list Battle)
      (st t : Matchup.Tables) :
  forEachM (Matchup.battleStep playerTag) bs st = Normal t ->
  matchupMeasure t
  = addZ (matchupMeasure st)
         [ countIf (matchupCounted playerTag) bs;
           countIf (matchupCounted playerTag) bs;
           countIf (matchupWin playerTag) bs;
           countIf (matchupCounted playerTag) bs;
           countIf (matchupWin playerTag) bs;
           countIf (trophyHigher playerTag) bs;
           countIf (fun b => trophyHigher playerTag b && matchupWin playerTag b) bs;
           countIf (trophyLower playerTag) bs;
           countIf (fun b => trophyLower playerTag b && matchupWin playerTag b) bs ].
Proof.
  revert st. induction bs as [|b bs IH]; intros st H; simpl in H.
  - injection H as <-. unfold matchupMeasure, addZ. rewrite !countIf_nil.
    z_list_eq.
  - destruct (Matchup.battleStep playerTag st b) as [st1|e] eqn:E;
      simpl in H; [|discriminate].
    rewrite (IH st1 H), (matchup_battleStep_measure _ _ _ _ E).
    rewrite !countIf_cons. unfold matchupMeasure, matchupDelta, addZ.
    z_list_eq.
Qed.

Lemma trophy_exclusive (playerTag : string) (b : Battle) :
  trophyHigher playerTag b || trophyLower playerTag b = true ->
  matchupCounted playerTag b = true.
Proof.
  unfold trophyHigher, trophyLower.
  destruct (matchupCounted playerTag b); [reflexivity | simpl; discriminate].
Qed.

Lemma trophy_not_both (playerTag : string) (b : Battle) :
  trophyHigher playerTag b && trophyLower playerTag b = false.
Proof.
  unfold trophyHigher, trophyLower.
  destruct (matchupCounted playerTag b); [simpl|reflexivity].
  destruct (findPlayer b playerTag) as [p|]; [|reflexivity].
  destruct (hd_error (opponent b)) as [q|]; [|reflexivity].
  pose proof (gtNum_asym (startingTrophies q) (startingTrophies p)) as A.
  destruct (Matchup.truthyNum (startingTrophies p)),
           (Matchup.truthyNum (startingTrophies q)),
           (Matchup.gtNum (startingTrophies q) (startingTrophies p)),
           (Matchup.gtNum (startingTrophies p) (startingTrophies q));
    simpl; try reflexivity. discriminate (A eq_refl).
Qed.

Lemma countIf_disjoint {A : Type} (p q r : A -> bool) (l : list A) :
  (forall x, p x && q x = false) ->
  (forall x, p x || q x = true -> r x = true) ->
  countIf p l + countIf q l <= countIf r l.
Proof.
  intros Hd Hr. induction l as [|x l IH]; [reflexivity|].
  rewrite !countIf_cons. specialize (Hd x). specialize (Hr x). unfold oneIf.
  destruct (p x), (q x), (r x); cbn [andb orb] in *; cbv iota; try lia;
    try congruence; try discriminate (Hr eq_refl).
Qed.

(** X12: when the matchup loop completes, [totalBattles] is the number of
    ladder and path-of-legend battles that have a self side and an
    opponent; the archetype buckets, and the deck buckets, share these
    battles out among them (their faced counts add up to the total, their
    wins to the number of battles won); the trophy-gap buckets count the
    battles whose opponent started strictly higher, respectively strictly
    lower, both sides reporting a nonzero count, and never more than the
    total between them. *)
Theorem matchup_tables_add_up (playerTag : string) (bs : list Battle)
        (t : Matchup.Tables) :
  Matchup.aggregate playerTag bs = Normal t -> MatchupTotals playerTag bs t.
Proof.
  intros H. apply matchup_aggregate_measure in H.
  unfold matchupMeasure, addZ in H. simpl in H.
  injection H as E1 E2 E3 E4 E5 E6 E7 E8 E9.
  unfold MatchupTotals.
  rewrite (sumOf_perm _ _ _ (Object_values_perm (Matchup.archetypeStats t))),
          (sumOf_perm _ _ _ (Object_values_perm (Matchup.archetypeStats t))),
          (sumOf_perm _ _ _ (Object_values_perm (Matchup.deckStats t))),
          (sumOf_perm _ _ _ (Object_values_perm (Matchup.deckStats t))).
  rewrite E1, E2, E3, E4, E5, E6, E7, E8, E9.
  repeat (split; [reflexivity|]).
  apply countIf_disjoint.
  - intros b. apply trophy_not_both.
  - intros b. apply trophy_exclusive.
Qed.

Lemma matchup_tables_add_up_witness :
  exists t,
    Matchup.aggregate "#P0" Sample.log = Normal t
    /\ MatchupTotals "#P0" Sample.log t.
Proof.
  eexists. split; [vm_compute; reflexivity|].
  apply matchup_tables_add_up. vm_compute. reflexivity.
Defined.

Lemma matchup_battleStep_counts (playerTag n : string)
      (st st' : Matchup.Tables) (b : Battle) :
  Matchup.battleStep playerTag st b = Normal st' ->
  tableOk Matchup.CardStat.faced Matchup.CardStat.card (Matchup.cardStats st) ->
  tableOk Matchup.CardStat.faced Matchup.CardStat.card (Matchup.cardStats st')
  /\ cntOf Matchup.CardStat.faced n (Matchup.cardStats st')
     = cntOf Matchup.CardStat.faced n (Matchup.cardStats st)
       + namedCount n (facedCards playerTag b)
  /\ winsOfName Matchup.CardStat.wins n (Matchup.cardStats st')
     = winsOfName Matchup.CardStat.wins n (Matchup.cardStats st)
       + (if matchupWin playerTag b
          then namedCount n (facedCards playerTag b) else 0).
Proof.
  intros H Ok. apply matchup_battleStep_cases in H.
  destruct H as [[C ->]|(C & p & q & cs & Ep & Eq & Ec & Es & _)].
  - unfold facedCards. rewrite C, namedCount_nil.
    split; [exact Ok|]. split; [lia|]. destruct (matchupWin playerTag b); lia.
  - unfold facedCards. rewrite C, Eq, Ec, Es.
    exact (countNamed_all
             Matchup.CardStat.faced Matchup.CardStat.wins Matchup.CardStat.card
             (fun c => {| Matchup.CardStat.faced := 0;
                          Matchup.CardStat.wins := 0;
                          Matchup.CardStat.card := c |})
             Matchup.CardStat.incrFaced Matchup.CardStat.incrWins
             (fun _ => eq_refl) (fun _ => eq_refl) (fun _ => eq_refl)
             (fun _ => eq_refl) (fun _ => eq_refl) (fun _ => eq_refl)
             (fun _ => eq_refl) (fun _ => eq_refl) (fun _ => eq_refl)
             (matchupWin playerTag b) n cs _ Ok).
Qed.

Lemma matchup_aggregate_counts (playerTag n : string) (bs : list Battle)
      (st t : Matchup.Tables) :
  forEachM (Matchup.battleStep playerTag) bs st = Normal t ->
  tableOk Matchup.CardStat.faced Matchup.CardStat.card (Matchup.cardStats st) ->
  tableOk Matchup.CardStat.faced Matchup.CardStat.card (Matchup.cardStats t)
  /\ cntOf Matchup.CardStat.faced n (Matchup.cardStats t)
     = cntOf Matchup.CardStat.faced n (Matchup.cardStats st)
       + namedCount n (flat_map (facedCards playerTag) bs)
  /\ winsOfName Matchup.CardStat.wins n (Matchup.cardStats t)
     = winsOfName Matchup.CardStat.wins n (Matchup.cardStats st)
       + namedCount n (flat_map (facedCards playerTag)
                                (filter (matchupWin playerTag) bs)).
Proof.
  revert st. induction bs as [|b bs IH]; intros st H Ok.
  - simpl in H. injection H as <-. cbn [flat_map filter].
    rewrite namedCount_nil. split; [exact Ok|]. split; lia.
  - simpl in H.
    destruct (Matchup.battleStep playerTag st b) as [st1|e] eqn:E;
      simpl in H; [|discriminate].
    destruct (matchup_battleStep_counts _ n _ _ _ E Ok) as (Ok1 & C1 & W1).
    destruct (IH st1 H Ok1) as (Ok2 & C2 & W2).
    split; [exact Ok2|]. rewrite C2, W2, C1, W1. cbn [flat_map filter].
    rewrite namedCount_app. split; [lia|].
    destruct (matchupWin playerTag b); cbn [flat_map];
      rewrite ?namedCount_app; lia.
Qed.

(** X13: when the matchup loop completes, its card table holds one bucket
    per card name listed by the first opponent of a counted battle; the
    faced count of a bucket is the number of such listings and its wins
    the number of those in battles won. *)
Theorem matchup_card_table_counts (playerTag : string) (bs : list Battle)
        (t : Matchup.Tables) :
  Matchup.aggregate playerTag bs = Normal t ->
  TableCounts Matchup.CardStat.faced Matchup.CardStat.wins Matchup.CardStat.card
              (Matchup.cardStats t)
              (fun n => namedCount n (flat_map (facedCards playerTag) bs))
              (fun n => namedCount n (flat_map (facedCards playerTag)
                                               (filter (matchupWin playerTag) bs))).
Proof.
  intros H.
  assert (Ok0 : tableOk Matchup.CardStat.faced Matchup.CardStat.card
                        (Matchup.cardStats Matchup.emptyTables))
    by (split; constructor).
  apply tableOk_counts.
  - now destruct (matchup_aggregate_counts _ "" _ _ _ H Ok0).
  - intros n. destruct (matchup_aggregate_counts _ n _ _ _ H Ok0) as (_ & C & _).
    rewrite C. unfold cntOf. simpl. lia.
  - intros n. destruct (matchup_aggregate_counts _ n _ _ _ H Ok0) as (_ & _ & W).
    rewrite W. unfold winsOfName. simpl. lia.
Qed.

Lemma matchup_card_table_counts_witness :
  exists t,
    Matchup.aggregate "#P0" Sample.capLog = Normal t
    /\ TableCounts Matchup.CardStat.faced Matchup.CardStat.wins
                   Matchup.CardStat.card (Matchup.cardStats t)
                   (fun n => namedCount n
                               (flat_map (facedCards "#P0") Sample.capLog))
                   (fun n => namedCount n
                               (flat_map (facedCards "#P0")
                                         (filter (matchupWin "#P0") Sample.capLog))).
Proof.
  eexists. split; [vm_compute; reflexivity|].
  apply matchup_card_table_counts. vm_compute. reflexivity.
Defined.

(** ** Easy matchups, most faced cards and decks *)

Lemma highestFirst_le (a b : Matchup.CardStat.t) :
  Matchup.highestFirst a b = true <-> rateLe b a.
Proof.
  unfold Matchup.highestFirst, rateLe. rewrite Qle_bool_iff. apply Qminus_nonpos.
Qed.

Lemma highestFirst_total (a b : Matchup.CardStat.t) :
  Matchup.highestFirst a b = false -> Matchup.highestFirst b a = true.
Proof.
  intros H. apply highestFirst_le. unfold rateLe.
  destruct (Qlt_le_dec (Matchup.winRate b) (Matchup.winRate a)) as [L|L];
    [|exact L].
  apply Qlt_le_weak in L. apply highestFirst_le in L. congruence.
Qed.

Lemma highestFirst_trans (a b c : Matchup.CardStat.t) :
  Matchup.highestFirst a b = true -> Matchup.highestFirst b c = true ->
  Matchup.highestFirst a c = true.
Proof.
  rewrite !highestFirst_le. unfold rateLe. intros H1 H2.
  now apply Qle_trans with (Matchup.winRate b).
Qed.

Lemma easy_spec (x : Matchup.CardStat.t) :
  Matchup.easy x = true
  <-> 3 <= Matchup.CardStat.faced x /\ (1 # 2 <= Matchup.winRate x)%Q.
Proof.
  unfold Matchup.easy. now rewrite andb_true_iff, Z.leb_le, Qle_bool_iff.
Qed.

(** X14: the easy matchups are the first 6, in descending win-rate order,
    of the cards faced 3 times or more with a win rate of one half or
    more; no card is listed both as an easy matchup and as a hardest
    counter, and a card faced 3 times or more passes exactly one of the
    two gates. *)
Theorem easy_matchups_gate_and_cap (cardsArray : list Matchup.CardStat.t) :
  EasySpec cardsArray (Matchup.easyCards cardsArray)
  /\ (forall x, In x (Matchup.easyCards cardsArray) ->
                In x (Matchup.strugglingCards cardsArray) -> False)
  /\ (forall x, 3 <= Matchup.CardStat.faced x ->
                Matchup.easy x = negb (Matchup.struggling x)).
Proof.
  unfold EasySpec, Matchup.easyCards, Matchup.strugglingCards, slice0.
  set (gated := filter Matchup.easy cardsArray).
  set (sorted := Array_sort Matchup.highestFirst gated).
  assert (P : Permutation sorted gated) by apply Array_sort_perm.
  assert (S : StronglySorted (fun a b => rateLe b a) sorted).
  { eapply StronglySorted_weaken;
      [|apply (Array_sort_sorted Matchup.highestFirst
                                 highestFirst_total highestFirst_trans)].
    intros a b. apply highestFirst_le. }
  assert (G : forall x, In x sorted <->
                        In x cardsArray /\ Matchup.easy x = true).
  { intros x. unfold gated in P. rewrite <- filter_In.
    split; apply Permutation_in; [exact P | now symmetry]. }
  assert (Excl : forall x, Matchup.easy x = true ->
                           Matchup.struggling x = true -> False).
  { intros x He Hs. apply easy_spec in He. apply struggling_spec in Hs.
    destruct He as [_ He], Hs as [_ Hs]. now apply Qle_not_lt in He. }
  split; [|split].
  - split; [now exists sorted|].
    split; [apply firstn_le_length|]. split.
    + intros x Hx. apply firstn_incl, G in Hx. destruct Hx as [Hin Hs].
      apply easy_spec in Hs. tauto.
    + intros x y Hx Hy Sy Ny.
      assert (Hy' : In y sorted) by (apply G; now split).
      rewrite <- (firstn_skipn 6 sorted) in Hy'. apply in_app_or in Hy'.
      destruct Hy' as [Hy'|Hy']; [now elim Ny|].
      exact (@sorted_prefix_below _ (fun a b => rateLe b a) 6 sorted x y S Hx Hy').
  - intros x He Hs. apply firstn_incl, G in He. apply firstn_incl in Hs.
    apply Array_sort_In, filter_In in Hs. apply (Excl x); tauto.
  - intros x F. unfold Matchup.easy, Matchup.struggling.
    apply Z.leb_le in F. rewrite F. simpl. unfold Qgtb.
    now rewrite negb_involutive.
Qed.

Section TopFacedFacts.
Context {A : Type} (faced : A -> Z).

Let byFaced (a b : A) : bool := faced b - faced a <=? 0.

Lemma byFaced_total (a b : A) : byFaced a b = false -> byFaced b a = true.
Proof. unfold byFaced. rewrite Z.leb_gt, Z.leb_le. lia. Qed.

Lemma byFaced_trans (a b c : A) :
  byFaced a b = true -> byFaced b c = true -> byFaced a c = true.
Proof. unfold byFaced. rewrite !Z.leb_le. lia. Qed.

Lemma topFaced_holds (k : nat) (items : list A) :
  TopFaced faced k items
           (slice0 k (Array_sort (fun a b => faced b - faced a <=? 0) items)).
Proof.
  unfold TopFaced, slice0. fold byFaced.
  set (sorted := Array_sort byFaced items).
  assert (P : Permutation sorted items) by apply Array_sort_perm.
  assert (S : StronglySorted (fun a b => faced b <= faced a) sorted).
  { eapply StronglySorted_weaken;
      [|apply (Array_sort_sorted byFaced byFaced_total byFaced_trans)].
    intros a b. unfold byFaced. rewrite Z.leb_le. lia. }
  split; [|split].
  - exists sorted. repeat split; trivial.
    intros x y Hx Hy.
    exact (@sorted_prefix_below _ (fun a b => faced b <= faced a) k sorted x y
                                S Hx Hy).
  - rewrite length_firstn. now rewrite (Permutation_length P).
  - intros x Hx. apply firstn_incl in Hx. now apply (Permutation_in _ P).
Qed.

End TopFacedFacts.

(** X15: the most faced cards are the 8 cards faced most often, and the
    most faced decks the 5 decks faced most often, in descending order of
    the faced count: each list has that many entries (all of them when
    there are fewer) and nothing left out was faced more than something
    listed. *)
Theorem most_faced_lists_are_top_k (cardsArray : list Matchup.CardStat.t)
        (decks : list Matchup.DeckStat.t) :
  TopFaced Matchup.CardStat.faced 8 cardsArray (Matchup.mostFacedCards cardsArray)
  /\ TopFaced Matchup.DeckStat.faced 5 decks (Matchup.mostFacedDecks decks).
Proof.
  split; [apply (topFaced_holds Matchup.CardStat.faced)
         | apply (topFaced_holds Matchup.DeckStat.faced)].
Qed.

(** ** A log without any counted battle *)

Lemma matchup_battleStep_skip (playerTag : string) (st : Matchup.Tables)
      (b : Battle) :
  matchupCounted playerTag b = false ->
  Matchup.battleStep playerTag st b = Normal st.
Proof.
  unfold matchupCounted, Matchup.battleStep.
  destruct (isLadderOrPoL b); simpl; [|reflexivity].
  destruct (findPlayer b playerTag) as [p|]; [|reflexivity].
  destruct (hd_error (opponent b)) as [q|]; [discriminate | reflexivity].
Qed.

(** X16: on a log that is not empty but holds no battle the matchup loop
    counts (no ladder or path-of-legend battle with both sides), the
    matchup statistics are produced, never thrown, with a total of 0 and
    every list and table empty. *)
Theorem matchupStats_without_counted_battle (battles : list Battle)
        (playerTag : string) :
  battles <> [] ->
  (forall b, In b battles -> matchupCounted playerTag b = false) ->
  Matchup.matchupStats battles playerTag = Normal (Some noMatchup).
Proof.
  intros N H. unfold Matchup.matchupStats.
  destruct battles as [|b0 bs]; [now elim N|]. cbn [List.length Nat.eqb].
  assert (E : Matchup.aggregate playerTag (b0 :: bs) = Normal Matchup.emptyTables).
  { unfold Matchup.aggregate. generalize Matchup.emptyTables.
    revert H. generalize (b0 :: bs) as l.
    induction l as [|x l IH]; intros H st; [reflexivity|]. simpl.
    rewrite matchup_battleStep_skip by (apply H; now left). simpl.
    apply IH. intros y Hy. apply H. now right. }
  rewrite E. reflexivity.
Qed.

Lemma matchupStats_without_counted_battle_witness :
  Matchup.matchupStats [Sample.friendly; Sample.noOpponent] "#P0"
  = Normal (Some noMatchup).
Proof.
  apply matchupStats_without_counted_battle; [discriminate|].
  intros b [<-|[<-|[]]]; reflexivity.
Defined.

(** ** What the deck table adds up to *)

Lemma deckKey_none_iff (localeCompare : string -> string -> Z) (cs : list Card) :
  Usage.deckKey localeCompare cs = None <-> cs = [].
Proof.
  unfold Usage.deckKey. rewrite sortedCards_firstn.
  set (sorted := Array_sort _ (Map_values (Usage.uniqueCardsMap cs))).
  destruct (uniqueCardsMap_spec cs) as (_ & _ & Kin).
  assert (L : List.length sorted = List.length (map fst (Usage.uniqueCardsMap cs))).
  { unfold sorted. rewrite Array_sort_length. unfold Map_values.
    now rewrite !length_map. }
  split.
  - destruct cs as [|c cs']; [reflexivity|]. intros H. exfalso.
    assert (Hin : In (name c) (map fst (Usage.uniqueCardsMap (c :: cs')))).
    { apply Kin. now left. }
    destruct (map fst (Usage.uniqueCardsMap (c :: cs'))) as [|k ks];
      [destruct Hin|].
    rewrite length_firstn, L in H. simpl in H. discriminate.
  - intros ->. reflexivity.
Qed.

Lemma deckBump_addUp (isWin : bool) (vKey : string) (pc : list Card)
      (d : Usage.DeckCount.t) :
  variantsAddUp d -> variantsAddUp (deckBump isWin vKey pc d).
Proof.
  intros [Hc Hw]. unfold variantsAddUp, deckBump, Usage.DeckCount.onVariants.
  destruct isWin; simpl; rewrite update_ensure; [rewrite update_upsert|].
  - rewrite (sumOf_upsert Usage.VariantCount.count 1),
            (sumOf_upsert Usage.VariantCount.wins 1); simpl; try lia; auto.
  - rewrite (sumOf_upsert Usage.VariantCount.count 1),
            (sumOf_upsert Usage.VariantCount.wins 0); simpl; try lia; auto;
      intros v; lia.
Qed.

Lemma countDeck_measure (isWin : bool) (key vKey : string) (pc : list Card)
      (o : Obj Usage.DeckCount.t) :
  Forall variantsAddUp (map snd o) ->
  Forall variantsAddUp (map snd (Usage.countDeck isWin key vKey pc o))
  /\ sumOf Usage.DeckCount.count (map snd (Usage.countDeck isWin key vKey pc o))
     = sumOf Usage.DeckCount.count (map snd o) + 1
  /\ sumOf Usage.DeckCount.wins (map snd (Usage.countDeck isWin key vKey pc o))
     = sumOf Usage.DeckCount.wins (map snd o) + oneIf isWin.
Proof.
  intros F. rewrite countDeck_upsert. split; [|split].
  - apply upsert_Forall; trivial.
    + intros d. apply deckBump_addUp.
    + apply deckBump_addUp. split; reflexivity.
  - apply sumOf_upsert; intros; unfold deckBump; destruct isWin; reflexivity.
  - apply sumOf_upsert; intros; unfold deckBump; destruct isWin; simpl; lia.
Qed.

Lemma usage_battleStep_decks (localeCompare : string -> string -> Z)
      (playerTag : string) (st st' : Usage.Tables) (b : Battle) :
  Usage.battleStep localeCompare playerTag st b = Normal st' ->
  Forall variantsAddUp (map snd (Usage.deckCounts st)) ->
  Forall variantsAddUp (map snd (Usage.deckCounts st'))
  /\ sumOf Usage.DeckCount.count (map snd (Usage.deckCounts st'))
     = sumOf Usage.DeckCount.count (map snd (Usage.deckCounts st))
       + oneIf (fieldsDeck playerTag b)
  /\ sumOf Usage.DeckCount.wins (map snd (Usage.deckCounts st'))
     = sumOf Usage.DeckCount.wins (map snd (Usage.deckCounts st))
       + oneIf (fieldsDeck playerTag b && usageWin playerTag b).
Proof.
  unfold Usage.battleStep, fieldsDeck, usageCards, usageWin.
  destruct (findPlayer b playerTag) as [p|]; [|discriminate].
  destruct (hd_error (opponent b)) as [q|]; [|discriminate].
  destruct (cards p) as [cs|].
  - destruct (Usage.deckKey localeCompare cs) as [key|] eqn:K;
      intros H F; injection H as <-; simpl.
    + destruct cs as [|c cs'];
        [now rewrite (proj2 (deckKey_none_iff localeCompare []) eq_refl) in K|].
      cbn [andb]. apply countDeck_measure, F.
    + apply deckKey_none_iff in K. subst cs. simpl.
      split; [exact F|]. split; lia.
  - intros H F. injection H as <-. simpl. split; [exact F|]. split; lia.
Qed.

Lemma usage_aggregate_decks (localeCompare : string -> string -> Z)
      (playerTag : string) (bs : list Battle) (st t : Usage.Tables) :
  forEachM (Usage.battleStep localeCompare playerTag) bs st = Normal t ->
  Forall variantsAddUp (map snd (Usage.deckCounts st)) ->
  Forall variantsAddUp (map snd (Usage.deckCounts t))
  /\ sumOf Usage.DeckCount.count (map snd (Usage.deckCounts t))
     = sumOf Usage.DeckCount.count (map snd (Usage.deckCounts st))
       + countIf (fieldsDeck playerTag) bs
  /\ sumOf Usage.DeckCount.wins (map snd (Usage.deckCounts t))
     = sumOf Usage.DeckCount.wins (map snd (Usage.deckCounts st))
       + countIf (fun b => fieldsDeck playerTag b && usageWin playerTag b) bs.
Proof.
  revert st. induction bs as [|b bs IH]; intros st H F; simpl in H.
  - injection H as <-. rewrite !countIf_nil. split; [exact F|]. split; lia.
  - destruct (Usage.battleStep localeCompare playerTag st b) as [st1|e] eqn:E;
      simpl in H; [|discriminate].
    destruct (usage_battleStep_decks _ _ _ _ _ E F) as (F1 & C1 & W1).
    destruct (IH st1 H F1) as (F2 & C2 & W2).
    split; [exact F2|]. rewrite C2, W2, C1, W1, !countIf_cons. split; lia.
Qed.

(** X17: when the usage loop completes, the count and the wins of every
    deck bucket are the sums of those of its variants, and the deck
    buckets share out among them the battles in which the self side
    lists at least one card: their counts add up to the number of such
    battles and their wins to the number of those won. *)
Theorem usage_deck_table_adds_up (localeCompare : string -> string -> Z)
        (playerTag : string) (bs : list Battle) (t : Usage.Tables) :
  Usage.aggregate localeCompare playerTag bs = Normal t ->
  DeckTotals playerTag bs t.
Proof.
  intros H.
  destruct (usage_aggregate_decks _ _ _ _ _ H (Forall_nil _)) as (F & C & W).
  rewrite Forall_forall in F. unfold DeckTotals.
  rewrite (sumOf_perm _ _ _ (Object_values_perm (Usage.deckCounts t))),
          (sumOf_perm _ _ _ (Object_values_perm (Usage.deckCounts t))).
  split; [|split; [rewrite C | rewrite W]; simpl; lia].
  intros d Hd. apply Object_values_sub in Hd. destruct (F d Hd) as [Hc Hw].
  rewrite (sumOf_perm _ _ _ (Object_values_perm (Usage.DeckCount.variants d))),
          (sumOf_perm _ _ _ (Object_values_perm (Usage.DeckCount.variants d))).
  now split.
Qed.

Lemma usage_deck_table_adds_up_witness :
  exists t,
    Usage.aggregate codeUnitCompare "#P0" (filter isLadderOrPoL Sample.log)
    = Normal t
    /\ DeckTotals "#P0" (filter isLadderOrPoL Sample.log) t.
Proof.
  eexists. split; [vm_compute; reflexivity|].
  apply (usage_deck_table_adds_up codeUnitCompare). vm_compute. reflexivity.
Defined.

(** ** The elixir average *)

Lemma Map_get_set {V : Type} (k n : string) (v : V) (m : JsMap V) :
  Elixir.Map_get n (Map_set k v m)
  = if String.eqb k n then Some v else Elixir.Map_get n m.
Proof.
  induction m as [|[k' v'] m IH]; simpl; [reflexivity|].
  destruct (String.eqb_spec k' k) as [->|N]; simpl.
  - now destruct (String.eqb k n).
  - rewrite IH. destruct (String.eqb_spec k n) as [<-|N'];
      [|reflexivity].
    destruct (String.eqb_spec k' k) as [E|_]; [now elim N | reflexivity].
Qed.

Lemma find_app {A : Type} (p : A -> bool) (l l' : list A) :
  find p (l ++ l')
  = match find p l with Some x => Some x | None => find p l' end.
Proof.
  induction l as [|x l IH]; simpl; [reflexivity|].
  now destruct (p x).
Qed.

Lemma addCost_get (n : string) (m : JsMap Z) (c : Elixir.CardDatum.t) :
  Elixir.Map_get n (Elixir.addCost m c)
  = if givesCost n c then Elixir.CardDatum.elixir c else Elixir.Map_get n m.
Proof.
  unfold Elixir.addCost, givesCost.
  destruct (Usage.truthy (Elixir.CardDatum.name c)) as [k|]; [|reflexivity].
  destruct (Elixir.CardDatum.elixir c) as [e|]; [|reflexivity].
  apply Map_get_set.
Qed.

Lemma addCost_fold (n : string) (l : list Elixir.CardDatum.t) (m : JsMap Z) :
  Elixir.Map_get n (fold_left Elixir.addCost l m)
  = match find (givesCost n) (rev l) with
    | Some c => Elixir.CardDatum.elixir c
    | None => Elixir.Map_get n m
    end.
Proof.
  revert m. induction l as [|c l IH]; intros m; simpl; [reflexivity|].
  rewrite IH, find_app. destruct (find (givesCost n) (rev l)); [reflexivity|].
  simpl. rewrite addCost_get. now destruct (givesCost n c).
Qed.

(** X18: looking a name up in the cost table gives the elixir of the
    last entry of [cardData] that has this name and a defined elixir,
    and nothing when there is no such entry or no [cardData] at all. *)
Theorem elixirMap_last_entry_wins (cardData : option (list Elixir.CardDatum.t))
        (n : string) :
  Elixir.Map_get n (Elixir.elixirMap cardData)
  = match cardData with
    | None => None
    | Some l => match find (givesCost n) (rev l) with
                | Some c => Elixir.CardDatum.elixir c
                | None => None
                end
    end.
Proof.
  destruct cardData as [l|]; [|reflexivity].
  unfold Elixir.elixirMap, forEach. now rewrite addCost_fold.
Qed.

Lemma addElixir_all (m : JsMap Z) (deck : list Card) (st : Z * Z) :
  forEach (Elixir.addElixir m) deck st
  = (fst st + sumOf (fun k => k) (knownCosts m deck),
     snd st + Z.of_nat (List.length (knownCosts m deck))).
Proof.
  unfold forEach. revert st. induction deck as [|c deck IH]; intros [t k].
  - simpl. f_equal; lia.
  - cbn [fold_left]. rewrite IH. unfold Elixir.addElixir, knownCosts.
    cbn [flat_map]. fold (knownCosts m deck).
    destruct (Elixir.Map_get (name c) m) as [cost|]; cbn [fst snd app].
    + cbn [sumOf fold_right List.length]. fold (sumOf (fun k => k) (knownCosts m deck)).
      rewrite Nat2Z.inj_succ. f_equal; lia.
    + reflexivity.
Qed.

Lemma sumOf_bounds (lo hi : Z) (l : list Z) :
  (forall k, In k l -> lo <= k <= hi) ->
  lo * Z.of_nat (List.length l) <= sumOf (fun k => k) l
  <= hi * Z.of_nat (List.length l).
Proof.
  induction l as [|x l IH]; intros H.
  - simpl. lia.
  - cbn [sumOf fold_right List.length]. fold (sumOf (fun k => k) l).
    rewrite Nat2Z.inj_succ.
    assert (Hx : lo <= x <= hi) by (apply H; now left).
    assert (Hl : forall k, In k l -> lo <= k <= hi)
      by (intros k Hk; apply H; now right).
    specialize (IH Hl). lia.
Qed.

Lemma rate_between (lo hi total count : Z) :
  0 < count -> lo * count <= total <= hi * count ->
  (inject_Z lo <= rate total count <= inject_Z hi)%Q.
Proof.
  intros Hc [H1 H2]. unfold rate.
  assert (Hpos : (0 < inject_Z count)%Q).
  { change 0%Q with (inject_Z 0). rewrite <- Zlt_Qlt. lia. }
  split.
  - apply Qle_shift_div_l; [exact Hpos|].
    rewrite <- inject_Z_mult. now rewrite <- Zle_Qle.
  - apply Qle_shift_div_r; [exact Hpos|].
    rewrite <- inject_Z_mult. now rewrite <- Zle_Qle.
Qed.

(** X19: the elixir average of the reported deck is 0 when there is no
    deck or when the cost table knows none of its cards; otherwise it is
    the sum of the known costs over their number, cards without a cost
    being left out of both, and it lies between the cheapest and the
    dearest known cost. *)
Theorem deckElixirAvg_over_known_costs
        (cardData : option (list Elixir.CardDatum.t)) (deck : list Card) :
  Elixir.deckElixirAvg cardData None = 0%Q
  /\ ElixirSpec (Elixir.elixirMap cardData) deck
                (Elixir.deckElixirAvg cardData (Some deck)).
Proof.
  split; [reflexivity|]. unfold Elixir.deckElixirAvg, ElixirSpec.
  rewrite addElixir_all. cbn [fst snd]. rewrite !Z.add_0_l.
  set (costs := knownCosts (Elixir.elixirMap cardData) deck).
  destruct costs as [|k ks] eqn:E.
  - split; [reflexivity|]. split; intros; now exfalso.
  - assert (Pos : 0 < Z.of_nat (List.length (k :: ks))).
    { cbn [List.length]. lia. }
    apply Z.ltb_lt in Pos as Pos'. rewrite Pos'.
    split; [discriminate|]. split; [reflexivity|].
    intros lo hi _ B. apply rate_between; [exact Pos|].
    now apply sumOf_bounds.
Qed.

Lemma deckElixirAvg_over_known_costs_witness :
  (inject_Z 1 <= Elixir.deckElixirAvg ElixirSamples.table (Some Sample.hogCycle)
   <= inject_Z 4)%Q.
Proof.
  apply (proj2 (deckElixirAvg_over_known_costs ElixirSamples.table Sample.hogCycle)).
  - vm_compute. discriminate.
  - vm_compute. intros k [<-|[<-|[]]]; split; discriminate.
Defined.

(** ** The battle log: record and tilt tracker *)

Lemma tally_cases (acc : BattleLog.WinLoss) (b : BattleLog.Battle) :
  (lacksSide b = true /\ BattleLog.tally acc b = Throw TypeError)
  \/ (lacksSide b = false
      /\ exists acc', BattleLog.tally acc b = Normal acc'
         /\ BattleLog.total acc' = BattleLog.total acc + 1
         /\ BattleLog.wins acc' = BattleLog.wins acc + oneIf (logWon b)
         /\ BattleLog.losses acc' = BattleLog.losses acc + oneIf (logLost b)
         /\ BattleLog.crownsWon acc'
            = BattleLog.crownsWon acc + firstCrowns (BattleLog.team b)
         /\ BattleLog.crownsLost acc'
            = BattleLog.crownsLost acc + firstCrowns (BattleLog.opponent b)).
Proof.
  unfold BattleLog.tally, lacksSide, logWon, logLost.
  destruct (BattleLog.team b) as [|p ps]; [left; now split|].
  destruct (BattleLog.opponent b) as [|q qs]; [left; now split|].
  right. split; [reflexivity|]. eexists. split; [reflexivity|].
  cbn [hd_error firstCrowns BattleLog.total BattleLog.wins BattleLog.losses
       BattleLog.crownsWon BattleLog.crownsLost].
  destruct (BattleLog.crowns q <? BattleLog.crowns p) eqn:W;
    destruct (BattleLog.crowns p <? BattleLog.crowns q) eqn:L;
    unfold oneIf; repeat split; lia.
Qed.

Lemma tally_loop (l : list BattleLog.Battle) (acc st : BattleLog.WinLoss) :
  forEachM BattleLog.tally l acc = Normal st ->
  BattleLog.total st = BattleLog.total acc + Z.of_nat (List.length l)
  /\ BattleLog.wins st = BattleLog.wins acc + countIf logWon l
  /\ BattleLog.losses st = BattleLog.losses acc + countIf logLost l
  /\ BattleLog.crownsWon st
     = BattleLog.crownsWon acc
       + sumOf (fun b => firstCrowns (BattleLog.team b)) l
  /\ BattleLog.crownsLost st
     = BattleLog.crownsLost acc
       + sumOf (fun b => firstCrowns (BattleLog.opponent b)) l.
Proof.
  revert acc. induction l as [|b l IH]; intros acc H.
  - injection H as <-. rewrite !countIf_nil. cbn [List.length sumOf fold_right].
    repeat split; lia.
  - cbn [forEachM] in H.
    destruct (tally_cases acc b) as [(_ & E)|(_ & acc' & E & T & W & L & C & D)];
      rewrite E in H; [discriminate|].
    cbn [bind] in H. destruct (IH _ H) as (T' & W' & L' & C' & D').
    rewrite !countIf_cons. cbn [List.length sumOf fold_right].
    fold (sumOf (fun b => firstCrowns (BattleLog.team b)) l).
    fold (sumOf (fun b => firstCrowns (BattleLog.opponent b)) l).
    rewrite Nat2Z.inj_succ. repeat split; lia.
Qed.

Lemma won_lost_bound (l : list BattleLog.Battle) :
  countIf logWon l + countIf logLost l <= Z.of_nat (List.length l).
Proof.
  induction l as [|b l IH].
  - rewrite !countIf_nil. cbn [List.length]. lia.
  - rewrite !countIf_cons. cbn [List.length]. rewrite Nat2Z.inj_succ.
    assert (oneIf (logWon b) + oneIf (logLost b) <= 1); [|lia].
    unfold logWon, logLost, oneIf.
    generalize (firstCrowns (BattleLog.team b)) as won.
    generalize (firstCrowns (BattleLog.opponent b)) as lost. intros lost won.
    destruct (lost <? won) eqn:W; destruct (won <? lost) eqn:L; lia.
Qed.

Lemma tally_loop_throws (l : list BattleLog.Battle) (acc : BattleLog.WinLoss) :
  forEachM BattleLog.tally l acc = Throw TypeError
  <-> existsb lacksSide l = true.
Proof.
  revert acc. induction l as [|b l IH]; intros acc; cbn [forEachM existsb].
  - split; discriminate.
  - destruct (tally_cases acc b) as [(-> & ->)|(-> & acc' & -> & _)];
      cbn [bind orb]; [now split|apply IH].
Qed.

Lemma isTiltBattle_cases (b : BattleLog.Battle) :
  (BattleLog.isTiltBattle b = Throw TypeError /\ lacksSide b = true)
  \/ BattleLog.isTiltBattle b = Normal (tiltBattle b).
Proof.
  unfold BattleLog.isTiltBattle, tiltBattle, lacksSide.
  destruct (String.eqb (BattleLog.type b) "PvP" && BattleLog.modeIs "Ladder" b);
    cbn [andb]; [|now right].
  destruct (BattleLog.team b) as [|p ps]; cbn [hd_error]; [now left|now right].
Qed.

Lemma filterM_isTiltBattle (l : list BattleLog.Battle) :
  (exists b, In b l /\ lacksSide b = true
             /\ BattleLog.filterM BattleLog.isTiltBattle l = Throw TypeError)
  \/ BattleLog.filterM BattleLog.isTiltBattle l = Normal (filter tiltBattle l).
Proof.
  induction l as [|b l IH]; [now right|].
  cbn [BattleLog.filterM filter].
  destruct (isTiltBattle_cases b) as [(-> & L)| ->]; cbn [bind].
  - left. exists b. repeat split; [now left|exact L].
  - destruct IH as [(b' & I & L & ->)| ->]; cbn [bind].
    + left. exists b'. repeat split; [now right|exact L].
    + right. now destruct (tiltBattle b).
Qed.

Lemma tiltBattle_team (b : BattleLog.Battle) :
  tiltBattle b = true -> BattleLog.team b <> [].
Proof.
  unfold tiltBattle. destruct (BattleLog.team b); [|discriminate].
  now rewrite andb_false_r.
Qed.

Lemma tiltBattle_mode (b : BattleLog.Battle) :
  tiltBattle b = true -> BattleLog.modeLabel b = "Ladder".
Proof.
  unfold tiltBattle, BattleLog.modeIs, BattleLog.modeLabel. intros H.
  apply andb_prop in H as [H _]. apply andb_prop in H as [_ H].
  destruct (BattleLog.gameMode b) as [m|]; [|discriminate].
  apply String.eqb_eq in H. now subst m.
Qed.

Lemma trophyRows_total (l : list BattleLog.Battle) (c : Z) (i : nat) :
  Forall (fun b => BattleLog.team b <> []) l ->
  exists rows, BattleLog.trophyRows c i l = Normal rows.
Proof.
  revert c i. induction l as [|b l IH]; intros c i F; [now eexists|].
  inversion F as [|? ? Hb F']; subst. cbn [BattleLog.trophyRows].
  destruct (BattleLog.team b) as [|p ps]; [now elim Hb|]. cbn [hd_error].
  destruct (IH (c + orZero (BattleLog.trophyChange p)) (S i) F') as (rest & ->).
  cbn [bind]. now eexists.
Qed.

Lemma trophyRows_rows (l : list BattleLog.Battle) (c : Z) (i : nat)
      (rows : list BattleLog.TrophyRow) :
  BattleLog.trophyRows c i l = Normal rows ->
  map BattleLog.change rows = map changeOf l
  /\ forall j row, nth_error rows j = Some row ->
       exists b, nth_error l j = Some b
       /\ BattleLog.index row = Z.of_nat (i + j) + 1
       /\ BattleLog.cumulative row
          = c + sumOf (fun k => k) (firstn (S j) (map BattleLog.change rows))
       /\ BattleLog.mode row = BattleLog.modeLabel b
       /\ BattleLog.result row
          = (if 0 <? BattleLog.change row then "Win"
             else if BattleLog.change row <? 0 then "Loss" else "Draw").
Proof.
  revert c i rows. induction l as [|b l IH]; intros c i rows H.
  - injection H as <-. split; [reflexivity|]. intros [|j] row; discriminate.
  - cbn [BattleLog.trophyRows] in H. cbn [map].
    unfold changeOf at 1.
    destruct (BattleLog.team b) as [|p ps]; [discriminate|]. cbn [hd_error] in H.
    destruct (BattleLog.trophyRows _ (S i) l) as [rest|] eqn:E; [|discriminate].
    cbn [bind] in H. injection H as <-.
    destruct (IH _ _ _ E) as (M & R). cbn [map BattleLog.change].
    split; [now rewrite M|].
    intros [|j] row Hj.
    + injection Hj as <-. exists b. split; [reflexivity|].
      cbn [BattleLog.index BattleLog.cumulative BattleLog.mode BattleLog.result
           BattleLog.change firstn sumOf fold_right].
      rewrite Nat.add_0_r. repeat split; lia.
    + cbn [nth_error] in Hj. destruct (R j row Hj) as (b' & Nb & I & C & Md & Rs).
      exists b'. split; [exact Nb|]. split; [rewrite I; lia|].
      split; [|split; assumption].
      rewrite C. cbn [firstn sumOf fold_right]. unfold sumOf. lia.
Qed.

(** X20: the battle-log component shows nothing exactly for an empty log,
    and fails with a TypeError exactly when some battle other than a boat
    battle has no team or no opponent; a log of boat battles only is not
    empty and is reported with no battle counted. *)
Theorem battleLog_null_and_failure (battles : list BattleLog.Battle) :
  (BattleLog.analytics battles = Normal None <-> battles = [])
  /\ (BattleLog.analytics battles = Throw TypeError
      <-> existsb lacksSide (BattleLog.filteredBattles battles) = true)
  /\ (battles <> [] -> BattleLog.filteredBattles battles = [] ->
      BattleLog.analytics battles
      = Normal (Some ([], {| BattleLog.wins := 0; BattleLog.losses := 0;
                             BattleLog.total := 0; BattleLog.crownsWon := 0;
                             BattleLog.crownsLost := 0 |}))).
Proof.
  unfold BattleLog.analytics.
  destruct battles as [|b0 bs]; cbn [List.length Nat.eqb].
  - repeat split; try discriminate; try reflexivity. intros H. now elim H.
  - set (fb := BattleLog.filteredBattles (b0 :: bs)).
    unfold BattleLog.trophyData, BattleLog.stats.
    split; [|split].
    + split; [|discriminate].
      destruct (bind (BattleLog.filterM _ _) _) as [rows|]; [|discriminate].
      cbn [bind]. destruct (forEachM BattleLog.tally fb _); discriminate.
    + destruct (filterM_isTiltBattle fb) as [(b & I & L & ->)| ->]; cbn [bind].
      * split; [intros _|reflexivity].
        apply existsb_exists. now exists b.
      * destruct (trophyRows_total (rev (filter tiltBattle fb)) 0 0) as (rows & ->).
        { apply Forall_forall. intros b Hb. apply In_rev in Hb.
          apply filter_In in Hb as [_ Hb]. now apply tiltBattle_team. }
        cbn [bind].
        match goal with
        | |- context [forEachM BattleLog.tally fb ?acc] =>
            rewrite <- (tally_loop_throws fb acc);
            destruct (forEachM BattleLog.tally fb acc) as [st|[]]
        end; cbn [bind]; split; intros H; (discriminate H || reflexivity).
    + intros _ E. rewrite E. reflexivity.
Qed.

(** X21: when the component computes its record, the total is the number
    of battles other than boat battles, the wins (losses) are those where
    the first team player took strictly more (fewer) crowns than the first
    opponent, draws are in neither, and the crown sums run over the same
    battles. *)
Theorem battleLog_win_loss_record
        (battles : list BattleLog.Battle) (rows : list BattleLog.TrophyRow)
        (st : BattleLog.WinLoss) :
  BattleLog.analytics battles = Normal (Some (rows, st)) ->
  WinLossSpec (BattleLog.filteredBattles battles) st.
Proof.
  unfold BattleLog.analytics.
  destruct (List.length battles =? 0)%nat; [discriminate|].
  destruct (BattleLog.trophyData _) as [rows'|]; [|discriminate]. cbn [bind].
  unfold BattleLog.stats.
  destruct (forEachM _ _ _) as [st'|] eqn:E; [|discriminate]. cbn [bind].
  intros H. injection H as _ <-.
  destruct (tally_loop _ _ _ E) as (T & W & L & C & D).
  cbn [BattleLog.total BattleLog.wins BattleLog.losses BattleLog.crownsWon
       BattleLog.crownsLost] in *.
  pose proof (won_lost_bound (BattleLog.filteredBattles battles)).
  unfold WinLossSpec. repeat split; lia.
Qed.

Lemma battleLog_win_loss_record_witness :
  exists rows st,
    BattleLog.analytics LogSamples.log = Normal (Some (rows, st))
    /\ WinLossSpec (BattleLog.filteredBattles LogSamples.log) st.
Proof.
  eexists. eexists. split; [vm_compute; reflexivity|].
  eapply (battleLog_win_loss_record LogSamples.log). vm_compute. reflexivity.
Defined.

(** X22: the tilt tracker has one row per ladder PvP battle (boat battles
    apart) whose first team player reports a trophy change, oldest battle
    first; row [i] is numbered [i + 1], carries that change, the running
    sum of the changes up to and including it, the mode Ladder (never the
    Unknown fallback), and Win, Loss or Draw by the sign of the change. *)
Theorem battleLog_tilt_tracker
        (battles : list BattleLog.Battle) (rows : list BattleLog.TrophyRow)
        (st : BattleLog.WinLoss) :
  BattleLog.analytics battles = Normal (Some (rows, st)) ->
  TiltSpec (BattleLog.filteredBattles battles) rows.
Proof.
  unfold BattleLog.analytics.
  destruct (List.length battles =? 0)%nat; [discriminate|].
  set (fb := BattleLog.filteredBattles battles).
  unfold BattleLog.trophyData.
  destruct (filterM_isTiltBattle fb) as [(b & _ & _ & ->)| ->];
    [discriminate|]. cbn [bind].
  destruct (BattleLog.trophyRows 0 0 _) as [rows'|] eqn:E; [|discriminate].
  cbn [bind]. destruct (BattleLog.stats fb); [|discriminate]. cbn [bind].
  intros H. injection H as <- _.
  destruct (trophyRows_rows _ _ _ _ E) as (M & R).
  split; [exact M|].
  intros i row Hi. destruct (R i row Hi) as (b & Nb & I & C & Md & Rs).
  split; [exact I|]. split; [rewrite C; lia|]. split; [|exact Rs].
  rewrite Md. apply tiltBattle_mode.
  apply nth_error_In in Nb. apply In_rev in Nb.
  now apply filter_In in Nb as [_ Nb].
Qed.

Lemma battleLog_tilt_tracker_witness :
  exists rows st,
    BattleLog.analytics LogSamples.log = Normal (Some (rows, st))
    /\ TiltSpec (BattleLog.filteredBattles LogSamples.log) rows.
Proof.
  eexists. eexists. split; [vm_compute; reflexivity|].
  eapply (battleLog_tilt_tracker LogSamples.log). vm_compute. reflexivity.
Defined.

(** ** The archetype heatmap *)

Lemma get_set {V : Type} (k a : string) (v : V) (o : Obj V) :
  get a (set k v o) = if String.eqb k a then Some v else get a o.
Proof.
  induction o as [|[k' v'] o IH]; cbn [set get].
  - reflexivity.
  - destruct (String.eqb k' k) eqn:E; cbn [get].
    + apply String.eqb_eq in E. subst k'. now destruct (String.eqb k a).
    + rewrite IH. destruct (String.eqb k' a) eqn:E'; [|reflexivity].
      apply String.eqb_eq in E'. subst k'.
      rewrite String.eqb_sym in E. now rewrite E.
Qed.

Lemma get_update {V : Type} (k a : string) (f : V -> V) (o : Obj V) :
  get a (update k f o)
  = if String.eqb k a then option_map f (get a o) else get a o.
Proof.
  induction o as [|[k' v'] o IH]; cbn [update get].
  - now destruct (String.eqb k a).
  - destruct (String.eqb k' k) eqn:E; cbn [get].
    + apply String.eqb_eq in E. subst k'. now destruct (String.eqb k a).
    + rewrite IH. destruct (String.eqb k' a) eqn:E'; [|reflexivity].
      apply String.eqb_eq in E'. subst k'.
      rewrite String.eqb_sym in E. now rewrite E.
Qed.

Lemma addPopularity_get (popularity : Obj Z) (d : Heatmap.MatchupData)
      (a : string) :
  Heatmap.popularityOf (Heatmap.addPopularity popularity d) a
  = Heatmap.popularityOf popularity a
    + (if String.eqb (Heatmap.archetype d) a then Heatmap.total d else 0).
Proof.
  unfold Heatmap.popularityOf, Heatmap.addPopularity.
  rewrite get_update.
  destruct (String.eqb (Heatmap.archetype d) a) eqn:E.
  - apply String.eqb_eq in E. subst a.
    destruct (get (Heatmap.archetype d) popularity) as [v|] eqn:G.
    + destruct (v =? 0) eqn:Z0.
      * rewrite get_set, String.eqb_refl. apply Z.eqb_eq in Z0. subst v.
        reflexivity.
      * rewrite G. reflexivity.
    + rewrite get_set, String.eqb_refl. reflexivity.
  - destruct (get (Heatmap.archetype d) popularity) as [v|];
      [destruct (v =? 0)|]; rewrite ?get_set, ?E; lia.
Qed.

Lemma popularity_fold (l : list Heatmap.MatchupData) (popularity : Obj Z)
      (a : string) :
  Heatmap.popularityOf (forEach Heatmap.addPopularity l popularity) a
  = Heatmap.popularityOf popularity a + gamesOf l a.
Proof.
  unfold forEach, gamesOf. revert popularity.
  induction l as [|d l IH]; intros popularity; cbn [fold_left filter].
  - cbn [sumOf fold_right]. lia.
  - rewrite IH, addPopularity_get.
    destruct (String.eqb (Heatmap.archetype d) a);
      cbn [sumOf fold_right]; unfold sumOf; lia.
Qed.

Lemma popularity_games (source : list Heatmap.MatchupData) (a : string) :
  Heatmap.popularityOf (forEach Heatmap.addPopularity source []) a
  = gamesOf source a.
Proof. rewrite popularity_fold. reflexivity. Qed.

Lemma Set_add_fold (xs s : list string) :
  NoDup s ->
  NoDup (fold_left Heatmap.Set_add xs s)
  /\ forall a, In a (fold_left Heatmap.Set_add xs s) <-> In a s \/ In a xs.
Proof.
  revert s. induction xs as [|x xs IH]; intros s N; cbn [fold_left].
  - split; [exact N|]. intros a. cbn [In]. tauto.
  - unfold Heatmap.Set_add at 2 4.
    destruct (Royale.Array_includes s x) eqn:E.
    + apply Array_includes_spec in E.
      destruct (IH s N) as (N' & I). split; [exact N'|].
      intros a. rewrite I. cbn [In]. split; [tauto|].
      intros [H|[<-|H]]; tauto.
    + assert (Nx : ~ In x s).
      { intros H. apply Array_includes_spec in H. congruence. }
      assert (N1 : NoDup (s ++ [x])).
      { apply (Permutation_NoDup (Permutation_cons_append s x)).
        now constructor. }
      destruct (IH _ N1) as (N' & I). split; [exact N'|].
      intros a. rewrite I, in_app_iff. cbn [In]. tauto.
Qed.

Lemma uniqueValues_spec (xs : list string) :
  NoDup (Heatmap.uniqueValues xs)
  /\ forall a, In a (Heatmap.uniqueValues xs) <-> In a xs.
Proof.
  destruct (Set_add_fold xs [] (NoDup_nil _)) as (N & I).
  split; [exact N|]. intros a. rewrite (I a). cbn [In]. tauto.
Qed.

Lemma StronglySorted_firstn {A : Type} (R : A -> A -> Prop) (n : nat)
      (l : list A) :
  StronglySorted R l -> StronglySorted R (firstn n l).
Proof.
  intros S. revert n. induction S as [|a l S IH F]; intros [|n]; cbn [firstn];
    try constructor.
  - apply IH.
  - rewrite Forall_forall in *. intros x Hx. apply F.
    rewrite <- (firstn_skipn n l). apply in_or_app. now left.
Qed.

Lemma sortedArchetypes_spec (source : list Heatmap.MatchupData) :
  let sorted :=
    Array_sort (Heatmap.morePopular (forEach Heatmap.addPopularity source []))
               (Heatmap.uniqueValues (map Heatmap.archetype source)) in
  DomainSpec source sorted
  /\ forall a, In a (map Heatmap.archetype source) -> In a sorted.
Proof.
  intros sorted.
  destruct (uniqueValues_spec (map Heatmap.archetype source)) as (N & I).
  assert (P : Permutation sorted
                (Heatmap.uniqueValues (map Heatmap.archetype source)))
    by apply Array_sort_perm.
  split; [split; [|split]|].
  - apply (Permutation_NoDup (Permutation_sym P) N).
  - intros a Ha. apply I. now apply (Permutation_in _ P).
  - eapply StronglySorted_weaken; [|apply Array_sort_sorted].
    + intros a b H. unfold Heatmap.morePopular in H.
      rewrite !popularity_games in H. lia.
    + intros a b H. unfold Heatmap.morePopular in *. lia.
    + intros a b c H1 H2. unfold Heatmap.morePopular in *. lia.
  - intros a Ha. apply (Permutation_in _ (Permutation_sym P)). now apply I.
Qed.

(** X23: the popularity the heatmap sorts by is, for every archetype, the
    sum of [total] over the rows of the current view that have it as their
    archetype (0 for an archetype with no row); the rows where it is only
    the opponent do not count. *)
Theorem heatmap_popularity_sums_row_totals
        (source : list Heatmap.MatchupData) (a : string) :
  Heatmap.popularityOf (forEach Heatmap.addPopularity source []) a
  = gamesOf source a
  /\ (~ In a (map Heatmap.archetype source) ->
      Heatmap.popularityOf (forEach Heatmap.addPopularity source []) a = 0).
Proof.
  split; [apply popularity_games|].
  intros H. rewrite popularity_games. unfold gamesOf.
  replace (filter _ source) with (@nil Heatmap.MatchupData); [reflexivity|].
  symmetry. induction source as [|d l IH]; [reflexivity|]. cbn [filter].
  destruct (String.eqb (Heatmap.archetype d) a) eqn:E.
  - apply String.eqb_eq in E. elim H. now left.
  - apply IH. intros H'. apply H. now right.
Qed.

(** X24: in both views the axis of the heatmap lists archetypes of the
    rows, each once, by decreasing number of games.  The generic view
    lists every archetype; the detailed view lists at most 15, and when it
    leaves one out it lists exactly 15, none of them with fewer games than
    the one left out. *)
Theorem heatmap_axis_is_sorted_and_capped
        (specificData genericData : list Heatmap.MatchupData) :
  DomainSpec genericData
             (Heatmap.domain
                (Heatmap.processData Heatmap.generic specificData genericData))
  /\ (forall a, In a (map Heatmap.archetype genericData) ->
        In a (Heatmap.domain
                (Heatmap.processData Heatmap.generic specificData genericData)))
  /\ DomainSpec specificData
                (Heatmap.domain
                   (Heatmap.processData Heatmap.specific specificData genericData))
  /\ TopOf 15 specificData
           (Heatmap.domain
              (Heatmap.processData Heatmap.specific specificData genericData)).
Proof.
  unfold Heatmap.processData. cbn [Heatmap.domain]. unfold slice0.
  destruct (sortedArchetypes_spec genericData) as (Dg & Ag).
  destruct (sortedArchetypes_spec specificData) as ((N & I & S) & As).
  cbv zeta in *.
  set (sorted := Array_sort _ (Heatmap.uniqueValues (map _ specificData))) in *.
  split; [exact Dg|]. split; [exact Ag|]. split; [split; [|split]|split].
  - now apply NoDup_firstn.
  - intros a Ha. apply I. eapply firstn_incl. exact Ha.
  - now apply StronglySorted_firstn.
  - apply firstn_le_length.
  - intros a Ha Out. apply As in Ha.
    destruct (Nat.le_gt_cases (List.length sorted) 15) as [Le|Gt].
    + elim Out. rewrite firstn_all_le; assumption.
    + split; [apply firstn_length_le; lia|].
      intros b Hb.
      rewrite <- (firstn_skipn 15 sorted) in Ha. apply in_app_or in Ha.
      destruct Ha as [Ha|Ha]; [now elim Out|].
      exact (@sorted_prefix_below _ _ 15 sorted b a S Hb Ha).
Qed.

(** X25: the cells of the heatmap are exactly the rows of the current view
    whose archetype and opponent are both on the axis; in the generic view
    a row is dropped exactly when its opponent is the archetype of no
    row. *)
Theorem heatmap_cells_between_axis_archetypes
        (viewMode : Heatmap.ViewMode)
        (specificData genericData : list Heatmap.MatchupData) :
  RowsSpec (match viewMode with
            | Heatmap.specific => specificData
            | Heatmap.generic => genericData
            end)
           (Heatmap.domain (Heatmap.processData viewMode specificData genericData))
           (Heatmap.data (Heatmap.processData viewMode specificData genericData))
  /\ forall d,
       In d (Heatmap.data
               (Heatmap.processData Heatmap.generic specificData genericData))
       <-> In d genericData
           /\ exists d', In d' genericData
                          /\ Heatmap.archetype d' = Heatmap.opponent d.
Proof.
  split.
  - intros d. unfold Heatmap.processData.
    cbn [Heatmap.domain Heatmap.data]. rewrite filter_In, andb_true_iff.
    rewrite !Array_includes_spec. reflexivity.
  - intros d. unfold Heatmap.processData. cbn [Heatmap.data].
    rewrite filter_In, andb_true_iff, !Array_includes_spec.
    destruct (sortedArchetypes_spec genericData) as ((_ & I & _) & Ag).
    cbv zeta in *. split.
    + intros (Hd & _ & Ho). split; [exact Hd|].
      apply I, in_map_iff in Ho. destruct Ho as (d' & E & Hd').
      now exists d'.
    + intros (Hd & d' & Hd' & E). split; [exact Hd|]. split.
      * apply Ag. now apply in_map.
      * apply Ag. rewrite <- E. now apply in_map.
Qed.
